(** * azure_metrics_exporter: the resolution-and-translation pipeline

    A shallow embedding of [azure.go] and [main.go]: API-version selection,
    token parsing, resource filtering and prefix stripping, batch execution
    and metric translation, with the properties the specification states
    about them.

    Conventions.
    - Go [string] values are byte strings ([string] of the Standard Library),
      except in metric-name sanitisation, which works rune by rune.
    - Go [int] values are [Z]; slice indices and lengths are [nat].
    - A Go run-time panic is an explicit outcome, never an error value. *)

From Stdlib Require Import ZArith Ascii String List Bool Lia PrimFloat.
From stdpp Require Import base option list gmap strings.
Import ListNotations.

Local Open Scope string_scope.
Local Open Scope Z_scope.

(** ** Byte-level helpers for Go strings *)

Definition bytes (s : string) : list ascii := list_ascii_of_string s.
Definition of_bytes (l : list ascii) : string := string_of_list_ascii l.

(** [len(s)] *)
Definition len (s : string) : nat := String.length s.

Definition is_digit (c : ascii) : bool :=
  (48 <=? nat_of_ascii c)%nat && (nat_of_ascii c <=? 57)%nat.

Definition isLetter (c : ascii) : bool :=
  let n := nat_of_ascii c in
  ((65 <=? n)%nat && (n <=? 90)%nat) || ((97 <=? n)%nat && (n <=? 122)%nat).

Definition digit_val (c : ascii) : Z := Z.of_nat (nat_of_ascii c) - 48.

(** Value of a run of decimal digits, most significant first. *)
Definition digits_val (l : list ascii) : Z :=
  fold_left (fun acc c => 10 * acc + digit_val c) l 0.

(** ** API versions ([azure.go], lines 19-159) *)

(** One position of the pattern [^\d{4}-\d{2}-\d{2}]. *)
Inductive datePat := PDigit | PDash.

Definition pat_ok (p : datePat) (c : ascii) : bool :=
  match p with
  | PDigit => is_digit c
  | PDash => Ascii.eqb c "-"%char
  end.

Definition apiVersionDate : list datePat :=
  [PDigit; PDigit; PDigit; PDigit; PDash; PDigit; PDigit; PDash; PDigit; PDigit].

(** The text matched by an anchored pattern at the start of [s], if any. *)
Fixpoint match_prefix (pat : list datePat) (s : list ascii) : option (list ascii) :=
  match pat, s with
  | [], _ => Some []
  | p :: pat', c :: s' =>
      if pat_ok p c
      then match match_prefix pat' s' with
           | Some m => Some (c :: m)
           | None => None
           end
      else None
  | _ :: _, [] => None
  end.

(** [apiVersionDate.FindString(api)]: the match, or the empty string. *)
Definition FindString (api : string) : string :=
  match match_prefix apiVersionDate (bytes api) with
  | Some m => of_bytes m
  | None => ""
  end.

(** [time.Time] restricted to whole days in UTC: the number of days since
    January 1 of year 1, which is the zero [Time]. *)
Definition Time := Z.

Definition zeroTime : Time := 0.

Definition Before (t u : Time) : bool := t <? u.

Definition isLeap (year : Z) : bool :=
  (year mod 4 =? 0) && (negb (year mod 100 =? 0) || (year mod 400 =? 0)).

Definition daysIn (month year : Z) : Z :=
  if month =? 2 then (if isLeap year then 29 else 28)
  else if (month =? 4) || (month =? 6) || (month =? 9) || (month =? 11) then 30
  else 31.

(** Days of the year before the first of [month] in a common year. *)
Definition daysBefore (month : Z) : Z :=
  match month with
  | 1 => 0 | 2 => 31 | 3 => 59 | 4 => 90 | 5 => 120 | 6 => 151
  | 7 => 181 | 8 => 212 | 9 => 243 | 10 => 273 | 11 => 304 | _ => 334
  end.

(** [time.Date(year, month, day, 0, 0, 0, 0, time.UTC)] as a day count. *)
Definition Date_of (year month day : Z) : Time :=
  let y := year - 1 in
  365 * y + y / 4 - y / 100 + y / 400
  + daysBefore month
  + (if isLeap year && (3 <=? month) then 1 else 0)
  + (day - 1).

(** [time.Parse("2006-01-02", value)]: four digits, a dash, two digits, a
    dash, two digits and nothing after; the month is in 1..12 and the day
    exists in that month. [None] stands for the returned error. *)
Definition time_Parse (value : string) : option Time :=
  match bytes value with
  | [y1; y2; y3; y4; h1; m1; m2; h2; d1; d2] =>
      if forallb is_digit [y1; y2; y3; y4; m1; m2; d1; d2]
         && Ascii.eqb h1 "-"%char && Ascii.eqb h2 "-"%char
      then
        let year := digits_val [y1; y2; y3; y4] in
        let month := digits_val [m1; m2] in
        let day := digits_val [d1; d2] in
        if (month <=? 0) || (12 <? month) then None
        else if (day <? 1) || (daysIn month year <? day) then None
        else Some (Date_of year month day)
      else None
  | _ => None
  end.

Record APIVersionData := { Endpoint : string; Date : Time }.

(** State of the loop of [latestVersionFrom]: the current [latest] and the
    lines written with [log.Println] so far. *)
Record latestState := { latest : APIVersionData; logged : list string }.

(** One iteration of [for _, api := range apiList]. *)
Definition latestVersionFrom_step (st : latestState) (api : string) : latestState :=
  let dateStr := FindString api in
  match time_Parse dateStr with
  | None =>
      {| latest := latest st; logged := (logged st ++ [dateStr])%list |}
  | Some date =>
      if Before (Date (latest st)) date
      then {| latest := {| Endpoint := api; Date := date |}; logged := logged st |}
      else st
  end.

Definition latestVersionFrom_run (apiList : list string) : latestState :=
  fold_left latestVersionFrom_step apiList
    {| latest := {| Endpoint := ""; Date := zeroTime |}; logged := [] |}.

Definition latestVersionFrom (apiList : list string) : string :=
  Endpoint (latest (latestVersionFrom_run apiList)).

(** The date a candidate carries, when its leading token parses. *)
Definition parsedDate (api : string) : option Time := time_Parse (FindString api).

(** *** Selection in the words of the specification *)

(** Candidate [i] of [l] is [r], it carries the date [d], no candidate
    carries a later date, and every candidate before it carries an
    earlier one. *)
Definition firstMaxAt (l : list string) (i : nat) (r : string) (d : Time) : Prop :=
  l !! i = Some r /\ parsedDate r = Some d /\
  forall j api' d', l !! j = Some api' -> parsedDate api' = Some d' ->
    d' <= d /\ ((j < i)%nat -> d' < d).

(** The same with "every candidate after it carries an earlier one". *)
Definition lastMaxAt (l : list string) (i : nat) (r : string) (d : Time) : Prop :=
  l !! i = Some r /\ parsedDate r = Some d /\
  forall j api' d', l !! j = Some api' -> parsedDate api' = Some d' ->
    d' <= d /\ ((i < j)%nat -> d' < d).

(** The candidates whose date does not parse, as they are logged. *)
Definition unparsable (l : list string) : list string :=
  map FindString (filter (fun api => parsedDate api = None) l).

(** What holds of the loop state after the candidates [l]. *)
Definition latestInv (l : list string) (st : latestState) : Prop :=
  logged st = unparsable l /\
  ((Endpoint (latest st) = "" /\ Date (latest st) = zeroTime /\
    forall api d, api ∈ l -> parsedDate api = Some d -> d <= zeroTime)
   \/ (zeroTime < Date (latest st) /\
       exists i, firstMaxAt l i (Endpoint (latest st)) (Date (latest st)))).

(** [APIVersionResponse]: the provider listing. *)
Record resourceTypeEntry := {
  ResourceType : string;
  Locations : list string;
  APIVersions : list string
}.

Record providerEntry := {
  ProviderID : string;
  Namespace : string;
  ResourceTypes : list resourceTypeEntry;
  RegistrationState : string
}.

Record APIVersionResponse := { ProviderValue : list providerEntry }.

Abbreviation APIVersionMap := (gmap string string).

(** [strings.Join([]string{a, b}, "/")] *)
Definition join2 (a b : string) : string := a ++ "/" ++ b.

(** Inner loop of [extractAPIVersions]: the resource types of one provider. *)
Definition extractAPIVersions_types (ns : string) (acc : APIVersionMap)
    (ts : list resourceTypeEntry) : APIVersionMap :=
  fold_left
    (fun (m : APIVersionMap) t =>
       match APIVersions t with
       | [] => m
       | _ :: _ => <[join2 ns (ResourceType t) := latestVersionFrom (APIVersions t)]> m
       end)
    ts acc.

Definition extractAPIVersions (r : APIVersionResponse) : APIVersionMap :=
  fold_left
    (fun (m : APIVersionMap) val => extractAPIVersions_types (Namespace val) m (ResourceTypes val))
    (ProviderValue r) ∅.

(** The entry [key := v] comes from a listed resource type with at least
    one API version, and [v] is the version selected among them. *)
Definition fromListing (r : APIVersionResponse) (key v : string) : Prop :=
  exists val t, In val (ProviderValue r) /\ In t (ResourceTypes val) /\
    APIVersions t <> [] /\
    key = join2 (Namespace val) (ResourceType t) /\
    v = latestVersionFrom (APIVersions t).

(** [findBy]: the loop over the map stops at the entry whose key equals
    [resourceType]; keys are unique, so this is a lookup with the empty
    string as the default. *)
Definition findBy (m : APIVersionMap) (resourceType : string) : string :=
  default "" (m !! resourceType).

(** ** Outcomes of a call *)

(** A Go [error]: [None] is [nil]. The texts built with [fmt.Errorf] are
    kept short: no property below depends on them. *)
Definition error := option string.

(** How a call ends: it returns, a run-time panic unwinds it, [log.Fatal]
    exits the process, or the loop bound of the model is used up (which
    [batchCollectResources_fuel] shows never to happen). *)
Inductive outcome (A : Type) : Type :=
| Return (a : A)
| Panicked
| Exited
| OutOfFuel.
Arguments Return {A} a.
Arguments Panicked {A}.
Arguments Exited {A}.
Arguments OutOfFuel {A}.

(** ** Token provider ([azure.go], lines 161-212 and 483-494) *)

#[local] Set Warnings "-register-all".

(** A value decoded by [encoding/json] into [interface{}]. *)
Inductive iface :=
| INil
| IBool (b : bool)
| INumber (f : float)
| IString (s : string)
| IArray (l : list iface)
| IObject (l : list (string * iface)).

(** [strconv.ParseInt(s, 10, 64)]: an optional sign, then one or more
    decimal digits, the value within the range of [int64]. *)
Definition ParseInt (s : string) : option Z :=
  let parse_digits (neg : bool) (ds : list ascii) : option Z :=
    match ds with
    | [] => None
    | _ :: _ =>
        if forallb is_digit ds
        then let v := if neg then - digits_val ds else digits_val ds in
             if (- 2 ^ 63 <=? v) && (v <=? 2 ^ 63 - 1) then Some v else None
        else None
    end in
  match bytes s with
  | [] => None
  | c :: ds =>
      if Ascii.eqb c "+"%char then parse_digits false ds
      else if Ascii.eqb c "-"%char then parse_digits true ds
      else parse_digits false (c :: ds)
  end.

(** The answer of [ac.client.PostForm]: a transport error, or a response
    with its status code and what [ioutil.ReadAll] gives for its body. *)
Record httpResponse := { StatusCode : Z; Body : string + string }.

Definition postResult : Type := string + httpResponse.

(** *** Times of package [time]

    A [time.Time] without monotonic reading: [ext] counts the seconds since
    January 1 of year 1 in an [int64], [nsec] the nanoseconds within the
    second. *)
Record wallTime := { ext : Z; nsec : Z }.

(** The value of an [int64] computation that yields [z] in the integers. *)
Definition wrap64 (z : Z) : Z := (z + 2 ^ 63) mod 2 ^ 64 - 2 ^ 63.

(** The seconds from January 1 of year 1 to January 1, 1970. *)
Definition unixToInternal : Z := 62135596800.

(** [time.Unix(sec, nsec)] for [0 <= nsec < 1e9]: the sum is an [int64]
    sum and wraps around. *)
Definition time_Unix (sec nsec : Z) : wallTime :=
  {| ext := wrap64 (sec + unixToInternal); nsec := nsec |}.

(** [Time.addSec]: the sum saturates where it leaves the range of
    [int64]. *)
Definition wallTime_addSec (t : wallTime) (d : Z) : wallTime :=
  let sum := wrap64 (ext t + d) in
  if Bool.eqb (ext t <? sum) (0 <? d) then {| ext := sum; nsec := nsec t |}
  else if 0 <? d then {| ext := 2 ^ 63 - 1; nsec := nsec t |}
  else {| ext := - (2 ^ 63 - 1); nsec := nsec t |}.

(** [t.Add(d)] for a duration of [d] nanoseconds; the division truncates. *)
Definition wallTime_Add (t : wallTime) (d : Z) : wallTime :=
  let dsec := Z.quot d (10 ^ 9) in
  let n := nsec t + Z.rem d (10 ^ 9) in
  if 10 ^ 9 <=? n then wallTime_addSec {| ext := ext t; nsec := n - 10 ^ 9 |} (dsec + 1)
  else if n <? 0 then wallTime_addSec {| ext := ext t; nsec := n + 10 ^ 9 |} (dsec - 1)
  else wallTime_addSec {| ext := ext t; nsec := n |} dsec.

(** [t.After(u)] *)
Definition wallTime_After (t u : wallTime) : bool :=
  (ext u <? ext t) || ((ext t =? ext u) && (nsec u <? nsec t)).

(** [time.Minute], in nanoseconds. *)
Definition time_Minute : Z := 60 * 10 ^ 9.

(** [AzureClient]. The expiry is always a [time.Unix(sec, 0)], and
    [accessTokenExpiresOn] holds its [sec]: two such times are equal
    exactly when their [sec] are. *)
Record AzureClient := {
  accessToken : string;
  accessTokenExpiresOn : Z;
  clientAPIVersions : APIVersionMap
}.

(** [time.Time{}], the first second of year 1, is
    [time.Unix(-62135596800, 0)]. *)
Definition zeroTimeUnix : Z := -62135596800.

Definition NewAzureClient : AzureClient :=
  {| accessToken := ""; accessTokenExpiresOn := zeroTimeUnix; clientAPIVersions := ∅ |}.

Section Token.
(** [json.Unmarshal(body, &data)] for [data : map[string]interface{}];
    [None] is a decoding error. The decoder belongs to the Go library. *)
Variable json_Unmarshal : string -> option (gmap string iface).

(** [x.(string)] on the result of a map lookup: a missing key gives the
    nil interface, and anything but a string makes the assertion panic. *)
Definition assert_string (x : option iface) : option string :=
  match x with
  | Some (IString s) => Some s
  | _ => None
  end.

Definition getAccessToken (resp : postResult) (ac : AzureClient)
    : AzureClient * outcome error :=
  match resp with
  | inl err => (ac, Return (Some ("Error authenticating against Azure API: " ++ err)))
  | inr resp =>
      if negb (StatusCode resp =? 200)
      then (ac, Return (Some "Did not get status code 200"))
      else
        match Body resp with
        | inl err => (ac, Return (Some ("Error reading body of response: " ++ err)))
        | inr body =>
            match json_Unmarshal body with
            | None => (ac, Return (Some "Error unmarshalling response body"))
            | Some data =>
                match assert_string (data !! "access_token") with
                | None => (ac, Panicked)
                | Some tok =>
                    let ac1 := {| accessToken := tok;
                                  accessTokenExpiresOn := accessTokenExpiresOn ac;
                                  clientAPIVersions := clientAPIVersions ac |} in
                    match assert_string (data !! "expires_on") with
                    | None => (ac1, Panicked)
                    | Some exp =>
                        match ParseInt exp with
                        | None => (ac1, Return (Some "Error ParseInt of expires_on failed"))
                        | Some expiresOn =>
                            ({| accessToken := tok;
                                accessTokenExpiresOn := expiresOn;
                                clientAPIVersions := clientAPIVersions ac |},
                             Return None)
                        end
                    end
                end
            end
        end
  end.

(** [refreshAccessToken]; [now] is the reading of the clock that
    [time.Now()] takes, in nanoseconds since the Unix epoch. *)
Definition refreshAccessToken (now : Z) (resp : postResult) (ac : AzureClient)
    : AzureClient * outcome error :=
  let now := time_Unix (now / 10 ^ 9) (now mod 10 ^ 9) in
  let refreshAt := wallTime_Add (time_Unix (accessTokenExpiresOn ac) 0)
                                (-10 * time_Minute) in
  if wallTime_After now refreshAt
  then match getAccessToken resp ac with
       | (ac', Return (Some err)) =>
           (ac', Return (Some ("Error refreshing access token: " ++ err)))
       | r => r
       end
  else (ac, Return None).
End Token.

(** ** Configuration (package [config], used through its fields) *)

(** Modelled from the spec: the compiled patterns of package [config], which
    is not among the sources. They are owned by the configuration and the
    code only asks of them whether a name matches
    ([rx.MatchString(name)]). *)
Class RegexpLib := {
  Regexp : Type;
  MatchString : Regexp -> string -> bool
}.

(** Modelled from the spec: the configuration types of package [config],
    which is not among the sources: explicit targets, resource-group
    filters with include and exclude name patterns, and tag filters, each
    with a list of metric names and of aggregation kinds. The fields are
    those the code reads. *)
Record Credentials := {
  SubscriptionID : string;
  TenantID : string;
  ClientID : string;
  ClientSecret : string
}.

Record metricCfg := { MetricName : string }.

Record Target := {
  tg_Resource : string;
  tg_Metrics : list metricCfg;
  tg_Aggregations : list string
}.

Record ResourceGroup `{RegexpLib} := {
  rg_ResourceGroup : string;
  rg_ResourceTypes : list string;
  ResourceNameIncludeRe : list Regexp;
  ResourceNameExcludeRe : list Regexp;
  rg_Metrics : list metricCfg;
  rg_Aggregations : list string
}.

Record ResourceTag := {
  ResourceTagName : string;
  ResourceTagValue : string;
  rt_ResourceTypes : list string;
  rt_Metrics : list metricCfg;
  rt_Aggregations : list string
}.

Record Config `{RegexpLib} := {
  ConfigCredentials : Credentials;
  Targets : list Target;
  ResourceGroups : list ResourceGroup;
  ResourceTags : list ResourceTag
}.

(** ** Resources ([azure.go], lines 82-94, 396-481) *)

Record AzureResource := {
  ID : string;
  Name : string;
  Location : string;
  Type_ : string;
  Tags : gmap string string;
  ManagedBy : string;
  Subscription : string
}.

Record AzureResourceListResponse := { ListValue : list AzureResource }.

(** [filterTypesInResourceList] ([azure.go], lines 396-408): a first loop
    enters every given type as a key of [typesMap], a second one appends to
    [filteredResources] each listed resource whose type is a key of it. *)
Definition filterTypesInResourceList (response : AzureResourceListResponse)
    (types : list string) : list AzureResource :=
  let typesMap : gset string :=
    fold_left (fun typesMap resourceType => {[ resourceType ]} ∪ typesMap) types ∅ in
  fold_left (fun filteredResources resource =>
               if decide (Type_ resource ∈ typesMap)
               then (filteredResources ++ [resource])%list
               else filteredResources)
            (ListValue response) [].

(** [fmt.Sprintf("subscriptions/%s", sc.C.Credentials.SubscriptionID)] *)
Definition subscriptionOf (subscriptionID : string) : string :=
  "subscriptions/" ++ subscriptionID.

Definition subscriptionPrefixLen (subscriptionID : string) : nat :=
  (len (subscriptionOf subscriptionID) + 1)%nat.

(** The slice expression [s[n:]]: in bounds exactly when [n <= len(s)];
    [None] is the run-time panic of an out-of-range slice. *)
Definition slice_from (s : string) (n : nat) : option string :=
  if (n <=? len s)%nat then Some (substring n (len s - n) s) else None.

(** The body of the loop of [extendResources] for the element [val]. *)
Definition extendResource (subscriptionID : string) (val : AzureResource)
    : option AzureResource :=
  match slice_from (ID val) (subscriptionPrefixLen subscriptionID) with
  | None => None
  | Some id =>
      Some {| ID := id; Name := Name val; Location := Location val;
              Type_ := Type_ val; Tags := Tags val; ManagedBy := ManagedBy val;
              Subscription := subscriptionID |}
  end.

(** [for i, val := range ar.Value { ar.Value[i] = ... }]: element [i] is
    read before it is overwritten and no other element is touched, so the
    loop rebuilds the list front to back; it stops at the first panic. *)
Fixpoint extendResources_loop (subscriptionID : string) (l : list AzureResource)
    : option (list AzureResource) :=
  match l with
  | [] => Some []
  | val :: rest =>
      match extendResource subscriptionID val with
      | None => None
      | Some val' =>
          match extendResources_loop subscriptionID rest with
          | None => None
          | Some rest' => Some (val' :: rest')
          end
      end
  end.

Definition extendResources (subscriptionID : string) (ar : AzureResourceListResponse)
    : outcome (list AzureResource) :=
  match extendResources_loop subscriptionID (ListValue ar) with
  | Some l => Return l
  | None => Panicked
  end.

Section Filter.
Context `{RegexpLib}.

(** [for _, rx := range res { if rx.MatchString(name) { found = true; break } }] *)
Fixpoint anyMatch (res : list Regexp) (name : string) : bool :=
  match res with
  | [] => false
  | rx :: rest => if MatchString rx name then true else anyMatch rest name
  end.

(** One iteration of the outer loop of [filterResources]: [true] when the
    resource reaches [append]. *)
Definition keepResource (resourceGroup : ResourceGroup) (resource : AzureResource) : bool :=
  let included :=
    if negb (length (ResourceNameIncludeRe resourceGroup) =? 0)%nat
    then anyMatch (ResourceNameIncludeRe resourceGroup) (Name resource)
    else true in
  if negb included then false
  else
    let exclude := anyMatch (ResourceNameExcludeRe resourceGroup) (Name resource) in
    if exclude then false else true.

Fixpoint filterResources_loop (resourceGroup : ResourceGroup)
    (resources filteredResources : list AzureResource) : list AzureResource :=
  match resources with
  | [] => filteredResources
  | resource :: rest =>
      if keepResource resourceGroup resource
      then filterResources_loop resourceGroup rest (filteredResources ++ [resource])%list
      else filterResources_loop resourceGroup rest filteredResources
  end.

Definition filterResources (resources : list AzureResource)
    (resourceGroup : ResourceGroup) : list AzureResource :=
  filterResources_loop resourceGroup resources [].
End Filter.

(** The name filter in the words of the specification: a name is kept when
    it matches at least one include pattern (when there are include
    patterns) and matches none of the exclude patterns. *)
Definition specKeeps `{RegexpLib} (include exclude : list Regexp) (name : string) : bool :=
  match include with
  | [] => true
  | _ :: _ => existsb (fun rx => MatchString rx name) include
  end
  && forallb (fun rx => negb (MatchString rx name)) exclude.

(** A fragment of Go's pattern syntax that is enough for configurations
    such as [^web] and [-test$]: a literal text, optionally anchored at the
    start, at the end, or both. [compileLiteral] reads such a pattern. *)
Record literalRe := { anchoredStart : bool; literal : list ascii; anchoredEnd : bool }.

Fixpoint isPrefix (p s : list ascii) : bool :=
  match p, s with
  | [], _ => true
  | a :: p', b :: s' => Ascii.eqb a b && isPrefix p' s'
  | _ :: _, [] => false
  end.

Definition equalBytes (p s : list ascii) : bool :=
  isPrefix p s && (length p =? length s)%nat.

(** Does [p] occur in [s] at some offset, reaching the end of [s] when
    [toEnd] is set? *)
Fixpoint occurs (toEnd : bool) (p s : list ascii) : bool :=
  (if toEnd then equalBytes p s else isPrefix p s)
  || match s with
     | [] => false
     | _ :: s' => occurs toEnd p s'
     end.

Definition literalMatch (rx : literalRe) (name : string) : bool :=
  if anchoredStart rx
  then (if anchoredEnd rx then equalBytes (literal rx) (bytes name)
        else isPrefix (literal rx) (bytes name))
  else occurs (anchoredEnd rx) (literal rx) (bytes name).

Definition isMeta (c : ascii) : bool :=
  existsb (Ascii.eqb c) (bytes "\.+*?()|[]{}^$").

Definition compileLiteral (pattern : string) : option literalRe :=
  let l := bytes pattern in
  let (start, l1) := match l with
                     | c :: r => if Ascii.eqb c "^"%char then (true, r) else (false, l)
                     | [] => (false, l)
                     end in
  let (stop, l2) := match rev l1 with
                    | c :: r => if Ascii.eqb c "$"%char then (true, rev r) else (false, l1)
                    | [] => (false, l1)
                    end in
  if existsb isMeta l2 then None
  else Some {| anchoredStart := start; literal := l2; anchoredEnd := stop |}.

Definition literalRegexp : RegexpLib :=
  {| Regexp := literalRe; MatchString := literalMatch |}.

(** ** Metric names ([main.go], lines 27 and 67-72) *)

(** Metric names are processed rune by rune: a Go string is read here as
    the sequence of runes that [range], [strings.Map] and [regexp] decode
    from it (a byte that is not valid UTF-8 decodes to U+FFFD). *)
Definition rune := Z.
Definition text := list rune.

Definition rune_of (c : ascii) : rune := Z.of_nat (nat_of_ascii c).

(** The runes of an ASCII literal. *)
Definition runes (s : string) : text := map rune_of (bytes s).

(** [unicode.ToLower] belongs to the Go library; what is used of it is that
    it lowers the ASCII letters, fixes the other ASCII runes, and never
    yields an ASCII capital. *)
Class UnicodeLib := {
  unicode_ToLower : rune -> rune;
  unicode_ToLower_ascii :
    forall r, 0 <= r < 128 ->
      unicode_ToLower r = if (65 <=? r) && (r <=? 90) then r + 32 else r;
  unicode_ToLower_not_upper :
    forall r, negb ((65 <=? unicode_ToLower r) && (unicode_ToLower r <=? 90)) = true
}.

(** [strings.Replace(s, old, new, -1)] for a one-rune [old]. *)
Definition strings_Replace (s : text) (old : rune) (new : text) : text :=
  flat_map (fun r => if r =? old then new else [r]) s.

Definition strings_ToLower `{UnicodeLib} (s : text) : text := map unicode_ToLower s.

(** The class [a-zA-Z0-9_:]. *)
Definition validMetricChar (r : rune) : bool :=
  ((97 <=? r) && (r <=? 122)) || ((65 <=? r) && (r <=? 90))
  || ((48 <=? r) && (r <=? 57)) || (r =? 95) || (r =? 58).

(** [invalidMetricChars.ReplaceAllString(s, "_")] with
    [invalidMetricChars = regexp.MustCompile("[^a-zA-Z0-9_:]")]. *)
Definition invalidMetricChars_ReplaceAllString (s : text) : text :=
  map (fun r => if validMetricChar r then r else 95) s.

(** Lines 69-72 of [extractMetrics]. *)
Definition metricNameOf `{UnicodeLib} (nameValue unit : text) : text :=
  let metricName := strings_Replace nameValue 32 (runes "_") in
  let metricName := strings_ToLower (metricName ++ runes "_" ++ unit)%list in
  let metricName := strings_Replace metricName 47 (runes "_per_") in
  invalidMetricChars_ReplaceAllString metricName.

(** The name in the words of the specification, step by step: spaces of
    the metric name replaced with underscores, the unit appended,
    everything lowercased, every slash replaced with [_per_], every rune
    outside [a-zA-Z0-9_:] replaced with an underscore. *)
Definition claimedMetricName `{UnicodeLib} (nameValue unit : text) : text :=
  let spaced := map (fun r => if r =? 32 then 95 else r) nameValue in
  let lowered := map unicode_ToLower (spaced ++ unit)%list in
  let slashed := concat (map (fun r => if r =? 47 then [95; 112; 101; 114; 95] else [r])
                             lowered) in
  map (fun r => if ((97 <=? r) && (r <=? 122)) || ((65 <=? r) && (r <=? 90))
                   || ((48 <=? r) && (r <=? 57)) || (r =? 95) || (r =? 58)
                then r else 95) slashed.

(** What one rune of the metric name or of the unit becomes in the
    exposition name. *)
Definition sanitizedRune `{UnicodeLib} (r : rune) : text :=
  let l := unicode_ToLower r in
  if l =? 47 then [95; 112; 101; 114; 95]
  else if ((97 <=? l) && (l <=? 122)) || ((48 <=? l) && (l <=? 57)) || (l =? 95) || (l =? 58)
       then [l] else [95].

(** An ASCII capital letter. *)
Definition isUpperASCII (r : rune) : bool := (65 <=? r) && (r <=? 90).

(** Does [s] match [^[a-zA-Z0-9_:]+$]? *)
Definition matchesMetricNameRe (s : text) : bool :=
  match s with
  | [] => false
  | _ :: _ => forallb validMetricChar s
  end.

(** ** Metric payloads and exposition samples *)

Record dataPoint := {
  TimeStamp : string;
  Total : float;
  Average : float;
  Minimum : float;
  Maximum : float
}.

Record timeseries := { Data : list dataPoint }.

(** One entry of [AzureMetricValueResponse.Value]; [NameValue] is
    [Name.Value]. *)
Record metricValue := {
  Timeseries : list timeseries;
  ValueID : string;
  NameLocalizedValue : text;
  NameValue : text;
  ValueType_ : string;
  Unit : text
}.

Record apiError := { Code : string; Message : string }.

Record AzureMetricValueResponse := { Value : list metricValue; APIError : apiError }.

Record batchResponse := { HttpStatusCode : Z; Content : AzureMetricValueResponse }.

Record AzureBatchRequestResponse := { Responses : list batchResponse }.

Record resourceMeta := {
  ResourceURL : string;
  Metrics : string;
  Aggregations : list string;
  Resource : AzureResource
}.

Inductive valueType := GaugeValue | UntypedValue.

(** A descriptor: its name, its help text and its constant labels; this
    program uses no variable labels. *)
Record Desc := { fqName : text; help : text; constLabels : gmap string string }.

(** What is sent on the channel: the result of [MustNewConstMetric] or of
    [NewInvalidMetric]. *)
Inductive Metric :=
| ConstMetric (desc : Desc) (vt : valueType) (v : float)
| InvalidMetric (desc : Desc) (err : string).

(** *** Descriptors as the client library checks them

    [prometheus.NewDesc] records an error in the descriptor it returns when
    [model.IsValidMetricName] refuses the name, when [checkLabelName]
    refuses the name of a constant label, or when the value of a constant
    label is not valid UTF-8; [prometheus.MustNewConstMetric] panics on a
    descriptor that carries an error. The help texts of this program are
    never empty. *)

(** The class [a-zA-Z_:], with which a metric name starts. *)
Definition validMetricStart (r : rune) : bool :=
  ((97 <=? r) && (r <=? 122)) || ((65 <=? r) && (r <=? 90)) || (r =? 95) || (r =? 58).

(** [model.IsValidMetricName]: the name matches [^[a-zA-Z_:][a-zA-Z0-9_:]*$]. *)
Definition IsValidMetricName (n : text) : bool :=
  match n with
  | [] => false
  | r :: rest => validMetricStart r && forallb validMetricChar rest
  end.

(** [model.LabelName.IsValid]: the name matches [^[a-zA-Z_][a-zA-Z0-9_]*$]. *)
Definition LabelName_IsValid (l : string) : bool :=
  match bytes l with
  | [] => false
  | c :: rest =>
      (isLetter c || Ascii.eqb c "_"%char)
      && forallb (fun c => isLetter c || is_digit c || Ascii.eqb c "_"%char) rest
  end.

(** [checkLabelName]: a valid label name that does not start with the
    reserved prefix [__]. *)
Definition checkLabelName (l : string) : bool :=
  LabelName_IsValid l
  && negb match bytes l with
          | c1 :: c2 :: _ => Ascii.eqb c1 "_"%char && Ascii.eqb c2 "_"%char
          | _ => false
          end.

(** A continuation byte, [10xxxxxx]. *)
Definition utf8_cont (b : Z) : bool := (128 <=? b) && (b <=? 191).

(** [utf8.Valid] on the bytes [s]: one to four bytes per rune, no overlong
    form, no surrogate half, nothing above U+10FFFF. *)
Fixpoint utf8_Valid (s : list Z) : bool :=
  match s with
  | [] => true
  | b0 :: r0 =>
      if b0 <? 128 then utf8_Valid r0
      else if (194 <=? b0) && (b0 <=? 223) then
        match r0 with
        | b1 :: r1 => utf8_cont b1 && utf8_Valid r1
        | _ => false
        end
      else if (224 <=? b0) && (b0 <=? 239) then
        match r0 with
        | b1 :: b2 :: r2 =>
            (if b0 =? 224 then (160 <=? b1) && (b1 <=? 191)
             else if b0 =? 237 then (128 <=? b1) && (b1 <=? 159)
             else utf8_cont b1)
            && utf8_cont b2 && utf8_Valid r2
        | _ => false
        end
      else if (240 <=? b0) && (b0 <=? 244) then
        match r0 with
        | b1 :: b2 :: b3 :: r3 =>
            (if b0 =? 240 then (144 <=? b1) && (b1 <=? 191)
             else if b0 =? 244 then (128 <=? b1) && (b1 <=? 143)
             else utf8_cont b1)
            && utf8_cont b2 && utf8_cont b3 && utf8_Valid r3
        | _ => false
        end
      else false
  end.

(** [utf8.ValidString] *)
Definition utf8_ValidString (s : string) : bool := utf8_Valid (map rune_of (bytes s)).

(** Does [NewDesc] accept the descriptor, that is, leave its error nil? *)
Definition NewDesc_ok (d : Desc) : bool :=
  IsValidMetricName (fqName d)
  && forallb (fun kv => checkLabelName kv.1 && utf8_ValidString kv.2)
             (map_to_list (constLabels d)).

Definition azureErrorDesc : Desc :=
  {| fqName := runes "azure_error"; help := runes "Error collecting metrics";
     constLabels := ∅ |}.

Definition batchSize : nat := 20.

(** Functions of the repository that [main.go] calls and whose bodies are
    not among the sources, and [resourceURLFrom], whose result depends on
    the clock through [GetTimes]. They are parameters, taken to be total;
    the properties below hold whatever they compute. *)
Class Helpers := {
  CreateResourceLabels : string -> gmap string string;
  CreateAllResourceLabelsFrom : resourceMeta -> gmap string string;
  hasAggregation : list string -> string -> bool;
  filterAggregations : list string -> list string;
  resourceURLFrom : string -> string -> list string -> string;
  APIVersionsT : Type;
  getLatestBy : APIVersionsT -> string -> string;
  targetResourceType_FindString : string -> string
}.

(** ** Effects of a collection cycle *)

(** What a cycle does that can be observed, in order. [BatchCall] and
    [Translated] record the calls of [getBatchMetricValues] and
    [extractMetrics] with their arguments. *)
Inductive event :=
| Logged (line : string)
| Sent (m : Metric)
| BatchCall (urls : list string)
| Translated (rm : resourceMeta) (httpStatusCode : Z) (content : AzureMetricValueResponse).

(** [clock] counts the calls made to the management API so far; [client]
    is the process-wide [ac]. *)
Record state := { trace : list event; clock : nat; client : AzureClient }.

Definition M (A : Type) : Type := state -> state * outcome A.

#[global] Instance M_ret : MRet M := fun A a st => (st, Return a).

#[global] Instance M_bind : MBind M := fun A B f m st =>
  match m st with
  | (st', Return a) => f a st'
  | (st', Panicked) => (st', Panicked)
  | (st', Exited) => (st', Exited)
  | (st', OutOfFuel) => (st', OutOfFuel)
  end.

Definition emit (e : event) : M unit :=
  fun st => ({| trace := (trace st ++ [e])%list; clock := clock st; client := client st |},
             Return tt).

Definition tick : M nat :=
  fun st => ({| trace := trace st; clock := S (clock st); client := client st |},
             Return (clock st)).

Definition panic {A} : M A := fun st => (st, Panicked).
Definition exit {A} : M A := fun st => (st, Exited).
Definition outOfFuel {A} : M A := fun st => (st, OutOfFuel).

Definition log_ (line : string) : M unit := emit (Logged line).
Definition send (m : Metric) : M unit := emit (Sent m).

(** [prometheus.MustNewConstMetric(desc, valueType, value)] for a
    descriptor without variable labels. *)
Definition MustNewConstMetric (desc : Desc) (vt : valueType) (v : float) : M Metric :=
  if NewDesc_ok desc then mret (ConstMetric desc vt v) else panic.

(** [log.Fatal]: print, then [os.Exit(1)]. *)
Definition log_Fatal {A} (line : string) : M A := log_ line ≫= fun _ => exit.

Definition initial (ac : AzureClient) : state :=
  {| trace := []; clock := 0; client := ac |}.

(** The metrics sent on the channel, in order. *)
Definition sent (tr : list event) : list Metric :=
  omap (fun e => match e with Sent m => Some m | _ => None end) tr.

(** The lines logged, in order. *)
Definition logLines (tr : list event) : list string :=
  omap (fun e => match e with Logged line => Some line | _ => None end) tr.

(** The batch calls issued, in order. *)
Definition batchCalls (tr : list event) : list (list string) :=
  omap (fun e => match e with BatchCall urls => Some urls | _ => None end) tr.

(** The sub-responses handed to the translator, each with the query it
    was paired with, in order. *)
Definition translated (tr : list event)
    : list (resourceMeta * (Z * AzureMetricValueResponse)) :=
  omap (fun e => match e with
                 | Translated rm status content => Some (rm, (status, content))
                 | _ => None
                 end) tr.

(** ** Metric translator ([main.go], lines 52-115) *)

Definition when (b : bool) (m : M unit) : M unit := if b then m else mret tt.

(** [for _, x := range l { body }] *)
Fixpoint forEach {A} (body : A -> M unit) (l : list A) : M unit :=
  match l with
  | [] => mret tt
  | x :: rest => body x ≫= fun _ => forEach body rest
  end.

(** [for k, x := range l { body }], the index starting at [k]. *)
Fixpoint forEachIndexed {A} (body : nat -> A -> M unit) (k : nat) (l : list A) : M unit :=
  match l with
  | [] => mret tt
  | x :: rest => body k x ≫= fun _ => forEachIndexed body (S k) rest
  end.

Section Translator.
Context `{UnicodeLib} `{Helpers}.

(** [prometheus.NewDesc(fqName, help, nil, constLabels)] *)
Definition NewDesc (fqName help : text) (constLabels : gmap string string) : Desc :=
  {| fqName := fqName; help := help; constLabels := constLabels |}.

(** The samples of lines 76-106 for one data point: the metric is built,
    which may panic, and then sent. *)
Definition sendAggregations (rm : resourceMeta) (metricName : text)
    (metricValue : dataPoint) : M unit :=
  let labels := CreateResourceLabels (ResourceURL rm) in
  when (hasAggregation (Aggregations rm) "Total")
       (m ← MustNewConstMetric
              (NewDesc (metricName ++ runes "_total")%list
                       (metricName ++ runes "_total")%list labels)
              GaugeValue (Total metricValue);
        send m) ;;
  when (hasAggregation (Aggregations rm) "Average")
       (m ← MustNewConstMetric
              (NewDesc (metricName ++ runes "_average")%list
                       (metricName ++ runes "_average")%list labels)
              GaugeValue (Average metricValue);
        send m) ;;
  when (hasAggregation (Aggregations rm) "Minimum")
       (m ← MustNewConstMetric
              (NewDesc (metricName ++ runes "_min")%list
                       (metricName ++ runes "_min")%list labels)
              GaugeValue (Minimum metricValue);
        send m) ;;
  when (hasAggregation (Aggregations rm) "Maximum")
       (m ← MustNewConstMetric
              (NewDesc (metricName ++ runes "_max")%list
                       (metricName ++ runes "_max")%list labels)
              GaugeValue (Maximum metricValue);
        send m).

(** The body of [for _, value := range metricValueData.Value]:
    [value.Timeseries[0]] and [.Data[len(...)-1]] panic when out of
    range. *)
Definition extractMetrics_value (rm : resourceMeta) (value : metricValue) : M unit :=
  let metricName := metricNameOf (NameValue value) (Unit value) in
  match Timeseries value !! 0%nat with
  | None => panic
  | Some series =>
      match Data series !! (length (Data series) - 1)%nat with
      | None => panic
      | Some metricValue => sendAggregations rm metricName metricValue
      end
  end.

(** The three guards of lines 53-65, in order; [Some line] is the
    diagnostic logged before returning. *)
Definition extractMetrics_guard (httpStatusCode : Z)
    (metricValueData : AzureMetricValueResponse) : option string :=
  if negb (httpStatusCode =? 200) then Some "Received non-200 status for resource"
  else
    match Value metricValueData with
    | [] => Some "Metric not found at target"
    | v0 :: _ =>
        match Timeseries v0 with
        | [] => Some "Metric not found at target"
        | t0 :: _ =>
            if (length (Data t0) =? 0)%nat
            then Some "No metric data returned for metric at target"
            else None
        end
    end.

Definition extractMetrics (rm : resourceMeta) (httpStatusCode : Z)
    (metricValueData : AzureMetricValueResponse) : M unit :=
  emit (Translated rm httpStatusCode metricValueData) ;;
  match extractMetrics_guard httpStatusCode metricValueData with
  | Some line => log_ line
  | None =>
      forEach (extractMetrics_value rm) (Value metricValueData) ;;
      let infoLabels := CreateAllResourceLabelsFrom rm in
      m ← MustNewConstMetric
             (NewDesc (runes "azure_resource_info")
                      (runes "Azure information available for resource") infoLabels)
             UntypedValue 0%float;
      send m
  end.
End Translator.

(** *** The translator as a function from payloads to samples

    The definitions below restate what [extractMetrics] sends as pure
    functions; [extractMetrics_run] proves that they agree with it. *)

(** The state after some more events. *)
Definition addTrace (st : state) (evs : list event) : state :=
  {| trace := (trace st ++ evs)%list; clock := clock st; client := client st |}.

(** The last data point of the first series of a value entry. *)
Definition lastPoint (value : metricValue) : option dataPoint :=
  match Timeseries value with
  | [] => None
  | series :: _ => last (Data series)
  end.

(** Is [m] a metric the client library builds without a panic? *)
Definition validSample (m : Metric) : bool :=
  match m with
  | ConstMetric desc _ _ => NewDesc_ok desc
  | InvalidMetric _ _ => true
  end.

(** The samples of [ms] up to the first one that cannot be built. *)
Fixpoint accepted (ms : list Metric) : list Metric :=
  match ms with
  | [] => []
  | m :: rest => if validSample m then m :: accepted rest else []
  end.

Section TranslatorSamples.
Context `{UnicodeLib} `{Helpers}.

(** A gauge sample named [metricName] followed by [suffix]. *)
Definition gauge (metricName : text) (suffix : string)
    (labels : gmap string string) (v : float) : Metric :=
  ConstMetric {| fqName := (metricName ++ runes suffix)%list;
                 help := (metricName ++ runes suffix)%list;
                 constLabels := labels |} GaugeValue v.

(** The resource information sample. *)
Definition resourceInfo (rm : resourceMeta) : Metric :=
  ConstMetric {| fqName := runes "azure_resource_info";
                 help := runes "Azure information available for resource";
                 constLabels := CreateAllResourceLabelsFrom rm |} UntypedValue 0%float.

(** The samples of one data point, one per requested aggregation. *)
Definition aggregationSamples (rm : resourceMeta) (metricName : text)
    (p : dataPoint) : list Metric :=
  let labels := CreateResourceLabels (ResourceURL rm) in
  ((if hasAggregation (Aggregations rm) "Total"
    then [gauge metricName "_total" labels (Total p)] else [])
   ++ (if hasAggregation (Aggregations rm) "Average"
       then [gauge metricName "_average" labels (Average p)] else [])
   ++ (if hasAggregation (Aggregations rm) "Minimum"
       then [gauge metricName "_min" labels (Minimum p)] else [])
   ++ (if hasAggregation (Aggregations rm) "Maximum"
       then [gauge metricName "_max" labels (Maximum p)] else []))%list.

(** The samples asked for by the value entries up to the first one that
    has no last data point, and whether all of them had one. *)
Fixpoint valueSamples (rm : resourceMeta) (values : list metricValue)
    : list Metric * bool :=
  match values with
  | [] => ([], true)
  | value :: rest =>
      match lastPoint value with
      | None => ([], false)
      | Some p =>
          let (ms, ok) := valueSamples rm rest in
          ((aggregationSamples rm (metricNameOf (NameValue value) (Unit value)) p ++ ms)%list,
           ok)
      end
  end.

(** The samples the translator sets out to send for a payload that passes
    the guards, in order, and whether every value entry had a last data
    point: the resource information comes last, when it is reached. *)
Definition plannedSamples (rm : resourceMeta) (metricValueData : AzureMetricValueResponse)
    : list Metric * bool :=
  let (ms, ok) := valueSamples rm (Value metricValueData) in
  ((ms ++ (if ok then [resourceInfo rm] else []))%list, ok).

(** What follows the record of the call in the trace of [extractMetrics],
    and whether the call returns: the planned samples are sent up to the
    first one that cannot be built. *)
Definition translatorEvents (rm : resourceMeta) (httpStatusCode : Z)
    (metricValueData : AzureMetricValueResponse) : list event * bool :=
  match extractMetrics_guard httpStatusCode metricValueData with
  | Some line => ([Logged line], true)
  | None =>
      let (ms, ok) := plannedSamples rm metricValueData in
      (map Sent (accepted ms), ok && forallb validSample ms)
  end.
End TranslatorSamples.

(** ** The management API as seen by one cycle *)

(** What the network answers. Each answer of the management API may depend
    on how many calls came before it ([clock]) and on the request. An
    answer stands for the HTTP exchange and the JSON decoding together:
    [inl] is the error either of them gives. [lookupResourceByID] with two
    arguments and [populateAPIVersions] are called by [main.go] and are not
    among the sources. *)
Record World `{Helpers} := {
  now : Z;
  tokenAnswer : postResult;
  populateAPIVersions : string + APIVersionsT;
  lookupResourceByID : nat -> string -> string -> string + AzureResource;
  resourceGroupAnswer : nat -> string -> list string -> string + AzureResourceListResponse;
  tagAnswer : nat -> string -> string -> string + AzureResourceListResponse;
  batchAnswer : nat -> list string -> string + AzureBatchRequestResponse
}.

(** ** Batch executor ([main.go], lines 117-142) *)

(** [l[i:j]] for [i <= j <= len(l)]. *)
Definition slice {A} (l : list A) (i j : nat) : list A := take (j - i) (drop i l).

Section Executor.
Context `{UnicodeLib} `{Helpers} (world : World).

(** [ac.getBatchMetricValues(urls)] *)
Definition getBatchMetricValues (urls : list string)
    : M (string + AzureBatchRequestResponse) :=
  emit (BatchCall urls) ;;
  c ← tick;
  mret (batchAnswer world c urls).

(** [for i := 0; i < len(resources); i += batchSize]; [fuel] bounds the
    number of iterations. *)
Fixpoint batchLoop (fuel : nat) (resources : list resourceMeta) (i : nat) : M unit :=
  if (i <? length resources)%nat then
    match fuel with
    | O => outOfFuel
    | S fuel' =>
        let j := (i + batchSize)%nat in
        let j := if (length resources <? j)%nat then length resources else j in
        let urls := map ResourceURL (slice resources i j) in
        r ← getBatchMetricValues urls;
        match r with
        | inl err => send (InvalidMetric azureErrorDesc err)
        | inr batchData =>
            forEachIndexed
              (fun k resp =>
                 match resources !! (i + k)%nat with
                 | None => panic
                 | Some rm => extractMetrics rm (HttpStatusCode resp) (Content resp)
                 end)
              0%nat (Responses batchData) ;;
            batchLoop fuel' resources (i + batchSize)%nat
        end
    end
  else mret tt.

Definition batchCollectResources (resources : list resourceMeta) : M unit :=
  batchLoop (length resources) resources 0%nat.
End Executor.

(** *** The executor in the words of the specification

    The partition into consecutive groups of a fixed maximum size, and the
    positional pairing of the sub-responses of a batch with its queries. *)

Fixpoint chunksFuel {A} (fuel size : nat) (l : list A) : list (list A) :=
  match fuel with
  | O => []
  | S fuel' =>
      match l with
      | [] => []
      | _ :: _ => take size l :: chunksFuel fuel' size (drop size l)
      end
  end.

(** Consecutive groups of [size] elements, the last one possibly smaller. *)
Definition chunks {A} (size : nat) (l : list A) : list (list A) :=
  chunksFuel (length l) size l.

(** Does the translator return on a sub-response handed over with the
    query [rm]? It does when a guard stops it, and otherwise when every
    value entry has a last data point in its first series and the client
    library accepts the descriptor of every sample asked for and that of
    the resource information. *)
Definition translatorReturns `{UnicodeLib} `{Helpers} (rm : resourceMeta)
    (httpStatusCode : Z) (content : AzureMetricValueResponse) : bool :=
  match extractMetrics_guard httpStatusCode content with
  | Some _ => true
  | None =>
      forallb (fun v => match lastPoint v with
                        | Some p =>
                            forallb validSample
                              (aggregationSamples rm (metricNameOf (NameValue v) (Unit v)) p)
                        | None => false
                        end) (Value content)
      && validSample (resourceInfo rm)
  end.

(** A combined response to the queries [group] that the cycle can digest:
    it has no more sub-responses than there are queries, and the
    translator returns on each of them with the query of its position. *)
Definition digestible `{UnicodeLib} `{Helpers} (group : list resourceMeta)
    (d : AzureBatchRequestResponse) : Prop :=
  (length (Responses d) <= length group)%nat /\
  Forall (fun p => translatorReturns p.1 (HttpStatusCode p.2) (Content p.2) = true)
         (zip group (Responses d)).

(** The i-th query of a group with the i-th sub-response. *)
Definition pairUp (group : list resourceMeta) (d : AzureBatchRequestResponse)
    : list (resourceMeta * (Z * AzureMetricValueResponse)) :=
  zip group (map (fun resp => (HttpStatusCode resp, Content resp)) (Responses d)).

Section ExecutorSpec.
Context `{UnicodeLib} `{Helpers} (world : World).


(** The events of the hand-offs [pairs]. *)
Definition handoffEvents (pairs : list (resourceMeta * (Z * AzureMetricValueResponse)))
    : list event :=
  flat_map (fun p => Translated p.1 p.2.1 p.2.2 :: fst (translatorEvents p.1 p.2.1 p.2.2))
           pairs.

(** The events of submitting the groups one after the other. *)
Fixpoint expectedTrace (c : nat) (groups : list (list resourceMeta)) : list event :=
  match groups with
  | [] => []
  | group :: rest =>
      match batchAnswer world c (map ResourceURL group) with
      | inr d =>
          (BatchCall (map ResourceURL group) :: handoffEvents (pairUp group d)
           ++ expectedTrace (S c) rest)%list
      | inl _ => []
      end
  end.
End ExecutorSpec.

(** The count of batch calls as the specification states it: when every
    combined call succeeds, a run issues ceil(N/B) of them. *)
Definition issuesCeilCalls `{UnicodeLib} `{Helpers} (world : World)
    (resources : list resourceMeta) (st : state) : Prop :=
  (forall c urls, exists d, batchAnswer world c urls = inr d) ->
  length (batchCalls (trace (fst (batchCollectResources world resources st))))
  = (length (batchCalls (trace st))
     + (length resources + batchSize - 1) / batchSize)%nat.

(** ** The collection cycle ([main.go], lines 144-242) *)

Definition liftOutcome {A} (o : outcome A) : M A := fun st => (st, o).

(** [strings.Join(names, ",")] over the configured metric names. *)
Definition joinMetrics (metrics : list metricCfg) : string :=
  String.concat "," (map MetricName metrics).

Section Cycle.
Context `{RegexpLib} `{UnicodeLib} `{Helpers}.
Variable json_Unmarshal : string -> option (gmap string iface).
Variable world : World.
Variable sc : Config.

Definition subscriptionID : string := SubscriptionID (ConfigCredentials sc).

(** [ac.refreshAccessToken()] on the process-wide client. *)
Definition refresh : M error := fun st =>
  let (ac', r) := refreshAccessToken json_Unmarshal (now world) (tokenAnswer world) (client st) in
  ({| trace := trace st; clock := clock st; client := ac' |}, r).

(** [listFromResourceGroup] ([azure.go], lines 295-317) *)
Definition listFromResourceGroup (resourceGroup : string) (resourceTypes : list string)
    : M (string + list AzureResource) :=
  c ← tick;
  match resourceGroupAnswer world c resourceGroup resourceTypes with
  | inl err => mret (inl err)
  | inr data => l ← liftOutcome (extendResources subscriptionID data); mret (inr l)
  end.

(** [filteredListFromResourceGroup] ([azure.go], lines 275-283) *)
Definition filteredListFromResourceGroup (resourceGroup : ResourceGroup)
    : M (string + list AzureResource) :=
  r ← listFromResourceGroup (rg_ResourceGroup resourceGroup) (rg_ResourceTypes resourceGroup);
  match r with
  | inl err => mret (inl err)
  | inr resources => mret (inr (filterResources resources resourceGroup))
  end.

(** [listByTag] ([azure.go], lines 320-343); [filteredListByTag] returns
    its result unchanged. *)
Definition listByTag (tagName tagValue : string) (types : list string)
    : M (string + list AzureResource) :=
  c ← tick;
  match tagAnswer world c tagName tagValue with
  | inl err => mret (inl err)
  | inr data =>
      let data := if (0 <? length types)%nat
                  then {| ListValue := filterTypesInResourceList data types |}
                  else data in
      l ← liftOutcome (extendResources subscriptionID data); mret (inr l)
  end.

Definition filteredListByTag (resourceTag : ResourceTag) : M (string + list AzureResource) :=
  listByTag (ResourceTagName resourceTag) (ResourceTagValue resourceTag)
            (rt_ResourceTypes resourceTag).

(** The loop over [sc.C.Targets] (lines 158-181). *)
Fixpoint collectTargets (apiVersions : APIVersionsT) (targets : list Target)
    (resources : list resourceMeta) : M (list resourceMeta) :=
  match targets with
  | [] => mret resources
  | target :: rest =>
      let metrics := joinMetrics (tg_Metrics target) in
      let aggregations := filterAggregations (tg_Aggregations target) in
      let url := resourceURLFrom (tg_Resource target) metrics aggregations in
      let resourceType := targetResourceType_FindString (tg_Resource target) in
      let apiVersion := getLatestBy apiVersions resourceType in
      c ← tick;
      match lookupResourceByID world c apiVersion (tg_Resource target) with
      | inl err =>
          log_ "failed to get resource information for target" ;;
          send (InvalidMetric azureErrorDesc err) ;;
          collectTargets apiVersions rest resources
      | inr r =>
          collectTargets apiVersions rest
            (resources ++ [{| ResourceURL := url; Metrics := metrics;
                              Aggregations := aggregations; Resource := r |}])%list
      end
  end.

(** The loop over [sc.C.ResourceGroups] (lines 183-206); [None] when the
    loop leaves [Collect] with [return]. *)
Fixpoint collectGroups (groups : list ResourceGroup) (resources : list resourceMeta)
    : M (option (list resourceMeta)) :=
  match groups with
  | [] => mret (Some resources)
  | resourceGroup :: rest =>
      let metricsStr := joinMetrics (rg_Metrics resourceGroup) in
      r ← filteredListFromResourceGroup resourceGroup;
      match r with
      | inl err =>
          log_ "Failed to get resources for resource group" ;;
          send (InvalidMetric azureErrorDesc err) ;;
          mret None
      | inr filteredResources =>
          let added :=
            map (fun f =>
                   let aggregations := filterAggregations (rg_Aggregations resourceGroup) in
                   {| ResourceURL := resourceURLFrom (ID f) metricsStr aggregations;
                      Metrics := metricsStr; Aggregations := aggregations;
                      Resource := f |}) filteredResources in
          collectGroups rest (resources ++ added)%list
      end
  end.

(** The inner loop of lines 223-239. *)
Fixpoint collectTagged (apiVersions : APIVersionsT) (resourceTag : ResourceTag)
    (metricsStr : string) (filteredResources : list AzureResource)
    (resources : list resourceMeta) : M (list resourceMeta) :=
  match filteredResources with
  | [] => mret resources
  | f :: rest =>
      let aggregations := filterAggregations (rt_Aggregations resourceTag) in
      let url := resourceURLFrom (ID f) metricsStr aggregations in
      let apiVersion := getLatestBy apiVersions (Type_ f) in
      c ← tick;
      match lookupResourceByID world c apiVersion (ID f) with
      | inl err =>
          log_ "failed to get resource information for target" ;;
          send (InvalidMetric azureErrorDesc err) ;;
          collectTagged apiVersions resourceTag metricsStr rest resources
      | inr r =>
          collectTagged apiVersions resourceTag metricsStr rest
            (resources ++ [{| ResourceURL := url; Metrics := metricsStr;
                              Aggregations := aggregations; Resource := r |}])%list
      end
  end.

(** The loop over [sc.C.ResourceTags] (lines 208-240). *)
Fixpoint collectTags (apiVersions : APIVersionsT) (tags : list ResourceTag)
    (resources : list resourceMeta) : M (option (list resourceMeta)) :=
  match tags with
  | [] => mret (Some resources)
  | resourceTag :: rest =>
      let metricsStr := joinMetrics (rt_Metrics resourceTag) in
      r ← filteredListByTag resourceTag;
      match r with
      | inl err =>
          log_ "Failed to get resources for tag name and tag value" ;;
          send (InvalidMetric azureErrorDesc err) ;;
          mret None
      | inr filteredResources =>
          resources ← collectTagged apiVersions resourceTag metricsStr
                        filteredResources resources;
          collectTags apiVersions rest resources
      end
  end.

Definition Collect : M unit :=
  err ← refresh;
  match err with
  | Some err => log_ err ;; send (InvalidMetric azureErrorDesc err)
  | None =>
      _ ← tick;
      match populateAPIVersions world with
      | inl err => log_Fatal err
      | inr apiVersions =>
          resources ← collectTargets apiVersions (Targets sc) [];
          r ← collectGroups (ResourceGroups sc) resources;
          match r with
          | None => mret tt
          | Some resources =>
              r ← collectTags apiVersions (ResourceTags sc) resources;
              match r with
              | None => mret tt
              | Some resources => batchCollectResources world resources
              end
          end
      end
  end.
End Cycle.

(** ** Further functions of [azure.go] *)

(** [secureString]: [strings.Replace(value, "'", "\\'", -1)], every single
    quote replaced by a backslash and a single quote. *)
Definition secureString (value : string) : string :=
  of_bytes (flat_map (fun c => if Ascii.eqb c "'"%char then ["\"%char; "'"%char] else [c])
                     (bytes value)).

(** The longest run of letters at the start of [s]. *)
Fixpoint letters (s : list ascii) : list ascii :=
  match s with
  | c :: r => if isLetter c then c :: letters r else []
  | [] => []
  end.

(** The match of [[mM]icrosoft\.[a-zA-Z]+(\/[a-zA-Z]+)] ([azure.go], line
    21) that starts at the first byte of [s], if there is one. Both runs of
    letters are greedy, and giving letters back never helps: the byte after
    a shorter run is a letter, not the slash. *)
Definition targetResourceType_matchHere (s : list ascii) : option (list ascii) :=
  match s with
  | c :: r =>
      if (Ascii.eqb c "m"%char || Ascii.eqb c "M"%char) && isPrefix (bytes "icrosoft.") r
      then
        let r1 := drop 9 r in
        let ns := letters r1 in
        match ns, drop (length ns) r1 with
        | _ :: _, slash :: r2 =>
            if Ascii.eqb slash "/"%char
            then match letters r2 with
                 | [] => None
                 | ty => Some (c :: bytes "icrosoft." ++ ns ++ "/"%char :: ty)%list
                 end
            else None
        | _, _ => None
        end
      else None
  | [] => None
  end.

(** The leftmost match. *)
Fixpoint targetResourceType_find (s : list ascii) : list ascii :=
  match s with
  | [] => []
  | c :: r =>
      match targetResourceType_matchHere (c :: r) with
      | Some m => m
      | None => targetResourceType_find r
      end
  end.

(** [targetResourceType.FindString(resourceID)] with the pattern of
    [azure.go]: the leftmost match, or the empty string. *)
Definition azure_targetResourceType_FindString (resourceID : string) : string :=
  of_bytes (targetResourceType_find (bytes resourceID)).

(** [getAzureMonitorResponse] ([azure.go], lines 415-436) on the answer to
    its request ([inl] when the request cannot be built or sent): the
    status is looked at before the error of reading the body. *)
Definition getAzureMonitorResponse (answer : postResult) : string + string :=
  match answer with
  | inl err => inl ("Error: " ++ err)
  | inr resp =>
      if negb (StatusCode resp =? 200)
      then inl "Unable to query API with status code"
      else match Body resp with
           | inl err => inl ("Error reading body of response: " ++ err)
           | inr body => inr body
           end
  end.

Section ManagementAPI.
(** [json.Unmarshal] into an [APIVersionResponse] and into an
    [AzureResource]; the decoder belongs to the Go library. *)
Variable json_Unmarshal_versions : string -> option APIVersionResponse.
Variable json_Unmarshal_resource : string -> option AzureResource.
(** What a GET of an endpoint is answered. *)
Variable get : string -> postResult.
(** [sc.C.ResourceManagerURL] and [sc.C.Credentials.SubscriptionID] *)
Variable resourceManagerURL : string.
Variable subscriptionID_ : string.

(** [listAPIVersions] ([azure.go], lines 345-364) *)
Definition listAPIVersions (ac : AzureClient) : AzureClient * error :=
  let resourcesEndpoint :=
    resourceManagerURL ++ "/" ++ subscriptionOf subscriptionID_
    ++ "/providers?api-version=2019-05-10" in
  match getAzureMonitorResponse (get resourcesEndpoint) with
  | inl err => (ac, Some err)
  | inr body =>
      match json_Unmarshal_versions body with
      | None => (ac, Some "Error unmarshalling response body")
      | Some versionResponse =>
          ({| accessToken := accessToken ac;
              accessTokenExpiresOn := accessTokenExpiresOn ac;
              clientAPIVersions := extractAPIVersions versionResponse |}, None)
      end
  end.

(** The endpoint asked by [lookupResourceByID]. *)
Definition lookupEndpoint (resourceID apiVersion : string) : string :=
  resourceManagerURL ++ "/" ++ subscriptionOf subscriptionID_ ++ "/" ++ resourceID
  ++ "?api-version=" ++ apiVersion.

(** [lookupResourceByID] of [azure.go] (lines 366-394), the method with
    one argument. *)
Definition AzureClient_lookupResourceByID (ac : AzureClient) (resourceID : string)
    : string + AzureResource :=
  let resourceType := azure_targetResourceType_FindString resourceID in
  if String.eqb resourceType "" then inl "No type found for resource"
  else
    let apiVersion := findBy (clientAPIVersions ac) resourceType in
    if String.eqb apiVersion "" then inl "No api version found for type"
    else
      match getAzureMonitorResponse (get (lookupEndpoint resourceID apiVersion)) with
      | inl err => inl err
      | inr body =>
          match json_Unmarshal_resource body with
          | None => inl "Error unmarshalling response body"
          | Some resource =>
              inr {| ID := ID resource; Name := Name resource;
                     Location := Location resource; Type_ := Type_ resource;
                     Tags := Tags resource; ManagedBy := ManagedBy resource;
                     Subscription := subscriptionID_ |}
          end
      end.
End ManagementAPI.

(** The entries [extractAPIVersions] writes, in the order it writes them:
    one per listed resource type that has at least one API version. *)
Definition listingEntries (r : APIVersionResponse) : list (string * string) :=
  flat_map
    (fun val =>
       flat_map
         (fun t =>
            match APIVersions t with
            | [] => []
            | _ :: _ => [(join2 (Namespace val) (ResourceType t),
                          latestVersionFrom (APIVersions t))]
            end)
         (ResourceTypes val))
    (ProviderValue r).

(** A text of the shape the pattern of [azure.go] matches: [m] or [M],
    [icrosoft.], letters, one slash, letters. *)
Definition resourceTypeText (m : list ascii) : Prop :=
  exists c ns ty,
    m = (c :: bytes "icrosoft." ++ ns ++ "/"%char :: ty)%list /\
    (c = "m"%char \/ c = "M"%char) /\
    ns <> [] /\ ty <> [] /\
    forallb isLetter ns = true /\ forallb isLetter ty = true.

(** [resource] with its subscription field set. *)
Definition withSubscription (resource : AzureResource) (subscriptionID : string)
    : AzureResource :=
  {| ID := ID resource; Name := Name resource; Location := Location resource;
     Type_ := Type_ resource; Tags := Tags resource; ManagedBy := ManagedBy resource;
     Subscription := subscriptionID |}.

(** The aggregations of a data point, each with the suffix it gives to
    the metric name. *)
Definition aggregationsOf (p : dataPoint) : list (string * float) :=
  [("_total", Total p); ("_average", Average p); ("_min", Minimum p);
   ("_max", Maximum p)].

(** [m] is a gauge that carries an aggregation of the last data point of
    the first series of a value entry of [content], under the name of that
    entry. *)
Definition fromLastPoint `{UnicodeLib} `{Helpers} (rm : resourceMeta)
    (content : AzureMetricValueResponse) (m : Metric) : Prop :=
  exists value p suffix v,
    In value (Value content) /\ lastPoint value = Some p /\
    In (suffix, v) (aggregationsOf p) /\
    m = ConstMetric
          {| fqName := (metricNameOf (NameValue value) (Unit value) ++ runes suffix)%list;
             help := (metricNameOf (NameValue value) (Unit value) ++ runes suffix)%list;
             constLabels := CreateResourceLabels (ResourceURL rm) |}
          GaugeValue v.

(** Two payloads whose value entries agree, one by one, on the name, the
    unit and the last data point of the first series: they may differ in
    every earlier data point and in every other series. *)
Definition sameLastPoints (content content' : AzureMetricValueResponse) : Prop :=
  Forall2 (fun v v' => NameValue v = NameValue v' /\ Unit v = Unit v' /\
                       lastPoint v = lastPoint v')
          (Value content) (Value content').


(** A sample as the translator builds them: a constant metric whose name
    matches [^[a-zA-Z0-9_:]+$]. *)
Definition wellNamed (m : Metric) : Prop :=
  match m with
  | ConstMetric desc _ _ => matchesMetricNameRe (fqName desc) = true
  | InvalidMetric _ _ => False
  end.

(** What [Collect] sends for an error: [NewInvalidMetric] on the error
    descriptor. *)
Definition isInvalidMetric (m : Metric) : Prop :=
  exists err, m = InvalidMetric azureErrorDesc err.

(** The state after one more call to the management API. *)
Definition ticked (st : state) : state :=
  {| trace := trace st; clock := S (clock st); client := client st |}.

(** The queries the loop over the targets resolves when its first lookup
    is call number [c]: one per target whose lookup succeeds, in order. *)
Fixpoint targetQueries `{Helpers} (world : World) (apiVersions : APIVersionsT) (c : nat)
    (targets : list Target) : list resourceMeta :=
  match targets with
  | [] => []
  | target :: rest =>
      let metrics := joinMetrics (tg_Metrics target) in
      let aggregations := filterAggregations (tg_Aggregations target) in
      match lookupResourceByID world c
              (getLatestBy apiVersions (targetResourceType_FindString (tg_Resource target)))
              (tg_Resource target) with
      | inl _ => targetQueries world apiVersions (S c) rest
      | inr r =>
          {| ResourceURL := resourceURLFrom (tg_Resource target) metrics aggregations;
             Metrics := metrics; Aggregations := aggregations; Resource := r |}
          :: targetQueries world apiVersions (S c) rest
      end
  end.

(** ** The listing of metric definitions ([main.go], lines 264-278) *)

(** [strings.Split(s, "/")]: the texts between the slashes; [cur] holds,
    reversed, the bytes read since the last slash. *)
Fixpoint splitSlash (cur : list ascii) (s : list ascii) : list string :=
  match s with
  | [] => [of_bytes (rev cur)]
  | c :: r =>
      if Ascii.eqb c "/"%char
      then of_bytes (rev cur) :: splitSlash [] r
      else splitSlash (c :: cur) r
  end.

Definition strings_Split_slash (s : string) : list string := splitSlash [] (bytes s).

(** [strings.Split(k, "/")[6]], the name printed for the resource [k];
    [None] is the panic of an index out of range. *)
Definition listedResourceName (k : string) : option string :=
  strings_Split_slash k !! 6%nat.

(** ** Concrete libraries and inputs for the examples *)

(** A decoder for one body: the empty JSON object. *)
Definition decodeEmptyObject (body : string) : option (gmap string iface) :=
  if String.eqb body "{}" then Some ∅ else None.

(** What [unicode.ToLower] does on the runes below U+0080, and the identity
    on the others: an instance of [UnicodeLib] for the examples, whose
    names and units are ASCII. Beyond ASCII it is not [unicode.ToLower],
    which lowers U+212A to [k] and U+0130 to [i], for instance. *)
Definition asciiToLower (r : rune) : rune :=
  if (65 <=? r) && (r <=? 90) then r + 32 else r.

Program Definition asciiUnicode : UnicodeLib :=
  {| unicode_ToLower := asciiToLower |}.
Next Obligation. reflexivity. Qed.
Next Obligation.
  intros r. unfold asciiToLower.
  destruct (Z.leb_spec 65 r), (Z.leb_spec r 90); simpl;
    rewrite ?andb_true_iff, ?negb_true_iff, ?andb_false_iff, ?Z.leb_gt; lia.
Qed.

(** Helpers for the examples: labels carry the URL only, an aggregation is
    requested when it is listed, and nothing is filtered out. *)
Definition sampleHelpers : Helpers :=
  {| CreateResourceLabels := fun url => {[ "resource_url" := url ]};
     CreateAllResourceLabelsFrom := fun rm => {[ "id" := ID (Resource rm) ]};
     hasAggregation := fun aggregations a => existsb (String.eqb a) aggregations;
     filterAggregations := fun aggregations => aggregations;
     resourceURLFrom := fun resource metricNames _ => resource ++ "?metricnames=" ++ metricNames;
     APIVersionsT := unit;
     getLatestBy := fun _ _ => "2018-01-01";
     targetResourceType_FindString := fun s => s |}.

Definition sampleResource (id name : string) : AzureResource :=
  {| ID := id; Name := name; Location := "westeurope"; Type_ := "Microsoft.Web/sites";
     Tags := ∅; ManagedBy := ""; Subscription := "" |}.

Definition samplePoint (total : float) : dataPoint :=
  {| TimeStamp := ""; Total := total; Average := 0; Minimum := 0; Maximum := 0 |}.

Definition sampleValue (name unit : string) (series : list timeseries) : metricValue :=
  {| Timeseries := series; ValueID := ""; NameLocalizedValue := runes name;
     NameValue := runes name; ValueType_ := ""; Unit := runes unit |}.

Definition sampleContent (values : list metricValue) : AzureMetricValueResponse :=
  {| Value := values; APIError := {| Code := ""; Message := "" |} |}.

Definition sampleQuery (url : string) : resourceMeta :=
  {| ResourceURL := url; Metrics := "Requests"; Aggregations := ["Total"];
     Resource := sampleResource url "r" |}.

(** A client whose token is valid until long after [sampleNow]. *)
Definition sampleClient : AzureClient :=
  {| accessToken := "t"; accessTokenExpiresOn := 2000000000; clientAPIVersions := ∅ |}.

Definition sampleNow : Z := 1700000000 * 10 ^ 9.

Definition sampleConfig : @Config literalRegexp :=
  {| ConfigCredentials := {| SubscriptionID := "sub"; TenantID := ""; ClientID := "";
                             ClientSecret := "" |};
     Targets := []; ResourceGroups := []; ResourceTags := [] |}.

(** A world in which the API-version listing fails and nothing else is
    asked. *)
Definition listingFails : @World sampleHelpers :=
  {| now := sampleNow;
     tokenAnswer := inl "unused";
     populateAPIVersions := inl "Unable to query API with status code: 503";
     lookupResourceByID := fun _ _ _ => inl "unused";
     resourceGroupAnswer := fun _ _ _ => inl "unused";
     tagAnswer := fun _ _ _ => inl "unused";
     batchAnswer := fun _ _ => inl "unused" |}.

(** The patterns [^web] and [-test$] and a resource group using them. *)
Definition webRe : literalRe :=
  {| anchoredStart := true; literal := bytes "web"; anchoredEnd := false |}.

Definition testRe : literalRe :=
  {| anchoredStart := false; literal := bytes "-test"; anchoredEnd := true |}.

Definition webGroup : @ResourceGroup literalRegexp :=
  @Build_ResourceGroup literalRegexp "rg" ["Microsoft.Web/sites"] [webRe] [testRe] [] [].

(** A sub-response whose only series holds the totals 1, 2 and 3. *)
Definition threePoints : AzureMetricValueResponse :=
  sampleContent
    [sampleValue "Requests" "Count"
       [ {| Data := [samplePoint 1; samplePoint 2; samplePoint 3] |} ]].

(** A sub-response that passes the guards and whose second value entry has
    no series. *)
Definition secondEntryEmpty : AzureMetricValueResponse :=
  sampleContent
    [sampleValue "Requests" "Count" [ {| Data := [samplePoint 1] |} ];
     sampleValue "Errors" "Count" []].

(** A sub-response with status 500. *)
Definition failedItem : batchResponse :=
  {| HttpStatusCode := 500; Content := sampleContent [] |}.


(** A sub-response for a metric whose name starts with a digit. *)
Definition digitName : AzureMetricValueResponse :=
  sampleContent [sampleValue "5xx Errors" "Count" [ {| Data := [samplePoint 1] |} ]].

(** A world whose batch endpoint answers every sub-request with status
    200 and that payload, in order. *)
Definition digitNameWorld : @World sampleHelpers :=
  {| now := sampleNow;
     tokenAnswer := inl "unused";
     populateAPIVersions := inr (tt : @APIVersionsT sampleHelpers);
     lookupResourceByID := fun _ _ _ => inl "unused";
     resourceGroupAnswer := fun _ _ _ => inl "unused";
     tagAnswer := fun _ _ _ => inl "unused";
     batchAnswer := fun _ urls =>
       inr {| Responses :=
                map (fun _ => {| HttpStatusCode := 200; Content := digitName |}) urls |} |}.

(** A world whose batch endpoint answers every call with 22
    sub-responses, whatever was asked. *)
Definition overlongWorld : @World sampleHelpers :=
  {| now := sampleNow;
     tokenAnswer := inl "unused";
     populateAPIVersions := inr (tt : @APIVersionsT sampleHelpers);
     lookupResourceByID := fun _ _ _ => inl "unused";
     resourceGroupAnswer := fun _ _ _ => inl "unused";
     tagAnswer := fun _ _ _ => inl "unused";
     batchAnswer := fun _ _ => inr {| Responses := replicate 22 failedItem |} |}.

Definition queries (n : nat) : list resourceMeta := replicate n (sampleQuery "/r").

(** A provider listing with one resource type and two API versions, the
    endpoint answers and the decoders used with it. *)
Definition sampleListing : APIVersionResponse :=
  {| ProviderValue :=
       [ {| ProviderID := ""; Namespace := "Microsoft.Web";
            ResourceTypes := [ {| ResourceType := "sites"; Locations := [];
                                  APIVersions := ["2018-02-01"; "2019-08-01"] |} ];
            RegistrationState := "Registered" |} ] |}.

Definition sampleGet (endpoint : string) : postResult :=
  inr {| StatusCode := 200; Body := inr endpoint |}.

Definition sampleSiteID : string := "/resourceGroups/rg/providers/Microsoft.Web/sites/web-1".

Definition sampleVersionsClient : AzureClient :=
  {| accessToken := "t"; accessTokenExpiresOn := 2000000000;
     clientAPIVersions := extractAPIVersions sampleListing |}.

(** A decoded token response with a numeric-string expiry. *)
Definition sampleTokenData : gmap string iface :=
  <["access_token" := IString "t2"]> (<["expires_on" := IString "2000000000"]> ∅).

Definition sampleTokenAnswer : postResult :=
  inr {| StatusCode := 200; Body := inr "token" |}.


(** A world whose batch endpoint answers every call with a body that holds
    no sub-response. *)
Definition emptyAnswers : @World sampleHelpers :=
  {| now := sampleNow;
     tokenAnswer := inl "unused";
     populateAPIVersions := inr (tt : @APIVersionsT sampleHelpers);
     lookupResourceByID := fun _ _ _ => inl "unused";
     resourceGroupAnswer := fun _ _ _ => inl "unused";
     tagAnswer := fun _ _ _ => inl "unused";
     batchAnswer := fun _ _ => inr {| Responses := [] |} |}.

(** A world in which the token endpoint is down. *)
Definition tokenDown : @World sampleHelpers :=
  {| now := sampleNow;
     tokenAnswer := inl "down";
     populateAPIVersions := inr (tt : @APIVersionsT sampleHelpers);
     lookupResourceByID := fun _ _ _ => inl "unused";
     resourceGroupAnswer := fun _ _ _ => inl "unused";
     tagAnswer := fun _ _ _ => inl "unused";
     batchAnswer := fun _ urls => inr {| Responses := map (fun _ => failedItem) urls |} |}.

(** A world in which every lookup succeeds and every resource-group
    listing fails, and a configuration with one target and one group. *)
Definition groupListingFails : @World sampleHelpers :=
  {| now := sampleNow;
     tokenAnswer := inl "unused";
     populateAPIVersions := inr (tt : @APIVersionsT sampleHelpers);
     lookupResourceByID := fun _ _ id => inr (sampleResource id "r");
     resourceGroupAnswer := fun _ _ _ => inl "Unable to query API with status code: 429";
     tagAnswer := fun _ _ _ => inl "unused";
     batchAnswer := fun _ urls => inr {| Responses := map (fun _ => failedItem) urls |} |}.

Definition targetAndGroup : @Config literalRegexp :=
  {| ConfigCredentials := {| SubscriptionID := "sub"; TenantID := ""; ClientID := "";
                             ClientSecret := "" |};
     Targets := [ {| tg_Resource := sampleSiteID; tg_Metrics := [ {| MetricName := "Requests" |} ];
                     tg_Aggregations := ["Total"] |} ];
     ResourceGroups := [webGroup]; ResourceTags := [] |}.

(** A world whose tag listing holds a site and a database of the sample
    subscription. *)
Definition taggedListing : AzureResourceListResponse :=
  {| ListValue :=
       [ sampleResource "/subscriptions/sub/resourceGroups/rg/providers/Microsoft.Web/sites/a" "a";
         {| ID := "/subscriptions/sub/resourceGroups/rg/providers/Microsoft.Sql/servers/b";
            Name := "b"; Location := "westeurope"; Type_ := "Microsoft.Sql/servers";
            Tags := ∅; ManagedBy := ""; Subscription := "" |} ] |}.


(** The sample configuration with its target only. *)
Definition targetsOnly : @Config literalRegexp :=
  {| ConfigCredentials := ConfigCredentials targetAndGroup;
     Targets := Targets targetAndGroup; ResourceGroups := []; ResourceTags := [] |}.

(** A world in which every lookup succeeds and the batch endpoint answers
    every sub-request with status 200 and the payload of three data
    points. *)
Definition targetWorld : @World sampleHelpers :=
  {| now := sampleNow;
     tokenAnswer := inl "unused";
     populateAPIVersions := inr (tt : @APIVersionsT sampleHelpers);
     lookupResourceByID := fun _ _ id => inr (sampleResource id "r");
     resourceGroupAnswer := fun _ _ _ => inl "unused";
     tagAnswer := fun _ _ _ => inl "unused";
     batchAnswer := fun _ urls =>
       inr {| Responses :=
                map (fun _ => {| HttpStatusCode := 200; Content := threePoints |}) urls |} |}.

(** A world whose group listing succeeds. *)
Definition groupWorld : @World sampleHelpers :=
  {| now := sampleNow;
     tokenAnswer := inl "unused";
     populateAPIVersions := inr (tt : @APIVersionsT sampleHelpers);
     lookupResourceByID := fun _ _ id => inr (sampleResource id "r");
     resourceGroupAnswer := fun _ _ _ => inr taggedListing;
     tagAnswer := fun _ _ _ => inl "unused";
     batchAnswer := fun _ urls => inr {| Responses := map (fun _ => failedItem) urls |} |}.

(** * Properties *)

Example latestVersionFrom_ex1 :
  latestVersionFrom ["2018-02-01"; "2019-05-10-preview"; "beta"; "2017-13-01"] = "2019-05-10-preview".
Proof. reflexivity. Qed.

Example latestVersionFrom_ex2 :
  latestVersionFrom ["2019-01-01"; "2019-01-01-preview"] = "2019-01-01".
Proof. reflexivity. Qed.

Example latestVersionFrom_ex3 : latestVersionFrom ["0001-01-01"] = "".
Proof. reflexivity. Qed.

(** ** API-version selection *)

Lemma unparsable_snoc l api :
  unparsable (l ++ [api]) =
  (unparsable l ++ match parsedDate api with None => [FindString api] | Some _ => [] end)%list.
Proof.
  unfold unparsable. rewrite filter_app, map_app. f_equal.
  rewrite filter_cons, filter_nil.
  destruct (parsedDate api) eqn:E; case_decide; simpl; congruence.
Qed.

Lemma latestInv_step l st api :
  latestInv l st -> latestInv (l ++ [api]) (latestVersionFrom_step st api).
Proof.
  intros [Hlog Hcase]. unfold latestVersionFrom_step.
  fold (parsedDate api). split.
  - rewrite unparsable_snoc.
    destruct (parsedDate api) as [date|] eqn:E; simpl.
    + rewrite app_nil_r. destruct (Before _ _); simpl; assumption.
    + congruence.
  - destruct (parsedDate api) as [date|] eqn:E; simpl.
    + unfold Before. destruct (Z.ltb_spec (Date (latest st)) date) as [Hlt|Hge]; simpl.
      * right. split.
        { destruct Hcase as [(_ & Hz & _)|[Hpos _]]; lia. }
        exists (length l). repeat split.
        -- rewrite lookup_app_r by lia. by rewrite Nat.sub_diag.
        -- assumption.
        -- destruct (decide (j < length l)%nat) as [Hj|Hj].
           ++ rewrite lookup_app_l in H by assumption.
              destruct Hcase as [(_ & Hz & Hall)|[_ [i (_ & _ & Hmax)]]].
              ** assert (d' <= zeroTime) by (eapply Hall; eauto using list_elem_of_lookup_2). lia.
              ** destruct (Hmax j api' d' H H0). lia.
           ++ rewrite lookup_app_r in H by lia.
              destruct (j - length l)%nat eqn:Ej; simpl in H; [|by destruct n].
              inversion H; subst. rewrite E in H0. inversion H0. lia.
        -- intros Hj. rewrite lookup_app_l in H by assumption.
           destruct Hcase as [(_ & Hz & Hall)|[_ [i (_ & _ & Hmax)]]].
           ++ assert (d' <= zeroTime) by (eapply Hall; eauto using list_elem_of_lookup_2). lia.
           ++ destruct (Hmax j api' d' H H0). lia.
      * destruct Hcase as [(He & Hz & Hall)|[Hpos [i (Hi & Hd & Hmax)]]].
        -- left. repeat split; try assumption.
           intros api0 d Hin Hp. apply elem_of_app in Hin as [Hin|Hin].
           ++ eauto.
           ++ apply list_elem_of_singleton in Hin. subst. rewrite E in Hp.
              inversion Hp; subst. lia.
        -- right. split; [assumption|]. exists i.
           assert (Hlen : (i < length l)%nat) by (eapply lookup_lt_Some; eauto).
           repeat split; try assumption.
           ++ by rewrite lookup_app_l.
           ++ destruct (decide (j < length l)%nat) as [Hj|Hj].
              ** rewrite lookup_app_l in H by assumption.
                 destruct (Hmax j api' d' H H0). lia.
              ** rewrite lookup_app_r in H by lia.
                 destruct (j - length l)%nat eqn:Ej; simpl in H; [|by destruct n].
                 inversion H; subst. rewrite E in H0. inversion H0. lia.
           ++ intros Hj. rewrite lookup_app_l in H by lia.
              destruct (Hmax j api' d' H H0). auto.
    + destruct Hcase as [(He & Hz & Hall)|[Hpos [i (Hi & Hd & Hmax)]]].
      * left. repeat split; try assumption.
        intros api0 d Hin Hp. apply elem_of_app in Hin as [Hin|Hin].
        -- eauto.
        -- apply list_elem_of_singleton in Hin. subst. congruence.
      * right. split; [assumption|]. exists i.
        assert (Hlen : (i < length l)%nat) by (eapply lookup_lt_Some; eauto).
        repeat split; try assumption.
        -- by rewrite lookup_app_l.
        -- destruct (decide (j < length l)%nat) as [Hj|Hj].
           ++ rewrite lookup_app_l in H by assumption.
              destruct (Hmax j api' d' H H0). lia.
           ++ rewrite lookup_app_r in H by lia.
              destruct (j - length l)%nat eqn:Ej; simpl in H; [|by destruct n].
              inversion H; subst. congruence.
        -- intros Hj. rewrite lookup_app_l in H by lia.
           destruct (Hmax j api' d' H H0). auto.
Qed.

Lemma latestInv_run l : latestInv l (latestVersionFrom_run l).
Proof.
  unfold latestVersionFrom_run. induction l as [|api l IH] using rev_ind.
  - split; [reflexivity|]. left. repeat split.
    intros api d Hin. by apply elem_of_nil in Hin.
  - rewrite fold_left_app. simpl. by apply latestInv_step.
Qed.

(** C3 (as amended). Version selection never aborts: every candidate whose
    leading date token fails to parse is skipped and logged, and the result
    is the candidate with the maximum parsed date among the candidates
    dated after 0001-01-01. When several candidates carry that maximal date
    the first one in list order wins. When no candidate is dated after
    0001-01-01 the result is the empty string. *)
Theorem latestVersionFrom_first_max (apiList : list string) :
  logged (latestVersionFrom_run apiList) = unparsable apiList /\
  ((exists i d, zeroTime < d /\ firstMaxAt apiList i (latestVersionFrom apiList) d)
   \/ (latestVersionFrom apiList = "" /\
       forall api d, api ∈ apiList -> parsedDate api = Some d -> d <= zeroTime)).
Proof.
  destruct (latestInv_run apiList) as [Hlog Hcase]. split; [assumption|].
  unfold latestVersionFrom.
  destruct Hcase as [(He & _ & Hall)|[Hpos [i Hmax]]].
  - right. split; assumption.
  - left. exists i, (Date (latest (latestVersionFrom_run apiList))). split; assumption.
Qed.

(** C3 (as stated) fails: of two candidates carrying the same date the
    first is returned, so the result is at no position where every later
    candidate carries an earlier date. *)
Lemma latestVersionFrom_tie_not_last :
  let apiList := ["2019-01-01"; "2019-01-01-preview"] in
  (exists api d, api ∈ apiList /\ parsedDate api = Some d /\ zeroTime < d) /\
  ~ exists i d, lastMaxAt apiList i (latestVersionFrom apiList) d.
Proof.
  simpl. split.
  - exists "2019-01-01", 737059. split; [apply list_elem_of_here|]. split; reflexivity.
  - intros (i & d & Hi & Hd & Hmax).
    change (latestVersionFrom ["2019-01-01"; "2019-01-01-preview"]) with "2019-01-01" in *.
    assert (i = 0%nat) as ->.
    { destruct i as [|[|i]]; simpl in Hi; [reflexivity|discriminate|discriminate]. }
    assert (d = 737059) as -> by (vm_compute in Hd; congruence).
    destruct (Hmax 1%nat "2019-01-01-preview" 737059) as [_ Hlt];
      [reflexivity|reflexivity|]. specialize (Hlt ltac:(lia)). lia.
Qed.

(** Every entry of the map built by [extractAPIVersions] is the version
    selected by [latestVersionFrom] for a listed resource type; types
    without versions leave no entry of their own. *)
Lemma extractAPIVersions_entries (r : APIVersionResponse) (key v : string) :
  extractAPIVersions r !! key = Some v -> fromListing r key v.
Proof.
  unfold extractAPIVersions.
  assert (Hinner : forall val, In val (ProviderValue r) ->
            forall ts (m : APIVersionMap),
              (forall t, In t ts -> In t (ResourceTypes val)) ->
              (forall k x, m !! k = Some x -> fromListing r k x) ->
              forall k x, extractAPIVersions_types (Namespace val) m ts !! k = Some x ->
                          fromListing r k x).
  { intros val Hval. induction ts as [|t ts IH]; intros m Hts Hm k x; simpl.
    - apply Hm.
    - apply IH; [intros t' Ht'; apply Hts; by right|].
      destruct (APIVersions t) as [|a l] eqn:Ea; [exact Hm|].
      intros k' x' Hk'. apply lookup_insert_Some in Hk' as [[<- <-]|[_ Hk']].
      + exists val, t. rewrite Ea. repeat split; [assumption|apply Hts; by left|discriminate].
      + by apply Hm. }
  assert (Houter : forall vals (m : APIVersionMap),
            (forall val, In val vals -> In val (ProviderValue r)) ->
            (forall k x, m !! k = Some x -> fromListing r k x) ->
            forall k x,
              fold_left (fun (m : APIVersionMap) val =>
                           extractAPIVersions_types (Namespace val) m (ResourceTypes val))
                        vals m !! k = Some x ->
              fromListing r k x).
  { induction vals as [|val vals IH]; intros m Hvals Hm k x; simpl.
    - apply Hm.
    - apply IH; [intros val' Hval'; apply Hvals; by right|].
      apply Hinner; [apply Hvals; by left|auto|exact Hm]. }
  apply Houter; [auto|]. intros k x Hk. by rewrite lookup_empty in Hk.
Qed.

(** ** Token provider *)

(** The cases in which [getAccessToken] does return an error: a transport
    failure, a status other than 200, a body that cannot be read or
    decoded, an expiry that is not a decimal [int64]. *)
Lemma getAccessToken_error_cases json_Unmarshal (ac : AzureClient) :
  (forall err, exists e, getAccessToken json_Unmarshal (inl err) ac = (ac, Return (Some e))) /\
  (forall resp, StatusCode resp <> 200 ->
     exists e, getAccessToken json_Unmarshal (inr resp) ac = (ac, Return (Some e))) /\
  (forall resp body, StatusCode resp = 200 -> Body resp = inr body ->
     json_Unmarshal body = None ->
     exists e, getAccessToken json_Unmarshal (inr resp) ac = (ac, Return (Some e))) /\
  (forall resp body data tok exp, StatusCode resp = 200 -> Body resp = inr body ->
     json_Unmarshal body = Some data ->
     data !! "access_token" = Some (IString tok) ->
     data !! "expires_on" = Some (IString exp) ->
     ParseInt exp = None ->
     exists e ac', getAccessToken json_Unmarshal (inr resp) ac = (ac', Return (Some e))).
Proof.
  repeat split.
  - intros err. eexists. reflexivity.
  - intros resp Hs. unfold getAccessToken.
    destruct (Z.eqb_spec (StatusCode resp) 200); [contradiction|]. eexists. reflexivity.
  - intros resp body Hs Hb Hj. unfold getAccessToken.
    rewrite Hs, Hb, Hj. eexists. reflexivity.
  - intros resp body data tok exp Hs Hb Hj Ht He Hp. unfold getAccessToken.
    rewrite Hs, Hb, Hj, Ht, He. simpl. rewrite Hp. eexists _, _. reflexivity.
Qed.

(** C2 (the code departs from it). A token response with status 200 whose
    decoded body lacks [access_token] or [expires_on], or carries one of
    them with a type other than string, does not make [getAccessToken]
    return an error: the unchecked type assertion panics. *)
Theorem getAccessToken_panics_on_bad_field json_Unmarshal
    (resp : httpResponse) (body : string) (data : gmap string iface) (ac : AzureClient) :
  StatusCode resp = 200 ->
  Body resp = inr body ->
  json_Unmarshal body = Some data ->
  assert_string (data !! "access_token") = None \/
  assert_string (data !! "expires_on") = None ->
  snd (getAccessToken json_Unmarshal (inr resp) ac) = Panicked.
Proof.
  intros Hs Hb Hj Hbad. unfold getAccessToken. rewrite Hs, Hb, Hj. simpl.
  destruct (assert_string (data !! "access_token")) as [tok|]; [|reflexivity].
  destruct Hbad as [Hbad|Hbad]; [discriminate|]. rewrite Hbad. reflexivity.
Qed.

Lemma getAccessToken_panics_on_bad_field_witness :
  snd (getAccessToken decodeEmptyObject
         (inr {| StatusCode := 200; Body := inr "{}" |}) NewAzureClient) = Panicked.
Proof.
  apply (getAccessToken_panics_on_bad_field decodeEmptyObject
           {| StatusCode := 200; Body := inr "{}" |} "{}" ∅ NewAzureClient).
  - reflexivity.
  - reflexivity.
  - reflexivity.
  - left. reflexivity.
Defined.

(** An expiry sent as a JSON number instead of a numeric string. *)
Example getAccessToken_numeric_expiry :
  let data : gmap string iface :=
    <["access_token" := IString "t"]> (<["expires_on" := INumber 1700000000]> ∅) in
  getAccessToken (fun _ => Some data) (inr {| StatusCode := 200; Body := inr "" |})
    NewAzureClient
  = ({| accessToken := "t"; accessTokenExpiresOn := zeroTimeUnix; clientAPIVersions := ∅ |},
     Panicked).
Proof. reflexivity. Qed.

Example getAccessToken_ok :
  let data : gmap string iface :=
    <["access_token" := IString "t"]> (<["expires_on" := IString "1700000000"]> ∅) in
  getAccessToken (fun _ => Some data) (inr {| StatusCode := 200; Body := inr "" |})
    NewAzureClient
  = ({| accessToken := "t"; accessTokenExpiresOn := 1700000000; clientAPIVersions := ∅ |},
     Return None).
Proof. reflexivity. Qed.

(** ** Traces *)

Lemma sent_app tr1 tr2 : sent (tr1 ++ tr2) = (sent tr1 ++ sent tr2)%list.
Proof. apply omap_app. Qed.

Lemma batchCalls_app tr1 tr2 :
  batchCalls (tr1 ++ tr2) = (batchCalls tr1 ++ batchCalls tr2)%list.
Proof. apply omap_app. Qed.

Lemma translated_app tr1 tr2 :
  translated (tr1 ++ tr2) = (translated tr1 ++ translated tr2)%list.
Proof. apply omap_app. Qed.

(** ** The effect monad *)

Lemma bind_unfold {A B} (m : M A) (f : A -> M B) (st : state) :
  (m ≫= f) st =
  match m st with
  | (st', Return a) => f a st'
  | (st', Panicked) => (st', Panicked)
  | (st', Exited) => (st', Exited)
  | (st', OutOfFuel) => (st', OutOfFuel)
  end.
Proof. reflexivity. Qed.

Lemma bind_Return {A B} (m : M A) (f : A -> M B) (st st' : state) (a : A) :
  m st = (st', Return a) -> (m ≫= f) st = f a st'.
Proof. intros E. rewrite bind_unfold, E. reflexivity. Qed.

Lemma bind_Panicked {A B} (m : M A) (f : A -> M B) (st st' : state) :
  m st = (st', Panicked) -> (m ≫= f) st = (st', Panicked).
Proof. intros E. rewrite bind_unfold, E. reflexivity. Qed.

Lemma emit_run (e : event) (st : state) : emit e st = (addTrace st [e], Return tt).
Proof. reflexivity. Qed.

Lemma tick_run (st : state) :
  tick st = ({| trace := trace st; clock := S (clock st); client := client st |},
             Return (clock st)).
Proof. reflexivity. Qed.

(** ** The collection cycle *)

Section CycleFacts.
Context `{RegexpLib} `{UnicodeLib} `{Helpers}.
Variable json_Unmarshal : string -> option (gmap string iface).
Variable world : World.
Variable sc : Config.

Lemma refresh_trace st :
  trace (fst (refresh json_Unmarshal world st)) = trace st.
Proof.
  unfold refresh.
  destruct (refreshAccessToken _ _ _ _) as [ac' r]. reflexivity.
Qed.

(** A failure of the token refresh is reported as one invalid metric and
    the cycle returns. *)
Lemma Collect_refresh_failure st err :
  snd (refresh json_Unmarshal world st) = Return (Some err) ->
  snd (Collect json_Unmarshal world sc st) = Return tt /\
  sent (trace (fst (Collect json_Unmarshal world sc st)))
  = (sent (trace st) ++ [InvalidMetric azureErrorDesc err])%list.
Proof.
  intros Hr. pose proof (refresh_trace st) as Ht.
  destruct (refresh json_Unmarshal world st) as [st' r] eqn:E. simpl in Hr, Ht. subst r.
  unfold Collect. rewrite (bind_Return _ _ _ _ _ E).
  unfold log_, send. rewrite (bind_Return _ _ _ _ _ (emit_run _ _)), emit_run.
  cbn [trace fst snd addTrace]. split; [reflexivity|].
  rewrite !sent_app, Ht. cbn. by rewrite app_nil_r.
Qed.
End CycleFacts.

(** C1 (the code departs from it). When the token is fresh and the
    API-version listing fails, [Collect] logs the error and exits the
    process: the cycle does not return and no invalid metric is sent. *)
Theorem Collect_exits_when_listing_fails `{RegexpLib} `{UnicodeLib} `{Helpers}
    json_Unmarshal (world : World) (sc : Config) (st : state) (err : string) :
  snd (refresh json_Unmarshal world st) = Return None ->
  populateAPIVersions world = inl err ->
  snd (Collect json_Unmarshal world sc st) = Exited /\
  trace (fst (Collect json_Unmarshal world sc st)) = (trace st ++ [Logged err])%list /\
  sent (trace (fst (Collect json_Unmarshal world sc st))) = sent (trace st).
Proof.
  intros Hr Hp. pose proof (refresh_trace json_Unmarshal world st) as Ht.
  destruct (refresh json_Unmarshal world st) as [st' r] eqn:E. simpl in Hr, Ht. subst r.
  unfold Collect. rewrite (bind_Return _ _ _ _ _ E).
  rewrite (bind_Return _ _ _ _ _ (tick_run _)), Hp.
  unfold log_Fatal, log_. rewrite (bind_Return _ _ _ _ _ (emit_run _ _)).
  unfold exit. cbn [trace fst snd addTrace]. rewrite Ht. repeat split.
  rewrite sent_app. cbn. apply app_nil_r.
Qed.

Lemma Collect_exits_when_listing_fails_witness :
  let run := @Collect literalRegexp asciiUnicode sampleHelpers decodeEmptyObject
               listingFails sampleConfig (initial sampleClient) in
  snd run = Exited /\
  trace (fst run) = [Logged "Unable to query API with status code: 503"] /\
  sent (trace (fst run)) = [].
Proof.
  apply (@Collect_exits_when_listing_fails literalRegexp asciiUnicode sampleHelpers
           decodeEmptyObject listingFails sampleConfig (initial sampleClient)
           "Unable to query API with status code: 503").
  - reflexivity.
  - reflexivity.
Defined.

(** ** Name filtering *)

Section FilterFacts.
Context `{RegexpLib}.

Lemma anyMatch_existsb (res : list Regexp) (name : string) :
  anyMatch res name = existsb (fun rx => MatchString rx name) res.
Proof.
  induction res as [|rx res IH]; simpl; [reflexivity|].
  rewrite IH. by destruct (MatchString rx name).
Qed.

Lemma keepResource_specKeeps (rg : ResourceGroup) (r : AzureResource) :
  keepResource rg r
  = specKeeps (ResourceNameIncludeRe rg) (ResourceNameExcludeRe rg) (Name r).
Proof.
  unfold keepResource, specKeeps. rewrite !anyMatch_existsb.
  assert (Hex : forall l : list Regexp,
             forallb (fun rx => negb (MatchString rx (Name r))) l
             = negb (existsb (fun rx => MatchString rx (Name r)) l)).
  { induction l as [|rx l IH]; simpl; [reflexivity|].
    rewrite IH. by destruct (MatchString rx (Name r)). }
  rewrite Hex.
  destruct (ResourceNameIncludeRe rg) as [|rx inc]; simpl.
  - by destruct (existsb _ (ResourceNameExcludeRe rg)).
  - destruct (MatchString rx (Name r) || existsb _ inc); simpl; [|reflexivity].
    by destruct (existsb _ (ResourceNameExcludeRe rg)).
Qed.

Lemma filterResources_loop_filter (rg : ResourceGroup) (resources acc : list AzureResource) :
  filterResources_loop rg resources acc
  = (acc ++ List.filter (keepResource rg) resources)%list.
Proof.
  revert acc. induction resources as [|r rest IH]; intros acc; simpl.
  - by rewrite app_nil_r.
  - destruct (keepResource rg r); rewrite IH; [|reflexivity].
    by rewrite <- app_assoc.
Qed.

Lemma specKeeps_true (include exclude : list Regexp) (name : string) :
  specKeeps include exclude name = true <->
  (include = [] \/ exists rx, rx ∈ include /\ MatchString rx name = true) /\
  (forall rx, rx ∈ exclude -> MatchString rx name = false).
Proof.
  unfold specKeeps. rewrite andb_true_iff, forallb_forall. split.
  - intros [Hinc Hexc]. split.
    + destruct include as [|rx inc]; [by left|right].
      apply existsb_exists in Hinc as (rx' & Hin & Hm).
      exists rx'. split; [by apply list_elem_of_In|assumption].
    + intros rx Hin. apply list_elem_of_In in Hin. apply Hexc in Hin.
      by apply negb_true_iff.
  - intros [Hinc Hexc]. split.
    + destruct include as [|rx inc]; [reflexivity|].
      destruct Hinc as [Hnil|(rx' & Hin & Hm)]; [discriminate|].
      apply existsb_exists. exists rx'. split; [by apply list_elem_of_In|assumption].
    + intros rx Hin. apply negb_true_iff, Hexc. by apply list_elem_of_In.
Qed.
End FilterFacts.

(** C5. [filterResources] keeps, in order, exactly the resources whose
    name matches at least one include pattern (every name when there is no
    include pattern) and matches none of the exclude patterns; with the
    include pattern [^web] and the exclude pattern [-test$], of the names
    web-1, web-test and db-1 exactly web-1 is kept. *)
Theorem filterResources_include_exclude :
  (forall (R : RegexpLib) (resources : list AzureResource) (rg : ResourceGroup),
     filterResources resources rg
     = List.filter (fun r => specKeeps (ResourceNameIncludeRe rg)
                               (ResourceNameExcludeRe rg) (Name r)) resources) /\
  (forall (R : RegexpLib) (resources : list AzureResource) (rg : ResourceGroup)
          (r : AzureResource),
     r ∈ filterResources resources rg <->
     r ∈ resources /\
     (ResourceNameIncludeRe rg = [] \/
      exists rx, rx ∈ ResourceNameIncludeRe rg /\ MatchString rx (Name r) = true) /\
     (forall rx, rx ∈ ResourceNameExcludeRe rg -> MatchString rx (Name r) = false)) /\
  (compileLiteral "^web" = Some webRe /\ compileLiteral "-test$" = Some testRe /\
   map Name (@filterResources literalRegexp
               [sampleResource "/a" "web-1"; sampleResource "/b" "web-test";
                sampleResource "/c" "db-1"] webGroup)
   = ["web-1"]).
Proof.
  assert (Heq : forall (R : RegexpLib) resources rg,
            filterResources resources rg
            = List.filter (fun r => specKeeps (ResourceNameIncludeRe rg)
                                      (ResourceNameExcludeRe rg) (Name r)) resources).
  { intros R resources rg. unfold filterResources.
    rewrite filterResources_loop_filter. simpl.
    apply List.filter_ext. intros r. apply keepResource_specKeeps. }
  split; [exact Heq|]. split.
  - intros R resources rg r. rewrite Heq, list_elem_of_In, List.filter_In.
    rewrite <- list_elem_of_In, specKeeps_true. tauto.
  - repeat split; reflexivity.
Qed.

(** ** Metric names *)

Section NameFacts.
Context `{UnicodeLib}.

Lemma ToLower_no_upper (s : text) :
  forall r, In r (strings_ToLower s) -> isUpperASCII r = false.
Proof.
  intros r Hin. apply in_map_iff in Hin as (r0 & <- & _).
  apply negb_true_iff, unicode_ToLower_not_upper.
Qed.

Lemma Replace_slash_no_upper (s : text) :
  (forall r, In r s -> isUpperASCII r = false) ->
  forall r, In r (strings_Replace s 47 (runes "_per_")) -> isUpperASCII r = false.
Proof.
  intros Hs r Hin. apply in_flat_map in Hin as (r0 & Hin0 & Hr).
  destruct (r0 =? 47).
  - cbn in Hr. intuition (subst; reflexivity).
  - destruct Hr as [<-|[]]. by apply Hs.
Qed.

Lemma strings_Replace_nonempty (s : text) (old : rune) (new : text) :
  s <> [] -> new <> [] -> strings_Replace s old new <> [].
Proof.
  intros Hs Hn. destruct s as [|r s]; [contradiction|].
  unfold strings_Replace. simpl. destruct (r =? old).
  - destruct new; [contradiction|discriminate].
  - discriminate.
Qed.

Lemma ReplaceAllString_valid (s : text) :
  forall r, In r (invalidMetricChars_ReplaceAllString s) -> validMetricChar r = true.
Proof.
  intros r Hin. apply in_map_iff in Hin as (r0 & <- & _).
  by destruct (validMetricChar r0) eqn:E.
Qed.

Lemma ReplaceAllString_no_upper (s : text) :
  (forall r, In r s -> isUpperASCII r = false) ->
  forall r, In r (invalidMetricChars_ReplaceAllString s) -> isUpperASCII r = false.
Proof.
  intros Hs r Hin. apply in_map_iff in Hin as (r0 & <- & Hin0).
  destruct (validMetricChar r0); [by apply Hs|reflexivity].
Qed.

Lemma valid_lower_fixed (r : rune) :
  validMetricChar r = true -> isUpperASCII r = false -> unicode_ToLower r = r.
Proof.
  intros Hv Hu. rewrite unicode_ToLower_ascii.
  - unfold isUpperASCII in Hu. by rewrite Hu.
  - unfold validMetricChar in Hv.
    rewrite !orb_true_iff, !andb_true_iff, !Z.leb_le, !Z.eqb_eq in Hv. lia.
Qed.
End NameFacts.

Section NameClaims.
Context `{UnicodeLib}.

Lemma ToLower_underscore : unicode_ToLower 95 = 95.
Proof. by rewrite unicode_ToLower_ascii. Qed.

Lemma ToLower_space : unicode_ToLower 32 = 32.
Proof. by rewrite unicode_ToLower_ascii. Qed.

(** The steps of the code, rune by rune. *)
Lemma sanitize_lowered (s : text) :
  invalidMetricChars_ReplaceAllString (strings_Replace (strings_ToLower s) 47 (runes "_per_"))
  = flat_map sanitizedRune s.
Proof.
  unfold invalidMetricChars_ReplaceAllString, strings_Replace, strings_ToLower.
  induction s as [|r s IH]; [reflexivity|].
  cbn [map flat_map]. rewrite map_app, IH. f_equal.
  unfold sanitizedRune. cbv zeta.
  pose proof (unicode_ToLower_not_upper r) as Hup.
  destruct (unicode_ToLower r =? 47); [reflexivity|].
  cbn [map]. unfold validMetricChar.
  apply negb_true_iff in Hup. rewrite Hup, orb_false_r.
  by destruct (_ || _ || _ || _).
Qed.

Lemma sanitizedRune_space_underscore (s : text) :
  flat_map sanitizedRune (strings_Replace s 32 (runes "_")) = flat_map sanitizedRune s.
Proof.
  unfold strings_Replace. induction s as [|r s IH]; [reflexivity|].
  cbn [flat_map]. rewrite flat_map_app, IH. f_equal.
  destruct (Z.eqb_spec r 32) as [->|_].
  - change (runes "_") with [95]. cbn [flat_map]. rewrite app_nil_r.
    unfold sanitizedRune. by rewrite ToLower_underscore, ToLower_space.
  - cbn [flat_map]. by rewrite app_nil_r.
Qed.

Lemma metricNameOf_runes (nameValue unit : text) :
  metricNameOf nameValue unit = flat_map sanitizedRune (nameValue ++ 95 :: unit).
Proof.
  unfold metricNameOf. cbv zeta. rewrite sanitize_lowered.
  rewrite !flat_map_app, sanitizedRune_space_underscore.
  change (runes "_") with [95]. cbn [flat_map]. by rewrite app_nil_r.
Qed.

(** The steps of the specification, rune by rune. *)
Lemma claimedMetricName_runes (nameValue unit : text) :
  claimedMetricName nameValue unit = flat_map sanitizedRune (nameValue ++ unit).
Proof.
  unfold claimedMetricName. cbv zeta. rewrite map_app, flat_map_app.
  rewrite map_map, !map_app, concat_app, map_app. f_equal.
  - induction nameValue as [|r s IH]; [reflexivity|].
    cbn [map concat flat_map]. rewrite map_app, IH. f_equal.
    unfold sanitizedRune.
    destruct (Z.eqb_spec r 32) as [->|_].
    + rewrite ToLower_underscore, ToLower_space. reflexivity.
    + pose proof (unicode_ToLower_not_upper r) as Hup. apply negb_true_iff in Hup.
      destruct (unicode_ToLower r =? 47); [reflexivity|].
      cbn [map]. rewrite Hup, orb_false_r. by destruct (_ || _ || _ || _).
  - induction unit as [|r s IH]; [reflexivity|].
    cbn [map concat flat_map]. rewrite map_app, IH. f_equal.
    unfold sanitizedRune.
    pose proof (unicode_ToLower_not_upper r) as Hup. apply negb_true_iff in Hup.
    destruct (unicode_ToLower r =? 47); [reflexivity|].
    cbn [map]. rewrite Hup, orb_false_r. by destruct (_ || _ || _ || _).
Qed.
End NameClaims.

(** C6 (as amended). The exposition name is produced by the steps the
    specification lists, with an underscore put before the unit: spaces of
    the metric name replaced with underscores, an underscore and the unit
    appended, everything lowercased, every slash replaced with [_per_] and
    every rune outside [a-zA-Z0-9_:] with an underscore. Rune by rune: an
    ASCII capital gives its small letter, a small letter, a digit, an
    underscore or a colon gives itself, a slash gives [_per_], and every
    other ASCII rune, the space among them, gives an underscore. Whatever
    the name and the unit, the result matches [^[a-zA-Z0-9_:]+$], contains
    no ASCII capital, is a fixed point of lowercasing and contains no
    slash. *)
Theorem metricNameOf_sanitized `{UnicodeLib} (nameValue unit : text) :
  metricNameOf nameValue unit = claimedMetricName nameValue (95 :: unit) /\
  metricNameOf nameValue unit = flat_map sanitizedRune (nameValue ++ 95 :: unit) /\
  (forall r, 0 <= r < 128 ->
     sanitizedRune r
     = if r =? 47 then runes "_per_"
       else if (65 <=? r) && (r <=? 90) then [r + 32]
       else if ((97 <=? r) && (r <=? 122)) || ((48 <=? r) && (r <=? 57))
               || (r =? 95) || (r =? 58) then [r]
       else [95]) /\
  matchesMetricNameRe (metricNameOf nameValue unit) = true /\
  forallb (fun r => negb (isUpperASCII r)) (metricNameOf nameValue unit) = true /\
  strings_ToLower (metricNameOf nameValue unit) = metricNameOf nameValue unit /\
  ~ In 47 (metricNameOf nameValue unit).
Proof.
  split; [by rewrite metricNameOf_runes, claimedMetricName_runes|].
  split; [apply metricNameOf_runes|].
  split.
  { intros r Hr. unfold sanitizedRune. rewrite (unicode_ToLower_ascii r Hr).
    destruct (Z.leb_spec 65 r), (Z.leb_spec r 90); cbn [andb];
      repeat match goal with
             | |- context [Z.eqb ?a ?b] => destruct (Z.eqb_spec a b); try lia
             | |- context [Z.leb ?a ?b] => destruct (Z.leb_spec a b); try lia
             end; cbn; try reflexivity; try lia. }
  set (s := metricNameOf nameValue unit).
  assert (Hvalid : forall r, In r s -> validMetricChar r = true)
    by apply ReplaceAllString_valid.
  assert (Hlow : forall r, In r s -> isUpperASCII r = false).
  { apply ReplaceAllString_no_upper, Replace_slash_no_upper, ToLower_no_upper. }
  assert (Hne : s <> []).
  { unfold s, metricNameOf, invalidMetricChars_ReplaceAllString.
    intros Hnil. apply map_eq_nil in Hnil. revert Hnil.
    apply strings_Replace_nonempty; [|discriminate].
    unfold strings_ToLower. intros Hnil. apply map_eq_nil in Hnil.
    apply app_eq_nil in Hnil as [_ Hnil]. discriminate. }
  repeat split.
  - unfold matchesMetricNameRe. destruct s as [|r s'] eqn:Es; [contradiction|].
    apply forallb_forall. exact Hvalid.
  - apply forallb_forall. intros r Hin. apply negb_true_iff. by apply Hlow.
  - unfold strings_ToLower. rewrite <- (map_id s) at 2.
    apply map_ext_in. intros r Hin. apply valid_lower_fixed; auto.
  - intros Hin. apply Hvalid in Hin. discriminate.
Qed.

(** C6 (as stated) fails: the code puts an underscore between the name and
    the unit, which the steps of the specification do not. *)
Lemma metricNameOf_separates_unit :
  @metricNameOf asciiUnicode (runes "CPU") (runes "Percent")
  <> @claimedMetricName asciiUnicode (runes "CPU") (runes "Percent").
Proof. vm_compute. discriminate. Qed.

Example claimedMetricName_ex :
  @claimedMetricName asciiUnicode (runes "CPU") (runes "Percent") = runes "cpupercent".
Proof. reflexivity. Qed.

Example metricNameOf_ex3 :
  @metricNameOf asciiUnicode (runes "a/b c") (runes "x/y") = runes "a_per_b_c_x_per_y".
Proof. reflexivity. Qed.

Example metricNameOf_ex1 :
  @metricNameOf asciiUnicode (runes "Http 5xx/Requests (avg)") (runes "Count/Second")
  = runes "http_5xx_per_requests__avg__count_per_second".
Proof. reflexivity. Qed.

Example metricNameOf_ex2 :
  @metricNameOf asciiUnicode (runes "CPU") (runes "Percent") = runes "cpu_percent".
Proof. reflexivity. Qed.

(** ** Subscription prefix stripping *)

Lemma len_append (p s : string) : len (p ++ s) = (len p + len s)%nat.
Proof. unfold len. induction p as [|c p IH]; simpl; [reflexivity|]. by rewrite IH. Qed.

Lemma substring_all (s : string) : substring 0 (String.length s) s = s.
Proof. induction s as [|c s IH]; simpl; [reflexivity|]. by rewrite IH. Qed.

Lemma substring_after (p s : string) :
  substring (String.length p) (String.length s) (p ++ s) = s.
Proof. induction p as [|c p IH]; simpl; [apply substring_all|exact IH]. Qed.

(** Slicing off a prefix leaves the rest. *)
Lemma slice_from_append (p s : string) : slice_from (p ++ s) (len p) = Some s.
Proof.
  unfold slice_from. rewrite len_append.
  destruct (Nat.leb_spec (len p) (len p + len s)) as [_|Hlt]; [|lia].
  replace (len p + len s - len p)%nat with (len s) by lia.
  unfold len. by rewrite substring_after.
Qed.

Lemma slice_from_None (s : string) (n : nat) :
  slice_from s n = None <-> (len s < n)%nat.
Proof.
  unfold slice_from. destruct (Nat.leb_spec n (len s)); split; intros;
    first [lia | discriminate | reflexivity].
Qed.

Lemma subscriptionPath_len (subscriptionID : string) :
  len ("/" ++ subscriptionOf subscriptionID) = subscriptionPrefixLen subscriptionID.
Proof. unfold subscriptionPrefixLen. rewrite len_append. simpl. lia. Qed.

Lemma extendResource_None (subscriptionID : string) (val : AzureResource) :
  extendResource subscriptionID val = None
  <-> (len (ID val) < subscriptionPrefixLen subscriptionID)%nat.
Proof.
  unfold extendResource. rewrite <- slice_from_None.
  destruct (slice_from _ _); split; intros; congruence.
Qed.

Lemma extendResources_loop_None (subscriptionID : string) (l : list AzureResource) :
  extendResources_loop subscriptionID l = None
  <-> Exists (fun val => (len (ID val) < subscriptionPrefixLen subscriptionID)%nat) l.
Proof.
  induction l as [|val rest IH]; simpl.
  - split; [discriminate|]. intros Hex. inversion Hex.
  - rewrite Exists_cons, <- IH, <- extendResource_None.
    destruct (extendResource subscriptionID val);
      destruct (extendResources_loop subscriptionID rest);
      split; intros; try discriminate; intuition congruence.
Qed.

Lemma extendResources_loop_Some (subscriptionID : string) (l out : list AzureResource) :
  extendResources_loop subscriptionID l = Some out ->
  Forall2 (fun val val' => extendResource subscriptionID val = Some val') l out.
Proof.
  revert out. induction l as [|val rest IH]; simpl; intros out Hout.
  - inversion Hout. constructor.
  - destruct (extendResource subscriptionID val) as [val'|] eqn:E; [|discriminate].
    destruct (extendResources_loop subscriptionID rest) as [rest'|]; [|discriminate].
    inversion Hout; subst. constructor; auto.
Qed.

(** C10. The stripping takes [val.ID[n:]] with [n] the length of
    [subscriptions/<id>] plus one. It returns (with as many resources as it
    was given) exactly when every identifier is at least [n] bytes long;
    an identifier shorter than that makes the slice go out of bounds, and
    the outcome is then a panic and never an error value. *)
Theorem extendResources_in_bounds (subscriptionID : string) (ar : AzureResourceListResponse) :
  subscriptionPrefixLen subscriptionID = (len ("subscriptions/" ++ subscriptionID) + 1)%nat /\
  (Forall (fun val => (subscriptionPrefixLen subscriptionID <= len (ID val))%nat) (ListValue ar)
   <-> exists out, extendResources subscriptionID ar = Return out
                   /\ length out = length (ListValue ar)) /\
  (Exists (fun val => (len (ID val) < subscriptionPrefixLen subscriptionID)%nat) (ListValue ar)
   <-> extendResources subscriptionID ar = Panicked) /\
  (forall val, val ∈ ListValue ar ->
     (subscriptionPrefixLen subscriptionID <= len (ID val))%nat ->
     is_Some (slice_from (ID val) (subscriptionPrefixLen subscriptionID))).
Proof.
  split; [reflexivity|].
  pose proof (extendResources_loop_None subscriptionID (ListValue ar)) as Hnone.
  unfold extendResources.
  destruct (extendResources_loop subscriptionID (ListValue ar)) as [out|] eqn:E.
  - assert (Hall : Forall (fun val => (subscriptionPrefixLen subscriptionID <= len (ID val))%nat)
                     (ListValue ar)).
    { apply Forall_forall. intros val Hin.
      destruct (Nat.le_gt_cases (subscriptionPrefixLen subscriptionID) (len (ID val)));
        [assumption|].
      assert (Hex : Exists (fun val => (len (ID val) < subscriptionPrefixLen subscriptionID)%nat)
                      (ListValue ar)) by (apply Exists_exists; eauto).
      apply Hnone in Hex. discriminate. }
    split; [split|split; [split|]].
    + intros _. exists out. split; [reflexivity|].
      symmetry. eapply Forall2_length, extendResources_loop_Some, E.
    + intros _. exact Hall.
    + intros Hex. apply Hnone in Hex. discriminate.
    + discriminate.
    + intros val _ Hle. destruct (slice_from _ _) eqn:Es; [eauto|].
      apply slice_from_None in Es. lia.
  - assert (Hex : Exists (fun val => (len (ID val) < subscriptionPrefixLen subscriptionID)%nat)
                    (ListValue ar)) by (by apply Hnone).
    split; [split|split; [split|]].
    + intros Hall. apply Exists_exists in Hex as (val & Hin & Hlt).
      rewrite Forall_forall in Hall. specialize (Hall val Hin). lia.
    + intros (out & Hout & _). discriminate.
    + reflexivity.
    + intros _. exact Hex.
    + intros val _ Hle. destruct (slice_from _ _) eqn:Es; [eauto|].
      apply slice_from_None in Es. lia.
Qed.

Example extendResources_short_id :
  extendResources "sub" {| ListValue := [sampleResource "/subscriptions/s" "web-1"] |}
  = Panicked.
Proof. reflexivity. Qed.

(** C7. When [extendResources] returns, every returned descriptor carries
    the active subscription in its subscription field, keeps its other
    attributes, and, when the listed identifier starts with
    [/subscriptions/<id>], has exactly the rest of it as its identifier;
    and it does return when every listed identifier starts with that
    path. *)
Theorem extendResources_strips_prefix (subscriptionID : string)
    (ar : AzureResourceListResponse) :
  (forall out, extendResources subscriptionID ar = Return out ->
     Forall2 (fun val val' =>
                Subscription val' = subscriptionID /\
                (forall rest, ID val = "/subscriptions/" ++ subscriptionID ++ rest ->
                              ID val' = rest) /\
                Name val' = Name val /\ Location val' = Location val /\
                Type_ val' = Type_ val /\ Tags val' = Tags val /\
                ManagedBy val' = ManagedBy val)
             (ListValue ar) out) /\
  (Forall (fun val => exists rest, ID val = "/subscriptions/" ++ subscriptionID ++ rest)
          (ListValue ar) ->
   exists out, extendResources subscriptionID ar = Return out).
Proof.
  assert (Hpath : forall rest,
            slice_from ("/subscriptions/" ++ subscriptionID ++ rest)
                       (subscriptionPrefixLen subscriptionID) = Some rest).
  { intros rest. rewrite <- subscriptionPath_len.
    change ("/subscriptions/" ++ subscriptionID ++ rest)
      with ("/" ++ ("subscriptions/" ++ (subscriptionID ++ rest))).
    unfold subscriptionOf.
    replace ("/" ++ ("subscriptions/" ++ (subscriptionID ++ rest)))
      with (("/" ++ ("subscriptions/" ++ subscriptionID)) ++ rest).
    - apply slice_from_append.
    - simpl. repeat f_equal. }
  split.
  - intros out Hout. unfold extendResources in Hout.
    destruct (extendResources_loop subscriptionID (ListValue ar)) as [l|] eqn:E;
      [|discriminate].
    inversion Hout; subst l. apply extendResources_loop_Some in E.
    eapply Forall2_impl; [exact E|].
    intros val val' Hval. unfold extendResource in Hval.
    destruct (slice_from (ID val) (subscriptionPrefixLen subscriptionID)) as [id|] eqn:Es;
      [|discriminate].
    inversion Hval; subst val'; simpl. repeat split.
    intros rest Hid. rewrite Hid, Hpath in Es. congruence.
  - intros Hall. unfold extendResources.
    destruct (extendResources_loop subscriptionID (ListValue ar)) as [l|] eqn:E; [eauto|].
    apply extendResources_loop_None, Exists_exists in E as (val & Hin & Hlt).
    rewrite Forall_forall in Hall. destruct (Hall val Hin) as [rest Hid].
    pose proof (Hpath rest) as Hs. rewrite <- Hid in Hs.
    assert (slice_from (ID val) (subscriptionPrefixLen subscriptionID) = None)
      by (by apply slice_from_None).
    congruence.
Qed.

Example extendResources_ex :
  extendResources "sub"
    {| ListValue := [sampleResource "/subscriptions/sub/resourceGroups/rg/providers/p/x" "x"] |}
  = Return [{| ID := "/resourceGroups/rg/providers/p/x"; Name := "x";
               Location := "westeurope"; Type_ := "Microsoft.Web/sites"; Tags := ∅;
               ManagedBy := ""; Subscription := "sub" |}].
Proof. reflexivity. Qed.

(** ** Metric translator *)

Lemma addTrace_nil st : addTrace st [] = st.
Proof. destruct st. unfold addTrace. simpl. by rewrite app_nil_r. Qed.

Lemma addTrace_addTrace st evs1 evs2 :
  addTrace (addTrace st evs1) evs2 = addTrace st (evs1 ++ evs2).
Proof. unfold addTrace. simpl. by rewrite app_assoc. Qed.

Lemma sent_Sent (ms : list Metric) : sent (map Sent ms) = ms.
Proof. induction ms as [|m ms IH]; [reflexivity|]. cbn. f_equal. exact IH. Qed.

Lemma lastPoint_lookup (value : metricValue) :
  lastPoint value
  = match Timeseries value !! 0%nat with
    | None => None
    | Some series => Data series !! (length (Data series) - 1)%nat
    end.
Proof.
  unfold lastPoint. destruct (Timeseries value) as [|series rest]; [reflexivity|].
  simpl. by rewrite last_lookup, Nat.sub_1_r.
Qed.

(** Whatever comes before it in the first series, and whatever the other
    series hold, the last data point of the first series is the one
    used. *)
Lemma lastPoint_snoc (value : metricValue) (pts : list dataPoint) (p : dataPoint)
    (others : list timeseries) :
  Timeseries value = {| Data := pts ++ [p] |} :: others -> lastPoint value = Some p.
Proof. intros Hts. unfold lastPoint. rewrite Hts. simpl. apply last_snoc. Qed.

Example IsValidMetricName_ex :
  IsValidMetricName (runes "requests_count_total") = true /\
  IsValidMetricName (runes "5xx_errors_count_total") = false /\
  IsValidMetricName [] = false.
Proof. by repeat split. Qed.

Example checkLabelName_ex :
  checkLabelName "resource_url" = true /\ checkLabelName "_tag" = true /\
  checkLabelName "__name__" = false /\ checkLabelName "9lives" = false /\
  checkLabelName "tag-name" = false /\ checkLabelName "" = false.
Proof. by repeat split. Qed.

(** Two-, three- and four-byte runes; an overlong form, a surrogate half, a
    rune above U+10FFFF and a cut-off rune. *)
Example utf8_Valid_ex :
  utf8_Valid [104; 195; 169] = true /\ utf8_Valid [226; 130; 172] = true /\
  utf8_Valid [240; 159; 152; 128] = true /\
  utf8_Valid [192; 128] = false /\ utf8_Valid [237; 160; 128] = false /\
  utf8_Valid [244; 144; 128; 128] = false /\ utf8_Valid [226; 130] = false.
Proof. by repeat split. Qed.

Lemma accepted_app (ms1 ms2 : list Metric) :
  accepted (ms1 ++ ms2)
  = if forallb validSample ms1 then (ms1 ++ accepted ms2)%list else accepted ms1.
Proof.
  induction ms1 as [|m ms1 IH]; [reflexivity|].
  cbn [app accepted forallb]. destruct (validSample m); [|reflexivity].
  rewrite IH. by destruct (forallb validSample ms1).
Qed.

Lemma accepted_all (ms : list Metric) : forallb validSample ms = true -> accepted ms = ms.
Proof.
  induction ms as [|m ms IH]; [reflexivity|].
  cbn [accepted forallb]. intros [-> Hms]%andb_true_iff. by rewrite IH.
Qed.

(** What is sent is a prefix of what was planned. *)
Lemma accepted_prefix (ms : list Metric) : accepted ms `prefix_of` ms.
Proof.
  induction ms as [|m ms IH]; [done|].
  cbn [accepted]. destruct (validSample m); [by apply prefix_cons|apply prefix_nil].
Qed.

Lemma accepted_valid (ms : list Metric) : forallb validSample (accepted ms) = true.
Proof.
  induction ms as [|m ms IH]; [reflexivity|].
  cbn [accepted]. destruct (validSample m) eqn:E; [|reflexivity].
  cbn [forallb]. by rewrite E.
Qed.

Section TranslatorFacts.
Context `{UnicodeLib} `{Helpers}.

(** Building a metric and sending it. *)
Lemma build_send_run (desc : Desc) (vt : valueType) (v : float) (st : state) :
  (m ← MustNewConstMetric desc vt v; send m) st
  = if NewDesc_ok desc then (addTrace st [Sent (ConstMetric desc vt v)], Return tt)
    else (st, Panicked).
Proof.
  rewrite bind_unfold. unfold MustNewConstMetric. by destruct (NewDesc_ok desc).
Qed.

Lemma when_build_send_run (b : bool) (desc : Desc) (vt : valueType) (v : float)
    (st : state) :
  when b (m ← MustNewConstMetric desc vt v; send m) st
  = (addTrace st (map Sent (accepted (if b then [ConstMetric desc vt v] else []))),
     if forallb validSample (if b then [ConstMetric desc vt v] else [])
     then Return tt else Panicked).
Proof.
  destruct b; cbn [when].
  - rewrite build_send_run. cbn [accepted forallb validSample].
    destruct (NewDesc_ok desc); cbn [map andb]; [reflexivity|by rewrite addTrace_nil].
  - by rewrite addTrace_nil.
Qed.

(** Two runs of samples sent one after the other. *)
Lemma send_then_run (m1 m2 : M unit) (ms1 ms2 : list Metric) (st : state) :
  (forall st, m1 st = (addTrace st (map Sent (accepted ms1)),
                       if forallb validSample ms1 then Return tt else Panicked)) ->
  (forall st, m2 st = (addTrace st (map Sent (accepted ms2)),
                       if forallb validSample ms2 then Return tt else Panicked)) ->
  (m1 ≫= fun _ => m2) st
  = (addTrace st (map Sent (accepted (ms1 ++ ms2))),
     if forallb validSample (ms1 ++ ms2) then Return tt else Panicked).
Proof.
  intros H1 H2. rewrite bind_unfold, H1, accepted_app, forallb_app.
  destruct (forallb validSample ms1) eqn:E1; cbn [andb]; [|reflexivity].
  by rewrite H2, addTrace_addTrace, map_app, (accepted_all ms1 E1).
Qed.

Lemma sendAggregations_run (rm : resourceMeta) (metricName : text) (p : dataPoint)
    (st : state) :
  sendAggregations rm metricName p st
  = (addTrace st (map Sent (accepted (aggregationSamples rm metricName p))),
     if forallb validSample (aggregationSamples rm metricName p)
     then Return tt else Panicked).
Proof.
  unfold sendAggregations, aggregationSamples, gauge, NewDesc. cbv zeta.
  apply send_then_run; [intros; apply when_build_send_run|].
  intros st1. apply send_then_run; [intros; apply when_build_send_run|].
  intros st2. apply send_then_run; intros; apply when_build_send_run.
Qed.

Lemma extractMetrics_value_run (rm : resourceMeta) (value : metricValue) (st : state) :
  extractMetrics_value rm value st
  = match lastPoint value with
    | None => (st, Panicked)
    | Some p =>
        (addTrace st (map Sent (accepted (aggregationSamples rm
                                  (metricNameOf (NameValue value) (Unit value)) p))),
         if forallb validSample
              (aggregationSamples rm (metricNameOf (NameValue value) (Unit value)) p)
         then Return tt else Panicked)
    end.
Proof.
  unfold extractMetrics_value. rewrite lastPoint_lookup.
  destruct (Timeseries value !! 0%nat) as [series|]; [|reflexivity].
  destruct (Data series !! _) as [p|]; [|reflexivity].
  apply sendAggregations_run.
Qed.

Lemma forEach_value_run (rm : resourceMeta) (values : list metricValue) (st : state) :
  forEach (extractMetrics_value rm) values st
  = (addTrace st (map Sent (accepted (fst (valueSamples rm values)))),
     if snd (valueSamples rm values) && forallb validSample (fst (valueSamples rm values))
     then Return tt else Panicked).
Proof.
  revert st. induction values as [|value rest IH]; intros st; cbn [forEach valueSamples].
  - by rewrite addTrace_nil.
  - rewrite bind_unfold, extractMetrics_value_run.
    destruct (lastPoint value) as [p|]; [|by rewrite addTrace_nil].
    destruct (valueSamples rm rest) as [ms ok] eqn:E. cbn [fst snd] in *.
    rewrite accepted_app, forallb_app.
    destruct (forallb validSample (aggregationSamples rm _ p)) eqn:Ep; cbn [andb].
    + by rewrite IH, addTrace_addTrace, map_app, (accepted_all _ Ep).
    + by rewrite andb_false_r.
Qed.

Lemma extractMetrics_run (rm : resourceMeta) (httpStatusCode : Z)
    (metricValueData : AzureMetricValueResponse) (st : state) :
  extractMetrics rm httpStatusCode metricValueData st
  = (addTrace st (Translated rm httpStatusCode metricValueData
                    :: fst (translatorEvents rm httpStatusCode metricValueData)),
     if snd (translatorEvents rm httpStatusCode metricValueData)
     then Return tt else Panicked).
Proof.
  unfold extractMetrics, translatorEvents, plannedSamples.
  rewrite (bind_Return _ _ _ _ _ (emit_run _ _)).
  destruct (extractMetrics_guard httpStatusCode metricValueData) as [line|].
  - unfold log_. rewrite emit_run. simpl. by rewrite addTrace_addTrace.
  - rewrite bind_unfold, forEach_value_run.
    destruct (valueSamples rm (Value metricValueData)) as [ms ok]. cbn [fst snd].
    rewrite accepted_app, forallb_app.
    destruct ok; cbn [andb].
    + destruct (forallb validSample ms) eqn:Ems.
      * cbv zeta. rewrite build_send_run, (accepted_all ms Ems).
        unfold NewDesc, resourceInfo. cbn [accepted forallb validSample andb].
        destruct (NewDesc_ok _); rewrite !addTrace_addTrace; cbn [andb];
          by rewrite ?map_app, ?app_nil_r.
      * by rewrite !addTrace_addTrace.
    + rewrite !addTrace_addTrace.
      destruct (forallb validSample ms) eqn:Ems; rewrite ?app_nil_r; [|reflexivity].
      by rewrite (accepted_all ms Ems).
Qed.

(** A payload passes the guards exactly when the status is 200 and the
    first value entry has a last data point. *)
Lemma guard_None_first (httpStatusCode : Z) (metricValueData : AzureMetricValueResponse) :
  extractMetrics_guard httpStatusCode metricValueData = None <->
  httpStatusCode = 200 /\
  exists v0 rest, Value metricValueData = v0 :: rest /\ is_Some (lastPoint v0).
Proof.
  unfold extractMetrics_guard, lastPoint.
  destruct (Z.eqb_spec httpStatusCode 200) as [->|Hne]; simpl.
  - destruct (Value metricValueData) as [|v0 rest].
    + split; [discriminate|]. intros (_ & v & r & Hv & _). discriminate.
    + destruct (Timeseries v0) as [|t0 ts] eqn:Et.
      * split; [discriminate|]. intros (_ & v & r & Hv & Hl).
        inversion Hv; subst. rewrite Et in Hl. by destruct Hl.
      * destruct (Data t0) as [|p ps] eqn:Ed; simpl.
        -- split; [discriminate|]. intros (_ & v & r & Hv & Hl).
           inversion Hv; subst. rewrite Et, Ed in Hl. by destruct Hl.
        -- split; [|reflexivity]. intros _. split; [reflexivity|].
           exists v0, rest. split; [reflexivity|].
           rewrite Et. simpl. rewrite Ed. by apply last_is_Some.
  - split; [discriminate|]. intros [Heq _]. contradiction.
Qed.
End TranslatorFacts.

Section TranslatorClaims.
Context `{UnicodeLib} `{Helpers}.

Lemma valueSamples_complete (rm : resourceMeta) (values : list metricValue) :
  snd (valueSamples rm values) = true <-> Forall (fun v => is_Some (lastPoint v)) values.
Proof.
  induction values as [|v rest IH]; simpl.
  - split; [constructor|reflexivity].
  - rewrite Forall_cons, <- IH. destruct (lastPoint v) as [p|]; simpl.
    + destruct (valueSamples rm rest) as [ms ok]. simpl.
      split; [intros ->; split; [by eexists|reflexivity]|tauto].
    + split; [discriminate|]. intros [[p Hp] _]. discriminate.
Qed.

(** Every sample of the value entries comes from the last data point of
    the first series of one of them. *)
Lemma valueSamples_from_last (rm : resourceMeta) (values : list metricValue) (m : Metric) :
  In m (fst (valueSamples rm values)) ->
  exists v p, In v values /\ lastPoint v = Some p /\
    In m (aggregationSamples rm (metricNameOf (NameValue v) (Unit v)) p).
Proof.
  induction values as [|v rest IH]; simpl; [contradiction|].
  destruct (lastPoint v) as [p|] eqn:El; simpl; [|contradiction].
  destruct (valueSamples rm rest) as [ms ok]. simpl in *.
  rewrite in_app_iff. intros [Hm|Hm].
  - exists v, p. auto.
  - destruct (IH Hm) as (v' & p' & Hin & Hl & Hs). exists v', p'. auto.
Qed.

(** The samples of a data point, spelled out. *)
Lemma aggregationSamples_spelled (rm : resourceMeta) (metricName : text) (p : dataPoint)
    (m : Metric) :
  In m (aggregationSamples rm metricName p) ->
  exists suffix v,
    In (suffix, v) (aggregationsOf p) /\
    m = ConstMetric {| fqName := (metricName ++ runes suffix)%list;
                       help := (metricName ++ runes suffix)%list;
                       constLabels := CreateResourceLabels (ResourceURL rm) |}
          GaugeValue v.
Proof.
  unfold aggregationSamples, aggregationsOf, gauge. rewrite !in_app_iff.
  intros [Hin|[Hin|[Hin|Hin]]];
    match type of Hin with
    | In _ (if ?b then _ else _) => destruct b; [|contradiction]
    end; destruct Hin as [<-|[]]; do 2 eexists; (split; [|reflexivity]); cbn; tauto.
Qed.

Lemma planned_from_last (rm : resourceMeta) (content : AzureMetricValueResponse)
    (m : Metric) :
  In m (fst (plannedSamples rm content)) ->
  fromLastPoint rm content m \/ m = resourceInfo rm.
Proof.
  unfold plannedSamples.
  destruct (valueSamples rm (Value content)) as [ms ok] eqn:E. cbn [fst].
  rewrite in_app_iff. intros [Hin|Hin].
  - left. assert (Hin' : In m (fst (valueSamples rm (Value content)))) by (by rewrite E).
    apply valueSamples_from_last in Hin' as (v & p & Hv & Hp & Hm).
    apply aggregationSamples_spelled in Hm as (suffix & x & Hx & ->).
    by exists v, p, suffix, x.
  - right. destruct ok; [|contradiction]. by destruct Hin as [<-|[]].
Qed.

Lemma sent_translatorEvents (rm : resourceMeta) (httpStatusCode : Z)
    (content : AzureMetricValueResponse) :
  sent (fst (translatorEvents rm httpStatusCode content))
  = match extractMetrics_guard httpStatusCode content with
    | Some _ => []
    | None => accepted (fst (plannedSamples rm content))
    end.
Proof.
  unfold translatorEvents.
  destruct (extractMetrics_guard httpStatusCode content); [reflexivity|].
  destruct (plannedSamples rm content) as [ms ok]. cbn [fst]. apply sent_Sent.
Qed.

Lemma sent_extractMetrics (rm : resourceMeta) (httpStatusCode : Z)
    (content : AzureMetricValueResponse) (st : state) :
  sent (trace (fst (extractMetrics rm httpStatusCode content st)))
  = (sent (trace st) ++ sent (fst (translatorEvents rm httpStatusCode content)))%list.
Proof.
  rewrite extractMetrics_run. cbn [fst trace addTrace]. rewrite sent_app. reflexivity.
Qed.

(** What is planned depends on the names, the units and the last data
    points only. *)
Lemma valueSamples_same (rm : resourceMeta) (values values' : list metricValue) :
  Forall2 (fun v v' => NameValue v = NameValue v' /\ Unit v = Unit v' /\
                       lastPoint v = lastPoint v') values values' ->
  valueSamples rm values = valueSamples rm values'.
Proof.
  induction 1 as [|v v' rest rest' (Hn & Hu & Hl) Hrest IH]; [reflexivity|].
  cbn [valueSamples]. by rewrite Hn, Hu, Hl, IH.
Qed.

Lemma guard_same (httpStatusCode : Z) (content content' : AzureMetricValueResponse) :
  sameLastPoints content content' ->
  extractMetrics_guard httpStatusCode content = None ->
  extractMetrics_guard httpStatusCode content' = None.
Proof.
  intros Hsame Hg. apply guard_None_first in Hg as (Hs & v0 & rest & Hv & Hp).
  apply guard_None_first. split; [assumption|].
  unfold sameLastPoints in Hsame. rewrite Hv in Hsame.
  apply Forall2_cons_inv_l in Hsame as (v0' & rest' & (_ & _ & Hl) & _ & Hv').
  exists v0', rest'. split; [assumption|]. by rewrite <- Hl.
Qed.

Lemma translatorEvents_same (rm : resourceMeta) (httpStatusCode : Z)
    (content content' : AzureMetricValueResponse) :
  sameLastPoints content content' ->
  sent (fst (translatorEvents rm httpStatusCode content'))
  = sent (fst (translatorEvents rm httpStatusCode content)) /\
  snd (translatorEvents rm httpStatusCode content')
  = snd (translatorEvents rm httpStatusCode content).
Proof.
  intros Hsame.
  assert (Hback : sameLastPoints content' content).
  { unfold sameLastPoints in *. apply Forall2_flip.
    eapply Forall2_impl; [exact Hsame|]. cbn. intros v v' (-> & -> & ->). done. }
  rewrite !sent_translatorEvents. unfold translatorEvents, plannedSamples.
  rewrite (valueSamples_same rm _ _ Hsame).
  destruct (extractMetrics_guard httpStatusCode content) as [line|] eqn:Eg,
           (extractMetrics_guard httpStatusCode content') as [line'|] eqn:Eg';
    try (split; reflexivity).
  - by rewrite (guard_same _ _ _ Hback Eg') in Eg.
  - by rewrite (guard_same _ _ _ Hsame Eg) in Eg'.
Qed.
End TranslatorClaims.

(** C8. Whatever the status and the payload, every sample the translator
    sends is the resource information or a gauge that carries the total,
    the average, the minimum or the maximum of the last data point of the
    first series of a value entry, under the name of that entry. For a
    payload with status 200 whose first value entry has a last data point
    [p], the first sample sent carries [Total p] when the total is asked
    for and the client library accepts its descriptor. What is sent, and
    whether the translator returns, is the same for any two payloads whose
    entries agree on names, units and last data points: no earlier data
    point and no other series plays a part. The last data point is the
    last element of the first series. *)
Theorem extractMetrics_last_point `{UnicodeLib} `{Helpers} (rm : resourceMeta)
    (httpStatusCode : Z) (metricValueData : AzureMetricValueResponse) (st : state) :
  (exists ms,
     sent (trace (fst (extractMetrics rm httpStatusCode metricValueData st)))
     = (sent (trace st) ++ ms)%list /\
     Forall (fun m => fromLastPoint rm metricValueData m \/ m = resourceInfo rm) ms) /\
  (forall v0 rest p,
     httpStatusCode = 200 -> Value metricValueData = v0 :: rest -> lastPoint v0 = Some p ->
     hasAggregation (Aggregations rm) "Total" = true ->
     NewDesc_ok {| fqName := (metricNameOf (NameValue v0) (Unit v0) ++ runes "_total")%list;
                   help := (metricNameOf (NameValue v0) (Unit v0) ++ runes "_total")%list;
                   constLabels := CreateResourceLabels (ResourceURL rm) |} = true ->
     exists ms,
       sent (trace (fst (extractMetrics rm httpStatusCode metricValueData st)))
       = (sent (trace st)
          ++ ConstMetric
               {| fqName := (metricNameOf (NameValue v0) (Unit v0) ++ runes "_total")%list;
                  help := (metricNameOf (NameValue v0) (Unit v0) ++ runes "_total")%list;
                  constLabels := CreateResourceLabels (ResourceURL rm) |}
               GaugeValue (Total p) :: ms)%list) /\
  (forall metricValueData',
     sameLastPoints metricValueData metricValueData' ->
     sent (trace (fst (extractMetrics rm httpStatusCode metricValueData' st)))
     = sent (trace (fst (extractMetrics rm httpStatusCode metricValueData st))) /\
     snd (extractMetrics rm httpStatusCode metricValueData' st)
     = snd (extractMetrics rm httpStatusCode metricValueData st)) /\
  (forall (value : metricValue) pts p others,
     Timeseries value = {| Data := pts ++ [p] |} :: others -> lastPoint value = Some p).
Proof.
  split; [|split; [|split]].
  - exists (sent (fst (translatorEvents rm httpStatusCode metricValueData))).
    split; [apply sent_extractMetrics|]. rewrite sent_translatorEvents.
    destruct (extractMetrics_guard httpStatusCode metricValueData); [constructor|].
    apply List.Forall_forall. intros m Hin. apply planned_from_last.
    destruct (accepted_prefix (fst (plannedSamples rm metricValueData))) as [k ->].
    apply in_or_app. by left.
  - intros v0 rest p Hs Hv Hp Hagg Hok.
    assert (Hg : extractMetrics_guard httpStatusCode metricValueData = None).
    { apply guard_None_first. split; [assumption|]. exists v0, rest. by eauto. }
    rewrite sent_extractMetrics, sent_translatorEvents, Hg.
    unfold plannedSamples. rewrite Hv. cbn [valueSamples]. rewrite Hp.
    destruct (valueSamples rm rest) as [ms ok]. cbn [fst].
    unfold aggregationSamples, gauge. rewrite Hagg.
    rewrite <- !app_assoc. cbn [app accepted validSample]. rewrite Hok. by eexists.
  - intros metricValueData' Hsame.
    destruct (translatorEvents_same rm httpStatusCode _ _ Hsame) as [Hsent Hret].
    split.
    + by rewrite !sent_extractMetrics, Hsent.
    + by rewrite !extractMetrics_run; cbn [snd]; rewrite Hret.
  - apply lastPoint_snoc.
Qed.

(** The payload with the totals 1, 2 and 3 gives a first sample of value
    3. *)
Lemma extractMetrics_last_point_witness :
  exists ms,
    sent (trace (fst (@extractMetrics asciiUnicode sampleHelpers (sampleQuery "/r") 200
                        threePoints (initial sampleClient))))
    = ConstMetric {| fqName := runes "requests_count_total";
                     help := runes "requests_count_total";
                     constLabels := {[ "resource_url" := "/r" ]} |} GaugeValue 3 :: ms.
Proof.
  destruct (@extractMetrics_last_point asciiUnicode sampleHelpers (sampleQuery "/r") 200
              threePoints (initial sampleClient)) as (_ & Hfirst & _).
  exact (Hfirst (sampleValue "Requests" "Count"
                   [ {| Data := [samplePoint 1; samplePoint 2; samplePoint 3] |} ])
           [] (samplePoint 3) eq_refl eq_refl eq_refl eq_refl eq_refl).
Defined.

Example extractMetrics_three_points :
  sent (trace (fst (@extractMetrics asciiUnicode sampleHelpers (sampleQuery "/r") 200
                      threePoints (initial sampleClient))))
  = [ConstMetric {| fqName := runes "requests_count_total";
                    help := runes "requests_count_total";
                    constLabels := {[ "resource_url" := "/r" ]} |} GaugeValue 3;
     ConstMetric {| fqName := runes "azure_resource_info";
                    help := runes "Azure information available for resource";
                    constLabels := {[ "id" := "/r" ]} |} UntypedValue 0].
Proof. vm_compute. reflexivity. Qed.

(** C9 (the code departs from it). The guards look at the first value
    entry only: a payload that passes them and has a later entry with no
    series, or with an empty first series, makes the loop index out of
    range. *)
Theorem extractMetrics_guards_do_not_suffice `{UnicodeLib} `{Helpers} (rm : resourceMeta)
    (metricValueData : AzureMetricValueResponse) (value : metricValue) (st : state) :
  extractMetrics_guard 200 metricValueData = None ->
  In value (Value metricValueData) ->
  lastPoint value = None ->
  snd (extractMetrics rm 200 metricValueData st) = Panicked.
Proof.
  intros Hg Hin Hl. rewrite extractMetrics_run. unfold translatorEvents, plannedSamples.
  rewrite Hg.
  destruct (valueSamples rm (Value metricValueData)) as [ms ok] eqn:E. cbn [fst snd].
  destruct ok; [|reflexivity].
  assert (Hok : snd (valueSamples rm (Value metricValueData)) = true) by (by rewrite E).
  apply valueSamples_complete in Hok. rewrite List.Forall_forall in Hok.
  destruct (Hok value Hin) as [p Hp]. congruence.
Qed.

Lemma extractMetrics_guards_do_not_suffice_witness :
  extractMetrics_guard 200 secondEntryEmpty = None /\
  snd (@extractMetrics asciiUnicode sampleHelpers (sampleQuery "/r") 200 secondEntryEmpty
         (initial sampleClient)) = Panicked.
Proof.
  split; [reflexivity|].
  apply (@extractMetrics_guards_do_not_suffice asciiUnicode sampleHelpers (sampleQuery "/r")
           secondEntryEmpty (sampleValue "Errors" "Count" [])).
  - reflexivity.
  - right. left. reflexivity.
  - reflexivity.
Defined.

(** ** Batch executor *)

Section ChunkFacts.
Context {A : Type}.
Implicit Types l : list A.

Lemma chunksFuel_enough (size : nat) :
  (0 < size)%nat ->
  forall fuel1 fuel2 l, (length l <= fuel1)%nat -> (length l <= fuel2)%nat ->
    chunksFuel fuel1 size l = chunksFuel fuel2 size l.
Proof.
  intros Hsize. induction fuel1 as [|fuel1 IH]; intros fuel2 l H1 H2.
  - destruct l; [|simpl in H1; lia]. by destruct fuel2.
  - destruct l as [|x l]; [by destruct fuel2|].
    destruct fuel2 as [|fuel2]; [simpl in H2; lia|].
    cbn [chunksFuel]. f_equal.
    apply IH; rewrite length_drop; simpl in *; lia.
Qed.

Lemma chunks_nil (size : nat) : chunks size (@nil A) = [].
Proof. reflexivity. Qed.

Lemma chunks_cons (size : nat) l :
  (0 < size)%nat -> l <> [] ->
  chunks size l = take size l :: chunks size (drop size l).
Proof.
  intros Hsize Hne. unfold chunks. destruct l as [|x l]; [contradiction|].
  cbn [length chunksFuel]. f_equal.
  apply chunksFuel_enough; [assumption| |lia].
  rewrite length_drop. simpl. lia.
Qed.



End ChunkFacts.

Section ExecutorFacts.
Context `{UnicodeLib} `{Helpers} (world : World).

Lemma valueSamples_returns (rm : resourceMeta) (values : list metricValue) :
  snd (valueSamples rm values) && forallb validSample (fst (valueSamples rm values))
  = forallb (fun v => match lastPoint v with
                      | Some p =>
                          forallb validSample
                            (aggregationSamples rm (metricNameOf (NameValue v) (Unit v)) p)
                      | None => false
                      end) values.
Proof.
  induction values as [|v rest IH]; [reflexivity|]. cbn [valueSamples forallb].
  destruct (lastPoint v) as [p|]; [|reflexivity].
  destruct (valueSamples rm rest) as [ms ok]. cbn [fst snd] in *.
  rewrite forallb_app, <- IH.
  by destruct ok, (forallb validSample (aggregationSamples rm _ p)).
Qed.

Lemma translatorEvents_returns (rm : resourceMeta) (httpStatusCode : Z)
    (content : AzureMetricValueResponse) :
  snd (translatorEvents rm httpStatusCode content)
  = translatorReturns rm httpStatusCode content.
Proof.
  unfold translatorEvents, translatorReturns, plannedSamples.
  destruct (extractMetrics_guard httpStatusCode content); [reflexivity|].
  rewrite <- (valueSamples_returns rm).
  destruct (valueSamples rm (Value content)) as [ms [|]]; cbn [fst snd andb];
    [|reflexivity].
  by rewrite forallb_app; cbn [forallb]; rewrite andb_true_r.
Qed.

(** The translator returns on a sub-response exactly when
    [translatorReturns] says so, and panics otherwise. *)
Lemma translatorReturns_spec (rm : resourceMeta) (httpStatusCode : Z)
    (content : AzureMetricValueResponse) (st : state) :
  snd (extractMetrics rm httpStatusCode content st)
  = if translatorReturns rm httpStatusCode content then Return tt else Panicked.
Proof. by rewrite extractMetrics_run, translatorEvents_returns. Qed.

(** The translator sends and logs; it issues no batch call and hands
    nothing over. *)
Lemma translatorEvents_quiet (rm : resourceMeta) (httpStatusCode : Z)
    (content : AzureMetricValueResponse) :
  batchCalls (fst (translatorEvents rm httpStatusCode content)) = [] /\
  translated (fst (translatorEvents rm httpStatusCode content)) = [].
Proof.
  unfold translatorEvents.
  destruct (extractMetrics_guard httpStatusCode content); [by split|].
  destruct (plannedSamples rm content) as [ms ok]. cbn [fst].
  induction (accepted ms) as [|m ms' IH]; [by split|]. exact IH.
Qed.

(** The slice taken by the loop is the next group of the partition. *)
Lemma slice_group (resources : list resourceMeta) (i : nat) :
  (i < length resources)%nat ->
  slice resources i
    (if (length resources <? i + batchSize)%nat then length resources else (i + batchSize)%nat)
  = take batchSize (drop i resources).
Proof.
  intros Hi. unfold slice.
  destruct (Nat.ltb_spec (length resources) (i + batchSize)) as [Hlt|Hge].
  - rewrite !take_ge; [reflexivity| |]; rewrite length_drop; lia.
  - f_equal. lia.
Qed.

Lemma group_lookup (resources : list resourceMeta) (i k : nat) (q : resourceMeta) :
  take batchSize (drop i resources) !! k = Some q -> resources !! (i + k)%nat = Some q.
Proof.
  intros Hk. apply lookup_take_Some in Hk as [Hk _]. by rewrite lookup_drop in Hk.
Qed.

Lemma handoff_loop_run (resources : list resourceMeta) (i : nat) (group : list resourceMeta) :
  (forall k q, group !! k = Some q -> resources !! (i + k)%nat = Some q) ->
  forall (responses : list batchResponse) (k : nat) (st : state),
    (k + length responses <= length group)%nat ->
    Forall (fun p => translatorReturns p.1 (HttpStatusCode p.2) (Content p.2) = true)
           (zip (drop k group) responses) ->
    forEachIndexed
      (fun k resp =>
         match resources !! (i + k)%nat with
         | None => panic
         | Some rm => extractMetrics rm (HttpStatusCode resp) (Content resp)
         end) k responses st
    = (addTrace st (handoffEvents
                      (zip (drop k group)
                           (map (fun resp => (HttpStatusCode resp, Content resp)) responses))),
       Return tt).
Proof.
  intros Hgroup. induction responses as [|resp rest IH]; intros k st Hlen Hall.
  - simpl. rewrite zip_with_nil_r. simpl. by rewrite addTrace_nil.
  - simpl in Hlen.
    destruct (lookup_lt_is_Some_2 group k ltac:(lia)) as [q Hq].
    rewrite (drop_S _ _ _ Hq) in Hall |- *. cbn [zip_with] in Hall.
    apply Forall_cons in Hall as [Hresp Hall]. cbn [fst snd] in Hresp.
    cbn [forEachIndexed]. rewrite bind_unfold, (Hgroup k q Hq), extractMetrics_run.
    rewrite translatorEvents_returns, Hresp.
    rewrite IH by (assumption || lia). rewrite addTrace_addTrace. reflexivity.
Qed.
End ExecutorFacts.

Section ExecutorRun.
Context `{UnicodeLib} `{Helpers} (world : World).

Lemma getBatchMetricValues_run (urls : list string) (st : state) :
  getBatchMetricValues world urls st
  = ({| trace := (trace st ++ [BatchCall urls])%list; clock := S (clock st);
        client := client st |},
     Return (batchAnswer world (clock st) urls)).
Proof. reflexivity. Qed.

(** With enough fuel and digestible answers the loop returns, having
    submitted the groups of the partition one after the other. *)
Lemma batchLoop_run (resources : list resourceMeta) :
  forall (fuel i : nat) (st : state),
    (length resources - i <= fuel)%nat ->
    (forall b group, chunks batchSize (drop i resources) !! b = Some group ->
       exists d, batchAnswer world (clock st + b)%nat (map ResourceURL group) = inr d /\
                 digestible group d) ->
    batchLoop world fuel resources i st
    = ({| trace := (trace st
                    ++ expectedTrace world (clock st) (chunks batchSize (drop i resources)))%list;
          clock := (clock st + length (chunks batchSize (drop i resources)))%nat;
          client := client st |},
       Return tt).
Proof.
  assert (Hdone : forall fuel i st, (length resources <= i)%nat ->
            batchLoop world fuel resources i st
            = ({| trace := (trace st
                     ++ expectedTrace world (clock st) (chunks batchSize (drop i resources)))%list;
                  clock := (clock st + length (chunks batchSize (drop i resources)))%nat;
                  client := client st |},
               Return tt)).
  { intros fuel i st Hi. rewrite drop_ge by assumption. rewrite chunks_nil. simpl.
    rewrite app_nil_r, Nat.add_0_r.
    assert (Hcond : (i <? length resources)%nat = false) by (apply Nat.ltb_ge; lia).
    destruct fuel; cbn [batchLoop]; rewrite Hcond; by destruct st. }
  induction fuel as [|fuel IH]; intros i st Hfuel Hanswers.
  - apply Hdone. lia.
  - destruct (Nat.le_gt_cases (length resources) i) as [Hge|Hlt]; [by apply Hdone|].
    assert (Hcond : (i <? length resources)%nat = true) by (apply Nat.ltb_lt; lia).
    assert (Hne : drop i resources <> []).
    { intros Hnil. apply (f_equal length) in Hnil. rewrite length_drop in Hnil.
      simpl in Hnil. lia. }
    assert (Hsize : (0 < batchSize)%nat) by (unfold batchSize; lia).
    rewrite (chunks_cons batchSize _ Hsize Hne) in Hanswers |- *.
    rewrite drop_drop in Hanswers |- *.
    set (group := take batchSize (drop i resources)) in *.
    destruct (Hanswers 0%nat group eq_refl) as (d & Hd & Hlen & Hall).
    rewrite Nat.add_0_r in Hd.
    cbn [batchLoop]. rewrite Hcond. cbv zeta. rewrite (slice_group _ _ Hlt). fold group.
    rewrite (bind_Return _ _ _ _ _ (getBatchMetricValues_run _ _)), Hd.
    rewrite bind_unfold.
    rewrite (handoff_loop_run resources i group (group_lookup resources i) (Responses d) 0%nat)
      by first [assumption | simpl; lia].
    rewrite drop_0. fold (pairUp group d).
    rewrite IH.
    + cbn [trace clock client addTrace expectedTrace length]. rewrite Hd.
      f_equal. f_equal; [|lia].
      rewrite <- !app_assoc. reflexivity.
    + lia.
    + intros b g Hg. cbn [clock addTrace].
      destruct (Hanswers (S b) g Hg) as (d' & Hd' & Hdig).
      exists d'. split; [|assumption]. rewrite <- Hd'. f_equal. lia.
Qed.
End ExecutorRun.

Section ExecutorTrace.
Context `{UnicodeLib} `{Helpers} (world : World).

Lemma handoffEvents_projections
    (pairs : list (resourceMeta * (Z * AzureMetricValueResponse))) :
  batchCalls (handoffEvents pairs) = [] /\ translated (handoffEvents pairs) = pairs.
Proof.
  induction pairs as [|[rm [status content]] pairs [IHb IHt]]; [by split|].
  unfold handoffEvents. cbn [flat_map fst snd].
  fold (handoffEvents pairs).
  rewrite !batchCalls_app, !translated_app, IHb, IHt.
  destruct (translatorEvents_quiet rm status content) as [Hb Ht]. split.
  - change (batchCalls (fst (translatorEvents rm status content)) ++ [] = [])%list.
    by rewrite Hb.
  - change (((rm, (status, content)) :: translated (fst (translatorEvents rm status content)))
            ++ pairs = (rm, (status, content)) :: pairs)%list.
    by rewrite Ht.
Qed.


Lemma expectedTrace_batchCalls (groups : list (list resourceMeta)) (c : nat) :
  (forall b group, groups !! b = Some group ->
     exists d, batchAnswer world (c + b)%nat (map ResourceURL group) = inr d) ->
  batchCalls (expectedTrace world c groups) = map (map ResourceURL) groups.
Proof.
  revert c. induction groups as [|group rest IH]; intros c Hok; [reflexivity|].
  cbn [expectedTrace map].
  destruct (Hok 0%nat group eq_refl) as [d Hd]. rewrite Nat.add_0_r in Hd. rewrite Hd.
  change (BatchCall (map ResourceURL group) :: handoffEvents (pairUp group d)
          ++ expectedTrace world (S c) rest)%list
    with ([BatchCall (map ResourceURL group)] ++ handoffEvents (pairUp group d)
          ++ expectedTrace world (S c) rest)%list.
  rewrite !batchCalls_app.
  destruct (handoffEvents_projections (pairUp group d)) as [-> _].
  rewrite IH; [reflexivity|].
  intros b g Hg. destruct (Hok (S b) g Hg) as [d' Hd'].
  exists d'. rewrite <- Hd'. f_equal. lia.
Qed.

End ExecutorTrace.





Example translatorReturns_three_points :
  @translatorReturns asciiUnicode sampleHelpers (sampleQuery "/r") 200 threePoints = true.
Proof. reflexivity. Qed.

Example translatorReturns_digit_name :
  @translatorReturns asciiUnicode sampleHelpers (sampleQuery "/r") 200 digitName = false.
Proof. reflexivity. Qed.

Example extractMetrics_digit_name :
  @extractMetrics asciiUnicode sampleHelpers (sampleQuery "/r") 200 digitName
    (initial sampleClient)
  = (addTrace (initial sampleClient) [Translated (sampleQuery "/r") 200 digitName],
     Panicked).
Proof. reflexivity. Qed.


Example batchCollectResources_digit_name_panics :
  snd (@batchCollectResources asciiUnicode sampleHelpers digitNameWorld (queries 21)
         (initial sampleClient)) = Panicked /\
  batchCalls (trace (fst (@batchCollectResources asciiUnicode sampleHelpers digitNameWorld
                            (queries 21) (initial sampleClient))))
  = [replicate 20 "/r"].
Proof. vm_compute. by split. Qed.

(** The bound on the sub-responses is needed as well: every combined call
    succeeds, yet an answer with more sub-responses than there are queries
    left makes the loop index [resources] out of range, and again only the
    first of two calls is issued. *)
Lemma batchCollectResources_overlong_answer :
  ~ @issuesCeilCalls asciiUnicode sampleHelpers overlongWorld (queries 21)
      (initial sampleClient).
Proof.
  unfold issuesCeilCalls. intros Hclaim.
  assert (Hok : forall c urls, exists d, batchAnswer overlongWorld c urls = inr d)
    by (intros c urls; eexists; reflexivity).
  specialize (Hclaim Hok). vm_compute in Hclaim. discriminate.
Qed.

Example batchCollectResources_overlong_panics :
  snd (@batchCollectResources asciiUnicode sampleHelpers overlongWorld (queries 21)
         (initial sampleClient)) = Panicked.
Proof. vm_compute. reflexivity. Qed.

(** The bound on the iterations of the batch loop is never reached,
    whatever the batch endpoint answers. *)
Lemma batchCollectResources_fuel `{UnicodeLib} `{Helpers} (world : World)
    (resources : list resourceMeta) (st : state) :
  snd (batchCollectResources world resources st) <> OutOfFuel.
Proof.
  assert (Hinner : forall i (responses : list batchResponse) k st0,
            snd (forEachIndexed
                   (fun k resp =>
                      match resources !! (i + k)%nat with
                      | None => panic
                      | Some rm => extractMetrics rm (HttpStatusCode resp) (Content resp)
                      end) k responses st0) <> OutOfFuel).
  { intros i. induction responses as [|resp rest IH]; intros k st0; [discriminate|].
    cbn [forEachIndexed]. rewrite bind_unfold.
    destruct (resources !! (i + k)%nat) as [rm|]; [|discriminate].
    rewrite extractMetrics_run.
    destruct (snd (translatorEvents rm (HttpStatusCode resp) (Content resp)));
      [apply IH|discriminate]. }
  unfold batchCollectResources.
  assert (Hloop : forall fuel i st0, (length resources - i <= fuel)%nat ->
            snd (batchLoop world fuel resources i st0) <> OutOfFuel).
  { induction fuel as [|fuel IH]; intros i st0 Hfuel.
    - assert (Hcond : (i <? length resources)%nat = false) by (apply Nat.ltb_ge; lia).
      cbn [batchLoop]. rewrite Hcond. discriminate.
    - cbn [batchLoop]. destruct (i <? length resources)%nat eqn:Hcond; [|discriminate].
      apply Nat.ltb_lt in Hcond. cbv zeta.
      rewrite (bind_Return _ _ _ _ _ (getBatchMetricValues_run _ _ _)).
      destruct (batchAnswer world (clock st0) _) as [err|d]; [discriminate|].
      rewrite bind_unfold.
      match goal with
      | |- context [forEachIndexed ?body ?k ?l ?s] =>
          pose proof (Hinner i l k s) as Hin;
          destruct (forEachIndexed body k l s) as [st1 [[]| | |]]
      end; try discriminate.
      + apply IH. unfold batchSize. lia.
      + by simpl in Hin.
  }
  apply Hloop. lia.
Qed.

(** * Further properties *)

(** ** Bytes of strings *)

Lemma bytes_of_bytes (l : list ascii) : bytes (of_bytes l) = l.
Proof. apply list_ascii_of_string_of_list_ascii. Qed.

Lemma of_bytes_bytes (s : string) : of_bytes (bytes s) = s.
Proof. apply string_of_list_ascii_of_string. Qed.

Lemma of_bytes_app (l1 l2 : list ascii) :
  of_bytes (l1 ++ l2) = of_bytes l1 ++ of_bytes l2.
Proof. induction l1 as [|c l1 IH]; simpl; [reflexivity|]. by rewrite IH. Qed.

Lemma len_of_bytes (l : list ascii) : len (of_bytes l) = length l.
Proof. unfold len. induction l as [|c l IH]; simpl; [reflexivity|]. by rewrite IH. Qed.

Lemma len_bytes (s : string) : length (bytes s) = len s.
Proof. rewrite <- (of_bytes_bytes s) at 2. by rewrite len_of_bytes. Qed.

(** ** Quoting of tag names and values *)

Lemma escaped_quotes (l : list ascii) :
  let out := flat_map (fun c => if Ascii.eqb c "'"%char then ["\"%char; "'"%char] else [c]) l in
  (forall i, out !! i = Some "'"%char ->
     exists j, i = S j /\ out !! j = Some "\"%char) /\
  length out = (length l + length (filter (fun c => c = "'"%char) l))%nat.
Proof.
  induction l as [|c l [IHq IHl]]; simpl.
  - split; [intros i Hi; by rewrite lookup_nil in Hi|reflexivity].
  - destruct (Ascii.eqb_spec c "'"%char) as [->|Hne].
    + split.
      * intros [|[|i]] Hi; simpl in Hi.
        -- discriminate.
        -- exists 0%nat. by split.
        -- destruct (IHq i Hi) as (j & -> & Hj). exists (S (S j)). by split.
      * rewrite filter_cons_True by reflexivity. simpl. rewrite IHl. lia.
    + split.
      * intros [|i] Hi; simpl in Hi.
        -- congruence.
        -- destruct (IHq i Hi) as (j & -> & Hj). exists (S j). by split.
      * rewrite filter_cons_False by assumption. simpl. by rewrite IHl.
Qed.

Lemma unquoted_unchanged (l : list ascii) :
  ~ In "'"%char l ->
  flat_map (fun c => if Ascii.eqb c "'"%char then ["\"%char; "'"%char] else [c]) l = l.
Proof.
  induction l as [|c l IH]; intros Hno; [reflexivity|]. simpl.
  destruct (Ascii.eqb_spec c "'"%char) as [->|Hne].
  - exfalso. apply Hno. by left.
  - simpl. f_equal. apply IH. intros Hin. apply Hno. by right.
Qed.

(** X9. In the result of [secureString] every single quote comes right after
    a backslash; the result is longer than the value by the number of its
    single quotes; and a value without single quotes is returned as it
    is. *)
Theorem secureString_escapes (value : string) :
  (forall i, bytes (secureString value) !! i = Some "'"%char ->
     exists j, i = S j /\ bytes (secureString value) !! j = Some "\"%char) /\
  len (secureString value)
  = (len value + length (filter (fun c => c = "'"%char) (bytes value)))%nat /\
  (~ In "'"%char (bytes value) -> secureString value = value).
Proof.
  unfold secureString. rewrite bytes_of_bytes, len_of_bytes.
  destruct (escaped_quotes (bytes value)) as [Hq Hl]. split; [exact Hq|]. split.
  - rewrite Hl. by rewrite len_bytes.
  - intros Hno. rewrite <- (of_bytes_bytes value) at 2. f_equal.
    by apply unquoted_unchanged.
Qed.

Example secureString_ex : secureString "it's" = "it\'s".
Proof. reflexivity. Qed.

(** ** Restriction of a listing to resource types *)

Lemma typesMap_fold (types : list string) (acc : gset string) :
  fold_left (fun typesMap resourceType => {[ resourceType ]} ∪ typesMap) types acc
  = list_to_set types ∪ acc.
Proof.
  revert acc. induction types as [|t types IH]; intros acc; cbn [fold_left list_to_set].
  - by rewrite (left_id_L ∅ (∪)).
  - by rewrite IH, (assoc_L (∪)), (comm_L (∪) (list_to_set types)).
Qed.

Lemma filteredResources_fold (P : AzureResource -> Prop) `{!forall r, Decision (P r)}
    (l acc : list AzureResource) :
  fold_left (fun filteredResources resource =>
               if decide (P resource) then (filteredResources ++ [resource])%list
               else filteredResources) l acc
  = (acc ++ filter P l)%list.
Proof.
  revert acc. induction l as [|r l IH]; intros acc; cbn [fold_left].
  - by rewrite app_nil_r.
  - rewrite IH, filter_cons. destruct (decide (P r)); [|reflexivity].
    by rewrite <- app_assoc.
Qed.

(** The two loops amount to a filter by membership in the set of types. *)
Lemma filterTypesInResourceList_filter (response : AzureResourceListResponse)
    (types : list string) :
  filterTypesInResourceList response types
  = filter (fun r => Type_ r ∈ (list_to_set types : gset string)) (ListValue response).
Proof.
  unfold filterTypesInResourceList. rewrite typesMap_fold, (right_id_L ∅ (∪)).
  by rewrite (filteredResources_fold
                (fun r => Type_ r ∈ (list_to_set types : gset string))).
Qed.

(** X10. [filterTypesInResourceList] returns the listed resources whose type
    is one of the given types, compared as whole strings: each of them as
    often as it is listed, in the order of the listing, and nothing else.
    The given types count as a set (their order and repetitions are of no
    consequence), the result of a listing in two parts is that of the
    parts, applying the function again changes nothing, and with no type
    given nothing is kept. *)
Theorem filterTypesInResourceList_keeps (response : AzureResourceListResponse)
    (types : list string) :
  filterTypesInResourceList response types
  = filter (fun r => Type_ r ∈ types) (ListValue response) /\
  (forall types', (forall t, t ∈ types <-> t ∈ types') ->
     filterTypesInResourceList response types'
     = filterTypesInResourceList response types) /\
  (forall l1 l2, ListValue response = (l1 ++ l2)%list ->
     filterTypesInResourceList response types
     = (filterTypesInResourceList {| ListValue := l1 |} types
        ++ filterTypesInResourceList {| ListValue := l2 |} types)%list) /\
  filterTypesInResourceList {| ListValue := filterTypesInResourceList response types |} types
  = filterTypesInResourceList response types /\
  filterTypesInResourceList response [] = [].
Proof.
  rewrite !filterTypesInResourceList_filter. cbn [ListValue].
  split; [|split; [|split; [|split]]].
  - apply list_filter_iff. intros r. by rewrite elem_of_list_to_set.
  - intros types' Hsame. rewrite filterTypesInResourceList_filter.
    apply list_filter_iff. intros r. rewrite !elem_of_list_to_set. by rewrite Hsame.
  - intros l1 l2 ->. rewrite !filterTypesInResourceList_filter. cbn [ListValue].
    apply filter_app.
  - by apply list_filter_filter_l.
  - induction (ListValue response) as [|r l IH]; [reflexivity|].
    rewrite filter_cons_False; [exact IH|]. cbn. apply not_elem_of_empty.
Qed.

Example filterTypesInResourceList_repeated :
  map Name (filterTypesInResourceList
              {| ListValue := [sampleResource "/a" "a"; sampleResource "/a" "a";
                               sampleResource "/b" "b"] |}
              ["Microsoft.Web/sites"; "Microsoft.Web/sites"])
  = ["a"; "a"; "b"].
Proof. vm_compute. reflexivity. Qed.

(** ** The API-version map *)

Lemma fold_insert_list_to_map (l : list (string * string)) (m0 : gmap string string) :
  fold_left (fun (m : gmap string string) p => <[p.1 := p.2]> m) l m0
  = list_to_map (rev l) ∪ m0.
Proof.
  revert m0. induction l as [|[k v] l IH]; intros m0; simpl.
  - by rewrite (left_id_L ∅ (∪)).
  - rewrite IH, list_to_map_app. cbn [list_to_map foldr fst snd].
    rewrite <- (assoc_L (∪)). f_equal.
    rewrite insert_empty. apply insert_union_singleton_l.
Qed.

Lemma extractAPIVersions_types_fold (ns : string) (ts : list resourceTypeEntry)
    (m : gmap string string) :
  extractAPIVersions_types ns m ts
  = fold_left (fun (m : gmap string string) p => <[p.1 := p.2]> m)
      (flat_map (fun t => match APIVersions t with
                          | [] => []
                          | _ :: _ => [(join2 ns (ResourceType t),
                                        latestVersionFrom (APIVersions t))]
                          end) ts) m.
Proof.
  unfold extractAPIVersions_types. revert m.
  induction ts as [|t ts IH]; intros m; [reflexivity|]. simpl.
  rewrite fold_left_app, IH. by destruct (APIVersions t).
Qed.

Lemma extractAPIVersions_fold (r : APIVersionResponse) :
  extractAPIVersions r
  = fold_left (fun (m : gmap string string) p => <[p.1 := p.2]> m) (listingEntries r) ∅.
Proof.
  unfold extractAPIVersions, listingEntries. generalize (∅ : gmap string string).
  induction (ProviderValue r) as [|val vals IH]; intros m; [reflexivity|]. simpl.
  by rewrite fold_left_app, IH, extractAPIVersions_types_fold.
Qed.

Lemma not_key_rev (l : list (string * string)) (key : string) :
  key ∉ l.*1 -> key ∉ (rev l).*1.
Proof.
  intros Hkey Hin. apply Hkey. apply list_elem_of_In. apply list_elem_of_In in Hin.
  change (In key (map fst (rev l))) in Hin. rewrite map_rev in Hin.
  by apply in_rev in Hin.
Qed.

(** X1. The map built by [extractAPIVersions] holds one entry per key
    [namespace/type] listed with at least one API version. When a key is
    listed several times the version selected for its last listing is the
    one kept; a key that is not listed, or only listed without versions, is
    absent, and [findBy] then gives the empty string. *)
Theorem extractAPIVersions_last_listing (r : APIVersionResponse) :
  extractAPIVersions r = list_to_map (rev (listingEntries r)) /\
  (forall key, key ∉ (listingEntries r).*1 ->
     extractAPIVersions r !! key = None /\ findBy (extractAPIVersions r) key = "") /\
  (forall pre key v post,
     listingEntries r = (pre ++ (key, v) :: post)%list -> key ∉ post.*1 ->
     findBy (extractAPIVersions r) key = v).
Proof.
  assert (Heq : extractAPIVersions r = list_to_map (rev (listingEntries r))).
  { rewrite extractAPIVersions_fold, fold_insert_list_to_map.
    by rewrite (right_id_L ∅ (∪)). }
  split; [exact Heq|]. split.
  - intros key Hkey.
    assert (Hnone : extractAPIVersions r !! key = None).
    { rewrite Heq. by apply not_elem_of_list_to_map_1, not_key_rev. }
    split; [exact Hnone|]. unfold findBy. by rewrite Hnone.
  - intros pre key v post Hl Hpost. unfold findBy. rewrite Heq, Hl.
    rewrite rev_app_distr. cbn [rev].
    rewrite <- app_assoc. cbn [app]. rewrite list_to_map_app.
    rewrite lookup_union_r.
    + by rewrite list_to_map_cons, lookup_insert_eq.
    + by apply not_elem_of_list_to_map_1, not_key_rev.
Qed.

Lemma findBy_listed (r : APIVersionResponse) (pre post : list (string * string))
    (key v : string) :
  listingEntries r = (pre ++ (key, v) :: post)%list -> key ∉ post.*1 ->
  findBy (extractAPIVersions r) key = v.
Proof.
  intros Hl Hpost. unfold findBy.
  rewrite extractAPIVersions_fold, fold_insert_list_to_map, (right_id_L ∅ (∪)), Hl.
  rewrite rev_app_distr. cbn [rev]. rewrite <- app_assoc. cbn [app].
  rewrite list_to_map_app, lookup_union_r.
  - by rewrite list_to_map_cons, lookup_insert_eq.
  - by apply not_elem_of_list_to_map_1, not_key_rev.
Qed.

(** ** The resource type found in an identifier *)

Lemma letters_spec (s : list ascii) :
  forallb isLetter (letters s) = true /\
  s = (letters s ++ drop (length (letters s)) s)%list.
Proof.
  induction s as [|c s [IHl IHs]]; [by split|]. simpl.
  destruct (isLetter c) eqn:Ec; simpl; [|by split].
  rewrite Ec, IHl. split; [reflexivity|]. by rewrite <- IHs.
Qed.

Lemma isPrefix_split (p s : list ascii) :
  isPrefix p s = true -> s = (p ++ drop (length p) s)%list.
Proof.
  revert s. induction p as [|a p IH]; intros s Hp; [reflexivity|].
  destruct s as [|b s]; [discriminate|]. simpl in Hp.
  apply andb_true_iff in Hp as [Hab Hp]. apply Ascii.eqb_eq in Hab as ->.
  simpl. f_equal. by apply IH.
Qed.

Lemma matchHere_shape (s m : list ascii) :
  targetResourceType_matchHere s = Some m ->
  resourceTypeText m /\ exists post, s = (m ++ post)%list.
Proof.
  unfold targetResourceType_matchHere. destruct s as [|c r]; [discriminate|].
  destruct ((Ascii.eqb c "m" || Ascii.eqb c "M") && isPrefix (bytes "icrosoft.") r)
    eqn:Ehead; [|discriminate].
  apply andb_true_iff in Ehead as [Hc Hp]. apply isPrefix_split in Hp.
  change (length (bytes "icrosoft.")) with 9%nat in Hp.
  set (r1 := drop 9 r) in *.
  destruct (letters_spec r1) as [Hns Hr1].
  destruct (letters r1) as [|n ns] eqn:Ens; [discriminate|].
  destruct (drop (length (n :: ns)) r1) as [|slash r2] eqn:Er2; [discriminate|].
  destruct (Ascii.eqb_spec slash "/"%char) as [->|]; [|discriminate].
  destruct (letters_spec r2) as [Hty Hr2].
  destruct (letters r2) as [|t ty] eqn:Ety; [discriminate|].
  intros Hm. inversion Hm; subst m; clear Hm. split.
  - exists c, (n :: ns), (t :: ty). repeat split; try discriminate; try assumption.
    apply orb_true_iff in Hc as [Hc|Hc]; apply Ascii.eqb_eq in Hc; auto.
  - exists (drop (length (t :: ty)) r2).
    assert (Hfull : r = (bytes "icrosoft." ++ (n :: ns)
                         ++ "/"%char :: (t :: ty) ++ drop (length (t :: ty)) r2)%list).
    { etransitivity; [exact Hp|]. f_equal.
      etransitivity; [exact Hr1|]. f_equal. f_equal. exact Hr2. }
    rewrite Hfull at 1. cbn. do 11 f_equal. by rewrite <- app_assoc.
Qed.

Lemma find_shape (s : list ascii) :
  targetResourceType_find s = [] \/
  (resourceTypeText (targetResourceType_find s) /\
   exists pre post, s = (pre ++ targetResourceType_find s ++ post)%list).
Proof.
  induction s as [|c r IH]; [by left|]. cbn [targetResourceType_find].
  destruct (targetResourceType_matchHere (c :: r)) as [m|] eqn:Em.
  - right. apply matchHere_shape in Em as [Hshape [post Hpost]].
    split; [assumption|]. exists [], post. exact Hpost.
  - destruct IH as [IH|[Hshape (pre & post & Hs)]]; [by left|right].
    split; [assumption|]. exists (c :: pre), post. simpl. by f_equal.
Qed.

Lemma letters_no_slash (l : list ascii) :
  forallb isLetter l = true -> filter (fun c => c = "/"%char) l = [].
Proof.
  induction l as [|c l IH]; [reflexivity|]. simpl.
  intros Hl. apply andb_true_iff in Hl as [Hc Hl].
  rewrite filter_cons_False; [by apply IH|]. intros ->. discriminate.
Qed.

(** X3. What [targetResourceType.FindString] of [azure.go] finds in a
    resource identifier is either nothing or a part of the identifier of
    the shape [Microsoft.<letters>/<letters>] (the first letter in either
    case): it holds exactly one slash, so of a nested type such as
    [Microsoft.Sql/servers/databases] only the first two segments are
    found. *)
Theorem targetResourceType_one_level (resourceID : string) :
  azure_targetResourceType_FindString resourceID = "" \/
  (resourceTypeText (bytes (azure_targetResourceType_FindString resourceID)) /\
   (exists pre post,
      resourceID = pre ++ azure_targetResourceType_FindString resourceID ++ post) /\
   length (filter (fun c => c = "/"%char)
             (bytes (azure_targetResourceType_FindString resourceID))) = 1%nat).
Proof.
  unfold azure_targetResourceType_FindString.
  destruct (find_shape (bytes resourceID)) as [Hnil|[Hshape (pre & post & Hs)]].
  - left. by rewrite Hnil.
  - right. rewrite bytes_of_bytes. split; [assumption|]. split.
    + exists (of_bytes pre), (of_bytes post).
      rewrite <- !of_bytes_app, <- Hs. symmetry. apply of_bytes_bytes.
    + destruct Hshape as (c & ns & ty & -> & Hc & _ & _ & Hns & Hty).
      rewrite filter_cons_False by (destruct Hc as [-> | ->]; discriminate).
      rewrite !filter_app. rewrite (letters_no_slash ns Hns).
      rewrite filter_cons_True by reflexivity. rewrite (letters_no_slash ty Hty).
      reflexivity.
Qed.

Example targetResourceType_nested :
  azure_targetResourceType_FindString
    "/resourceGroups/rg/providers/Microsoft.Sql/servers/s1/databases/d1"
  = "Microsoft.Sql/servers".
Proof. reflexivity. Qed.

(** ** Lookup of a resource by its identifier *)

Lemma of_bytes_empty (l : list ascii) : of_bytes l = "" -> l = [].
Proof. destruct l; [reflexivity|discriminate]. Qed.

Lemma listAPIVersions_run decV get url sub (ac ac' : AzureClient) :
  listAPIVersions decV get url sub ac = (ac', None) ->
  exists body r,
    getAzureMonitorResponse
      (get (url ++ "/" ++ subscriptionOf sub ++ "/providers?api-version=2019-05-10"))
    = inr body /\
    decV body = Some r /\
    ac' = {| accessToken := accessToken ac;
             accessTokenExpiresOn := accessTokenExpiresOn ac;
             clientAPIVersions := extractAPIVersions r |}.
Proof.
  unfold listAPIVersions.
  destruct (getAzureMonitorResponse _) as [err|body]; [discriminate|].
  destruct (decV body) as [r|] eqn:Er; [|discriminate].
  intros Heq. inversion Heq. eauto.
Qed.

(** X4. [listAPIVersions] succeeds only when the providers endpoint of the
    subscription answered 200 with a readable body that decodes to a
    listing; the client then keeps its token and expiry and holds the map
    [extractAPIVersions] makes of that listing. [lookupResourceByID] of an
    identifier whose type is listed there then asks the endpoint of that
    identifier with the version selected for the last listing of the
    type; when that selection is empty (no version of the type carries a
    date that parses) the lookup fails without asking anything. *)
Theorem lookupResourceByID_after_listing decV decR get url sub (ac ac' : AzureClient) :
  listAPIVersions decV get url sub ac = (ac', None) ->
  exists resp body r,
    get (url ++ "/" ++ subscriptionOf sub ++ "/providers?api-version=2019-05-10") = inr resp /\
    StatusCode resp = 200 /\ Body resp = inr body /\
    decV body = Some r /\
    ac' = {| accessToken := accessToken ac;
             accessTokenExpiresOn := accessTokenExpiresOn ac;
             clientAPIVersions := extractAPIVersions r |} /\
    forall resourceID pre post v,
      azure_targetResourceType_FindString resourceID <> "" ->
      listingEntries r
      = (pre ++ (azure_targetResourceType_FindString resourceID, v) :: post)%list ->
      azure_targetResourceType_FindString resourceID ∉ post.*1 ->
      (v = "" ->
       forall decR' get',
         AzureClient_lookupResourceByID decR' get' url sub ac' resourceID
         = inl "No api version found for type") /\
      (v <> "" ->
       AzureClient_lookupResourceByID decR get url sub ac' resourceID
       = match getAzureMonitorResponse (get (lookupEndpoint url sub resourceID v)) with
         | inl err => inl err
         | inr body =>
             match decR body with
             | None => inl "Error unmarshalling response body"
             | Some resource => inr (withSubscription resource sub)
             end
         end).
Proof.
  intros Hlist. apply listAPIVersions_run in Hlist as (body & r & Hget & Hdec & ->).
  unfold getAzureMonitorResponse in Hget.
  destruct (get _) as [err|resp] eqn:Eget; [discriminate|].
  destruct (Z.eqb_spec (StatusCode resp) 200) as [Hstatus|]; [|discriminate].
  cbn [negb] in Hget. destruct (Body resp) as [err|body'] eqn:Ebody; [discriminate|].
  injection Hget as ->.
  exists resp, body, r. split; [reflexivity|]. split; [assumption|].
  split; [assumption|]. split; [assumption|]. split; [reflexivity|].
  intros resourceID pre post v Hty Hl Hpost.
  pose proof (findBy_listed r pre post _ v Hl Hpost) as Hv.
  apply String.eqb_neq in Hty.
  unfold AzureClient_lookupResourceByID. cbn [clientAPIVersions]. rewrite Hty, Hv.
  split.
  - intros -> decR' get'. reflexivity.
  - intros Hne. apply String.eqb_neq in Hne. rewrite Hne. reflexivity.
Qed.

Lemma lookupResourceByID_after_listing_witness :
  AzureClient_lookupResourceByID (fun _ => Some (sampleResource "x" "web-1")) sampleGet
    "https://management.azure.com" "sub" sampleVersionsClient sampleSiteID
  = inr (withSubscription (sampleResource "x" "web-1") "sub").
Proof.
  destruct (lookupResourceByID_after_listing (fun _ => Some sampleListing)
              (fun _ => Some (sampleResource "x" "web-1")) sampleGet
              "https://management.azure.com" "sub" sampleVersionsClient
              sampleVersionsClient eq_refl)
    as (resp & body & r & _ & _ & _ & Hdec & _ & Hlookup).
  injection Hdec as <-.
  destruct (Hlookup sampleSiteID [] [] "2019-08-01" ltac:(discriminate) eq_refl
              ltac:(apply not_elem_of_nil)) as [_ Hasked].
  rewrite (Hasked ltac:(discriminate)). reflexivity.
Defined.

(** X5. When [lookupResourceByID] of [azure.go] returns a resource, the
    identifier holds a provider type of the shape the pattern matches, the
    client's map holds a non-empty version for that one-level type, the
    endpoint of the identifier with that version answered 200 with a body
    that could be read and decoded, and the resource returned is the
    decoded one with its subscription field set to the configured
    subscription. *)
Theorem lookupResourceByID_success decR get url sub (ac : AzureClient)
    (resourceID : string) (res : AzureResource) :
  AzureClient_lookupResourceByID decR get url sub ac resourceID = inr res ->
  let resourceType := azure_targetResourceType_FindString resourceID in
  let apiVersion := findBy (clientAPIVersions ac) resourceType in
  resourceTypeText (bytes resourceType) /\ apiVersion <> "" /\
  Subscription res = sub /\
  exists resp body resource,
    get (lookupEndpoint url sub resourceID apiVersion) = inr resp /\
    StatusCode resp = 200 /\ Body resp = inr body /\
    decR body = Some resource /\ res = withSubscription resource sub.
Proof.
  intros Hres resourceType apiVersion. unfold AzureClient_lookupResourceByID in Hres.
  fold resourceType in Hres.
  destruct (String.eqb_spec resourceType "") as [|Hty]; [discriminate|].
  fold apiVersion in Hres.
  destruct (String.eqb_spec apiVersion "") as [|Hv]; [discriminate|].
  unfold getAzureMonitorResponse in Hres.
  destruct (get (lookupEndpoint url sub resourceID apiVersion)) as [err|resp] eqn:Eg;
    [discriminate|].
  destruct (Z.eqb_spec (StatusCode resp) 200) as [Hs|]; [|discriminate]. simpl in Hres.
  destruct (Body resp) as [err|body] eqn:Eb; [discriminate|].
  destruct (decR body) as [resource|] eqn:Ed; [|discriminate].
  inversion Hres; subst res. split; [|split; [assumption|split; [reflexivity|]]].
  - unfold resourceType, azure_targetResourceType_FindString in *.
    destruct (find_shape (bytes resourceID)) as [Hnil|[Hshape _]].
    + exfalso. apply Hty. by rewrite Hnil.
    + by rewrite bytes_of_bytes.
  - exists resp, body, resource. repeat split; assumption.
Qed.

Lemma lookupResourceByID_success_witness :
  Subscription (withSubscription (sampleResource "x" "web-1") "sub") = "sub" /\
  findBy (clientAPIVersions sampleVersionsClient)
    (azure_targetResourceType_FindString sampleSiteID) = "2019-08-01".
Proof.
  destruct (lookupResourceByID_success (fun _ => Some (sampleResource "x" "web-1")) sampleGet
              "https://management.azure.com" "sub" sampleVersionsClient sampleSiteID
              (withSubscription (sampleResource "x" "web-1") "sub") eq_refl)
    as (_ & _ & Hsub & _).
  split; [exact Hsub|reflexivity].
Defined.

(** ** The token *)

(** X6. [getAccessToken] returns without error exactly when the endpoint
    answered 200 with a readable body that decodes to an object whose
    [access_token] and [expires_on] are strings, the latter a decimal
    [int64]; the client then holds that token and that expiry, and its
    API-version map is untouched. *)
Theorem getAccessToken_success json_Unmarshal (resp : postResult) (ac ac' : AzureClient) :
  getAccessToken json_Unmarshal resp ac = (ac', Return None) <->
  exists r body data tok exp expiresOn,
    resp = inr r /\ StatusCode r = 200 /\ Body r = inr body /\
    json_Unmarshal body = Some data /\
    data !! "access_token" = Some (IString tok) /\
    data !! "expires_on" = Some (IString exp) /\
    ParseInt exp = Some expiresOn /\
    ac' = {| accessToken := tok; accessTokenExpiresOn := expiresOn;
             clientAPIVersions := clientAPIVersions ac |}.
Proof.
  split.
  - unfold getAccessToken. destruct resp as [err|r]; [discriminate|].
    destruct (Z.eqb_spec (StatusCode r) 200) as [Hs|]; [|discriminate]. simpl.
    destruct (Body r) as [err|body] eqn:Eb; [discriminate|].
    destruct (json_Unmarshal body) as [data|] eqn:Ej; [|discriminate].
    destruct (data !! "access_token") as [[| | |tok| |]|] eqn:Et; try discriminate.
    destruct (data !! "expires_on") as [[| | |exp| |]|] eqn:Ee; try discriminate.
    simpl. destruct (ParseInt exp) as [expiresOn|] eqn:Ep; [|discriminate].
    intros Heq. inversion Heq. exists r, body, data, tok, exp, expiresOn.
    repeat split; assumption.
  - intros (r & body & data & tok & exp & expiresOn
            & -> & Hs & Hb & Hj & Ht & He & Hp & ->).
    unfold getAccessToken. rewrite Hs, Hb, Hj, Ht, He. simpl. by rewrite Hp.
Qed.

(** X7. A call of [getAccessToken] that does not succeed never changes the
    expiry or the API-version map of the client, but it can already have
    replaced the token: the client is left as it was unless
    [access_token] was a string, which is then stored, and [expires_on]
    was missing, not a string, or not a decimal [int64]. *)
Theorem getAccessToken_failure_keeps_expiry json_Unmarshal (resp : postResult)
    (ac ac' : AzureClient) (o : outcome error) :
  getAccessToken json_Unmarshal resp ac = (ac', o) ->
  o <> Return None ->
  accessTokenExpiresOn ac' = accessTokenExpiresOn ac /\
  clientAPIVersions ac' = clientAPIVersions ac /\
  (ac' = ac \/
   exists r body data tok,
     resp = inr r /\ StatusCode r = 200 /\ Body r = inr body /\
     json_Unmarshal body = Some data /\
     data !! "access_token" = Some (IString tok) /\
     (forall exp, data !! "expires_on" = Some (IString exp) -> ParseInt exp = None) /\
     accessToken ac' = tok).
Proof.
  unfold getAccessToken. destruct resp as [err|r].
  { intros Heq _. inversion Heq. auto. }
  destruct (Z.eqb_spec (StatusCode r) 200) as [Hs|]; simpl.
  2: { intros Heq _. inversion Heq. auto. }
  destruct (Body r) as [err|body] eqn:Eb.
  { intros Heq _. inversion Heq. auto. }
  destruct (json_Unmarshal body) as [data|] eqn:Ej.
  2: { intros Heq _. inversion Heq. auto. }
  destruct (assert_string (data !! "access_token")) as [tok|] eqn:Et.
  2: { intros Heq _. inversion Heq. auto. }
  assert (Htok : data !! "access_token" = Some (IString tok)).
  { destruct (data !! "access_token") as [[| | |tok'| |]|]; try discriminate.
    simpl in Et. congruence. }
  destruct (assert_string (data !! "expires_on")) as [exp|] eqn:Ee.
  - assert (Hexp : data !! "expires_on" = Some (IString exp)).
    { destruct (data !! "expires_on") as [[| | |exp'| |]|]; try discriminate.
      simpl in Ee. congruence. }
    destruct (ParseInt exp) as [expiresOn|] eqn:Ep.
    + intros Heq Hne. inversion Heq; subst. contradiction.
    + intros Heq _. inversion Heq; subst. cbn. split; [reflexivity|]. split; [reflexivity|].
      right. exists r, body, data, tok. repeat split; try assumption.
      intros exp' He'. congruence.
  - intros Heq _. inversion Heq; subst. cbn. split; [reflexivity|]. split; [reflexivity|].
    right. exists r, body, data, tok. repeat split; try assumption.
    intros exp' He'. rewrite He' in Ee. discriminate.
Qed.

Lemma getAccessToken_failure_keeps_expiry_witness :
  let data : gmap string iface :=
    <["access_token" := IString "t2"]> (<["expires_on" := IString "soon"]> ∅) in
  let ac' := fst (getAccessToken (fun _ => Some data) sampleTokenAnswer sampleClient) in
  accessTokenExpiresOn ac' = 2000000000 /\ accessToken ac' = "t2".
Proof.
  intros data ac'.
  destruct (getAccessToken_failure_keeps_expiry (fun _ => Some data) sampleTokenAnswer
              sampleClient ac'
              (Return (Some "Error ParseInt of expires_on failed")) eq_refl
              ltac:(discriminate)) as (Hexp & _ & _).
  split; [exact Hexp|reflexivity].
Defined.

Lemma wrap64_fits (z : Z) : - 2 ^ 63 <= z < 2 ^ 63 -> wrap64 z = z.
Proof. intros Hz. unfold wrap64. rewrite Z.mod_small; lia. Qed.

Lemma wrap64_over (z : Z) : 2 ^ 63 <= z < 2 ^ 63 + 2 ^ 64 -> wrap64 z = z - 2 ^ 64.
Proof.
  intros Hz. unfold wrap64.
  replace (z + 2 ^ 63) with (z - 2 ^ 63 + 1 * 2 ^ 64) by lia.
  rewrite Z.mod_add by lia. rewrite Z.mod_small; lia.
Qed.

(** Ten minutes before an expiry whose seconds since year 1 fit an
    [int64]. *)
Lemma refreshAt_fits (expiresOn : Z) :
  - 2 ^ 63 <= expiresOn <= 9223371974719179007 ->
  wallTime_Add (time_Unix expiresOn 0) (-10 * time_Minute)
  = {| ext := expiresOn + unixToInternal - 600; nsec := 0 |}.
Proof.
  intros Hexp. unfold wallTime_Add, time_Unix, time_Minute, unixToInternal in *.
  cbn [ext nsec]. rewrite wrap64_fits by lia.
  change (Z.quot (-10 * (60 * 10 ^ 9)) (10 ^ 9)) with (-600).
  change (Z.rem (-10 * (60 * 10 ^ 9)) (10 ^ 9)) with 0.
  change (10 ^ 9 <=? 0 + 0) with false. change (0 + 0 <? 0) with false. cbv iota.
  unfold wallTime_addSec. cbn [ext nsec]. rewrite wrap64_fits by lia.
  change (0 <? -600) with false.
  destruct (Z.ltb_spec (expiresOn + 62135596800) (expiresOn + 62135596800 + -600)); [lia|].
  cbn [Bool.eqb]. f_equal; lia.
Qed.

(** Ten minutes before an expiry whose seconds since year 1 do not fit:
    a time before year 1. *)
Lemma refreshAt_wrapped (expiresOn : Z) :
  9223371974719179007 < expiresOn < 2 ^ 63 ->
  ext (wallTime_Add (time_Unix expiresOn 0) (-10 * time_Minute)) < 0.
Proof.
  intros Hexp. unfold wallTime_Add, time_Unix, time_Minute, unixToInternal in *.
  cbn [ext nsec]. rewrite wrap64_over by lia.
  change (Z.quot (-10 * (60 * 10 ^ 9)) (10 ^ 9)) with (-600).
  change (Z.rem (-10 * (60 * 10 ^ 9)) (10 ^ 9)) with 0.
  change (10 ^ 9 <=? 0 + 0) with false. change (0 + 0 <? 0) with false. cbv iota.
  unfold wallTime_addSec. cbn [ext nsec]. change (0 <? -600) with false.
  destruct (Z_le_gt_dec (- 2 ^ 63) (expiresOn + 62135596800 - 2 ^ 64 + -600)).
  - rewrite wrap64_fits by lia.
    destruct (Z.ltb_spec (expiresOn + 62135596800 - 2 ^ 64)
                         (expiresOn + 62135596800 - 2 ^ 64 + -600)); cbn [Bool.eqb ext]; lia.
  - assert (Hsum : wrap64 (expiresOn + 62135596800 - 2 ^ 64 + -600)
                   = expiresOn + 62135596800 - 600).
    { unfold wrap64.
      replace (expiresOn + 62135596800 - 2 ^ 64 + -600 + 2 ^ 63)
        with (expiresOn + 62135596800 - 600 + 2 ^ 63 + (-1) * 2 ^ 64) by lia.
      rewrite Z.mod_add by lia. rewrite Z.mod_small by lia. lia. }
    rewrite Hsum.
    destruct (Z.ltb_spec (expiresOn + 62135596800 - 2 ^ 64)
                         (expiresOn + 62135596800 - 600)); cbn [Bool.eqb ext]; lia.
Qed.

(** X8. Let the clock read a time whose seconds since year 1 fit an
    [int64]. For an expiry up to 9223371974719179007 seconds after the Unix
    epoch, a refresh asks nothing and returns without error, leaving the
    client as it is whatever the endpoint would answer, exactly when [now]
    is no later than ten minutes before the expiry. A larger expiry, which
    [getAccessToken] accepts up to the largest [int64], is stored as a time
    before year 1: from year 1 on every refresh then fetches a token. So
    does the first refresh of a client made by [NewAzureClient]. *)
Theorem refreshAccessToken_window json_Unmarshal (now : Z) :
  - 2 ^ 63 <= now / 10 ^ 9 + unixToInternal < 2 ^ 63 ->
  (forall ac,
     - 2 ^ 63 <= accessTokenExpiresOn ac <= 9223371974719179007 ->
     ((forall resp, refreshAccessToken json_Unmarshal now resp ac = (ac, Return None))
      <-> now <= (accessTokenExpiresOn ac - 600) * 10 ^ 9)) /\
  (forall ac resp,
     (9223371974719179007 < accessTokenExpiresOn ac < 2 ^ 63 /\
      0 <= now / 10 ^ 9 + unixToInternal) \/
     (ac = NewAzureClient /\ 0 <= now) ->
     refreshAccessToken json_Unmarshal now resp ac
     = match getAccessToken json_Unmarshal resp ac with
       | (ac', Return (Some err)) =>
           (ac', Return (Some ("Error refreshing access token: " ++ err)))
       | r => r
       end).
Proof.
  intros Hclock.
  assert (Hmod : 0 <= now mod 10 ^ 9 < 10 ^ 9) by (apply Z.mod_pos_bound; lia).
  assert (Hnow : now = 10 ^ 9 * (now / 10 ^ 9) + now mod 10 ^ 9)
    by (apply Z.div_mod; lia).
  split.
  - intros ac Hexp. unfold refreshAccessToken. rewrite (refreshAt_fits _ Hexp).
    unfold wallTime_After, time_Unix. cbn [ext nsec]. rewrite wrap64_fits by assumption.
    split.
    + intros Hall. specialize (Hall (inl "unreachable")).
      destruct (Z.ltb_spec (accessTokenExpiresOn ac + unixToInternal - 600)
                           (now / 10 ^ 9 + unixToInternal)) as [Hlt|Hge];
        [cbn in Hall; discriminate|].
      destruct (Z.eqb_spec (now / 10 ^ 9 + unixToInternal)
                           (accessTokenExpiresOn ac + unixToInternal - 600)) as [Heq|Hne];
        [|nia].
      destruct (Z.ltb_spec 0 (now mod 10 ^ 9)) as [Hpos|Hzero];
        [cbn in Hall; discriminate|]. nia.
    + intros Hfresh resp.
      destruct (Z.ltb_spec (accessTokenExpiresOn ac + unixToInternal - 600)
                           (now / 10 ^ 9 + unixToInternal)) as [Hlt|Hge]; [nia|].
      destruct (Z.eqb_spec (now / 10 ^ 9 + unixToInternal)
                           (accessTokenExpiresOn ac + unixToInternal - 600)) as [Heq|Hne];
        [|reflexivity].
      destruct (Z.ltb_spec 0 (now mod 10 ^ 9)) as [Hpos|Hzero]; [nia|reflexivity].
  - intros ac resp Hcase. unfold refreshAccessToken.
    assert (Hafter : wallTime_After (time_Unix (now / 10 ^ 9) (now mod 10 ^ 9))
                       (wallTime_Add (time_Unix (accessTokenExpiresOn ac) 0)
                                     (-10 * time_Minute)) = true).
    { unfold wallTime_After. apply orb_true_iff. left. apply Z.ltb_lt.
      change (ext (time_Unix (now / 10 ^ 9) (now mod 10 ^ 9)))
        with (wrap64 (now / 10 ^ 9 + unixToInternal)).
      rewrite wrap64_fits by assumption.
      destruct Hcase as [[Hexp Hyear]|[-> Hepoch]].
      - pose proof (refreshAt_wrapped _ Hexp). lia.
      - rewrite refreshAt_fits by (cbn; unfold zeroTimeUnix; lia).
        cbn [ext accessTokenExpiresOn NewAzureClient].
        unfold zeroTimeUnix, unixToInternal in *. nia. }
    by rewrite Hafter.
Qed.

Lemma refreshAccessToken_window_witness :
  refreshAccessToken (fun _ => Some sampleTokenData) sampleNow sampleTokenAnswer
    {| accessToken := "t"; accessTokenExpiresOn := 9223372036854775807;
       clientAPIVersions := ∅ |}
  = ({| accessToken := "t2"; accessTokenExpiresOn := 2000000000; clientAPIVersions := ∅ |},
     Return None).
Proof.
  destruct (refreshAccessToken_window (fun _ => Some sampleTokenData) sampleNow
              ltac:(vm_compute; split; [discriminate|reflexivity])) as [_ Hwrap].
  rewrite Hwrap; [reflexivity|]. left. vm_compute. repeat split; discriminate.
Defined.

Example refreshAccessToken_fresh :
  refreshAccessToken (fun _ => Some sampleTokenData) sampleNow (inl "down") sampleClient
  = (sampleClient, Return None).
Proof. reflexivity. Qed.

Example refreshAccessToken_first :
  refreshAccessToken (fun _ => Some sampleTokenData) sampleNow sampleTokenAnswer NewAzureClient
  = ({| accessToken := "t2"; accessTokenExpiresOn := 2000000000; clientAPIVersions := ∅ |},
     Return None).
Proof. reflexivity. Qed.

(** ** More on the metric translator *)

Section TranslatorMore.
Context `{UnicodeLib} `{Helpers}.

Lemma metricNameOf_valid (nameValue unit : text) :
  forallb validMetricChar (metricNameOf nameValue unit) = true.
Proof. apply forallb_forall. apply ReplaceAllString_valid. Qed.

Lemma gauge_wellNamed (nameValue unit : text) (suffix : string)
    (labels : gmap string string) (v : float) :
  forallb validMetricChar (runes suffix) = true ->
  wellNamed (gauge (metricNameOf nameValue unit) suffix labels v).
Proof.
  intros Hs. unfold wellNamed, gauge, matchesMetricNameRe. cbn [fqName].
  destruct (metricNameOf nameValue unit ++ runes suffix)%list eqn:E.
  - exfalso. apply app_eq_nil in E as [E _].
    unfold metricNameOf, invalidMetricChars_ReplaceAllString in E.
    apply map_eq_nil in E. revert E.
    apply strings_Replace_nonempty; [|discriminate].
    unfold strings_ToLower. intros Hnil. apply map_eq_nil in Hnil.
    apply app_eq_nil in Hnil as [_ Hnil]. discriminate.
  - rewrite <- E, forallb_app, metricNameOf_valid, Hs. reflexivity.
Qed.

Lemma aggregationSamples_wellNamed (rm : resourceMeta) (nameValue unit : text)
    (p : dataPoint) :
  Forall wellNamed (aggregationSamples rm (metricNameOf nameValue unit) p).
Proof.
  unfold aggregationSamples.
  repeat (apply Forall_app; split);
    match goal with
    | |- Forall _ (if ?b then _ else _) =>
        destruct b; [apply Forall_cons; split; [|constructor]|constructor]
    end; by apply gauge_wellNamed.
Qed.


Lemma valueSamples_wellNamed (rm : resourceMeta) (values : list metricValue) :
  Forall wellNamed (fst (valueSamples rm values)).
Proof.
  induction values as [|v rest IH]; [constructor|]. simpl.
  destruct (lastPoint v) as [p|]; [|constructor].
  destruct (valueSamples rm rest) as [ms ok]. simpl in *.
  apply Forall_app. split; [apply aggregationSamples_wellNamed|exact IH].
Qed.


Lemma planned_wellNamed (rm : resourceMeta) (content : AzureMetricValueResponse) :
  Forall wellNamed (fst (plannedSamples rm content)).
Proof.
  unfold plannedSamples. pose proof (valueSamples_wellNamed rm (Value content)) as Hms.
  destruct (valueSamples rm (Value content)) as [ms ok]. cbn [fst] in *.
  apply Forall_app. split; [assumption|].
  destruct ok; [|constructor]. apply Forall_cons. split; [reflexivity|constructor].
Qed.

(** When the translator returns past the guards, everything planned has
    been sent, the resource information last. *)
Lemma planned_when_returning (rm : resourceMeta) (httpStatusCode : Z)
    (content : AzureMetricValueResponse) :
  extractMetrics_guard httpStatusCode content = None ->
  translatorReturns rm httpStatusCode content = true ->
  snd (valueSamples rm (Value content)) = true /\
  accepted (fst (plannedSamples rm content))
  = (fst (valueSamples rm (Value content)) ++ [resourceInfo rm])%list.
Proof.
  intros Hg Hret. rewrite <- translatorEvents_returns in Hret.
  unfold translatorEvents in Hret. rewrite Hg in Hret. unfold plannedSamples in *.
  destruct (valueSamples rm (Value content)) as [ms ok]. cbn [fst snd] in *.
  apply andb_true_iff in Hret as [-> Hvalid]. split; [reflexivity|].
  by apply accepted_all.
Qed.

Lemma logLines_app tr1 tr2 : logLines (tr1 ++ tr2) = (logLines tr1 ++ logLines tr2)%list.
Proof. apply omap_app. Qed.

Lemma logLines_Sent (ms : list Metric) : logLines (map Sent ms) = [].
Proof. induction ms as [|m ms IH]; [reflexivity|exact IH]. Qed.
End TranslatorMore.

(** X13. A sub-response is answered with one logged diagnostic, no sample and
    a normal return exactly when its status is not 200, it has no value
    entry, or the first series of its first value entry is missing or
    without data points. In every other case the translator logs nothing,
    and either panics or returns with the resource information as the
    last sample sent. *)
Theorem extractMetrics_diagnostic `{UnicodeLib} `{Helpers} (rm : resourceMeta)
    (httpStatusCode : Z) (content : AzureMetricValueResponse) (st : state) :
  (is_Some (extractMetrics_guard httpStatusCode content) <->
   httpStatusCode <> 200 \/ Value content = [] \/
   exists v0 rest, Value content = v0 :: rest /\ lastPoint v0 = None) /\
  ((exists line,
      extractMetrics rm httpStatusCode content st
      = (addTrace st [Translated rm httpStatusCode content; Logged line], Return tt)) <->
   is_Some (extractMetrics_guard httpStatusCode content)) /\
  (forall line, extractMetrics_guard httpStatusCode content = Some line ->
     extractMetrics rm httpStatusCode content st
     = (addTrace st [Translated rm httpStatusCode content; Logged line], Return tt) /\
     sent (trace (fst (extractMetrics rm httpStatusCode content st))) = sent (trace st)) /\
  (extractMetrics_guard httpStatusCode content = None ->
     logLines (trace (fst (extractMetrics rm httpStatusCode content st)))
     = logLines (trace st) /\
     (snd (extractMetrics rm httpStatusCode content st) = Panicked \/
      snd (extractMetrics rm httpStatusCode content st) = Return tt /\
      last (sent (trace (fst (extractMetrics rm httpStatusCode content st))))
      = Some (resourceInfo rm))).
Proof.
  assert (Hlogged : forall line, extractMetrics_guard httpStatusCode content = Some line ->
            extractMetrics rm httpStatusCode content st
            = (addTrace st [Translated rm httpStatusCode content; Logged line], Return tt)).
  { intros line Hg. rewrite extractMetrics_run. unfold translatorEvents. by rewrite Hg. }
  split; [|split; [|split]].
  - destruct (extractMetrics_guard httpStatusCode content) as [line|] eqn:Eg.
    + split; [intros _|by eauto].
      destruct (Z.eq_dec httpStatusCode 200) as [Hs|Hs]; [|by left]. right.
      destruct (Value content) as [|v0 rest] eqn:Ev; [by left|right].
      exists v0, rest. split; [reflexivity|].
      destruct (lastPoint v0) as [p|] eqn:El; [|reflexivity].
      assert (Hnone : extractMetrics_guard httpStatusCode content = None).
      { apply guard_None_first. split; [assumption|].
        exists v0, rest. split; [assumption|by eexists]. }
      congruence.
    + split; [intros [x Hx]; discriminate|].
      apply guard_None_first in Eg as (Hs & v0 & rest & Hv & [p Hp]).
      intros [Hne|[Hnil|(v & r & Hv' & Hl)]]; [contradiction|congruence|].
      rewrite Hv in Hv'. inversion Hv'; subst. congruence.
  - split.
    + intros [line Hrun].
      destruct (extractMetrics_guard httpStatusCode content) as [line'|] eqn:Eg;
        [by eexists|exfalso].
      rewrite extractMetrics_run in Hrun. unfold translatorEvents in Hrun.
      rewrite Eg in Hrun. destruct (plannedSamples rm content) as [ms ok].
      cbn [fst snd] in Hrun. apply (f_equal (fun r => trace (fst r))) in Hrun.
      cbn [fst trace addTrace] in Hrun. apply app_inv_head in Hrun.
      destruct (accepted ms); discriminate.
    + intros [line Hg]. exists line. by apply Hlogged.
  - intros line Hg. split; [by apply Hlogged|].
    rewrite sent_extractMetrics, sent_translatorEvents, Hg. apply app_nil_r.
  - intros Hg. split.
    + rewrite extractMetrics_run. unfold translatorEvents. rewrite Hg.
      destruct (plannedSamples rm content) as [ms ok]. cbn [fst trace addTrace].
      rewrite logLines_app.
      change (logLines (Translated rm httpStatusCode content :: map Sent (accepted ms)))
        with (logLines (map Sent (accepted ms))).
      by rewrite logLines_Sent, app_nil_r.
    + rewrite translatorReturns_spec.
      destruct (translatorReturns rm httpStatusCode content) eqn:Eret; [right|by left].
      split; [reflexivity|].
      destruct (planned_when_returning rm _ _ Hg Eret) as [_ Hplanned].
      rewrite sent_extractMetrics, sent_translatorEvents, Hg, Hplanned, !app_assoc.
      apply last_snoc.
Qed.

Example extractMetrics_status_500 :
  @extractMetrics asciiUnicode sampleHelpers (sampleQuery "/r") 500 threePoints
    (initial sampleClient)
  = (addTrace (initial sampleClient)
       [Translated (sampleQuery "/r") 500 threePoints;
        Logged "Received non-200 status for resource"], Return tt).
Proof. reflexivity. Qed.

(** X14. Whatever the payload, every metric the translator sends is a
    constant metric (never an invalid one) whose name matches
    [^[a-zA-Z0-9_:]+$]. *)
Theorem extractMetrics_sends_well_named `{UnicodeLib} `{Helpers} (rm : resourceMeta)
    (httpStatusCode : Z) (content : AzureMetricValueResponse) (st : state) :
  exists ms,
    sent (trace (fst (extractMetrics rm httpStatusCode content st)))
    = (sent (trace st) ++ ms)%list /\
    Forall wellNamed ms.
Proof.
  exists (sent (fst (translatorEvents rm httpStatusCode content))).
  split; [apply sent_extractMetrics|]. rewrite sent_translatorEvents.
  destruct (extractMetrics_guard httpStatusCode content); [constructor|].
  pose proof (planned_wellNamed rm content) as Hall.
  destruct (accepted_prefix (fst (plannedSamples rm content))) as [k Hk].
  rewrite Hk in Hall. by apply Forall_app in Hall as [Hall _].
Qed.



(** ** More on the batch executor *)

Section ExecutorMore.
Context `{UnicodeLib} `{Helpers} (world : World).






Lemma expectedTrace_empty_answers (groups : list (list resourceMeta)) (c : nat) :
  (forall b g, groups !! b = Some g ->
     batchAnswer world (c + b)%nat (map ResourceURL g) = inr {| Responses := [] |}) ->
  expectedTrace world c groups = map (fun g => BatchCall (map ResourceURL g)) groups.
Proof.
  revert c. induction groups as [|g rest IH]; intros c Hempty; [reflexivity|].
  cbn [expectedTrace map]. pose proof (Hempty 0%nat g eq_refl) as Hg.
  rewrite Nat.add_0_r in Hg. rewrite Hg. unfold pairUp. cbn [Responses map].
  rewrite zip_with_nil_r. cbn. f_equal. apply IH.
  intros b g' Hg'. rewrite <- (Hempty (S b) g' Hg'). f_equal. lia.
Qed.
End ExecutorMore.



(** X17. The number of sub-responses of a combined answer is never compared
    with the number of queries of its batch: when every combined call is
    answered without error by a body that holds no sub-response,
    [batchCollectResources] submits every batch and returns having sent
    and logged nothing. *)
Theorem batchCollectResources_empty_answers `{UnicodeLib} `{Helpers} (world : World)
    (resources : list resourceMeta) (st : state) :
  (forall b g, chunks batchSize resources !! b = Some g ->
     batchAnswer world (clock st + b)%nat (map ResourceURL g) = inr {| Responses := [] |}) ->
  batchCollectResources world resources st
  = ({| trace := (trace st
                  ++ map (fun g => BatchCall (map ResourceURL g))
                       (chunks batchSize resources))%list;
        clock := (clock st + length (chunks batchSize resources))%nat;
        client := client st |}, Return tt) /\
  sent (trace (fst (batchCollectResources world resources st))) = sent (trace st).
Proof.
  intros Hempty.
  assert (Hrun : batchCollectResources world resources st
                 = ({| trace := (trace st
                          ++ map (fun g => BatchCall (map ResourceURL g))
                               (chunks batchSize resources))%list;
                       clock := (clock st + length (chunks batchSize resources))%nat;
                       client := client st |}, Return tt)).
  { unfold batchCollectResources.
    rewrite (batchLoop_run world resources (length resources) 0 st).
    - rewrite drop_0. by rewrite (expectedTrace_empty_answers world _ _ Hempty).
    - lia.
    - rewrite drop_0. intros b g Hg. eexists. split; [exact (Hempty b g Hg)|].
      split; [simpl; lia|]. cbn [Responses]. rewrite zip_with_nil_r. constructor. }
  split; [exact Hrun|]. rewrite Hrun. cbn [fst trace]. rewrite sent_app.
  assert (Hcalls : forall gs : list (list resourceMeta),
            sent (map (fun g => BatchCall (map ResourceURL g)) gs) = []).
  { induction gs as [|g gs IH]; [reflexivity|exact IH]. }
  rewrite Hcalls. apply app_nil_r.
Qed.

Lemma batchCollectResources_empty_answers_witness :
  sent (trace (fst (@batchCollectResources asciiUnicode sampleHelpers emptyAnswers
                      (queries 21) (initial sampleClient)))) = [] /\
  length (batchCalls (trace (fst (@batchCollectResources asciiUnicode sampleHelpers
                                    emptyAnswers (queries 21) (initial sampleClient)))))
  = 2%nat.
Proof.
  destruct (@batchCollectResources_empty_answers asciiUnicode sampleHelpers emptyAnswers
              (queries 21) (initial sampleClient) (fun _ _ _ => eq_refl)) as [Hrun Hsent].
  split; [exact Hsent|]. rewrite Hrun. reflexivity.
Defined.

(** ** More on the collection cycle *)

Section CycleMore.
Context `{RegexpLib} `{UnicodeLib} `{Helpers}.
Variable json_Unmarshal : string -> option (gmap string iface).
Variable world : World.
Variable sc : Config.

Lemma refresh_run (st : state) :
  exists ac', fst (refresh json_Unmarshal world st)
              = {| trace := trace st; clock := clock st; client := ac' |}.
Proof.
  unfold refresh. destruct (refreshAccessToken _ _ _ _) as [ac' r]. by exists ac'.
Qed.

(** Every target costs one call and gives one query or one invalid
    metric; no batch call is made. *)
Lemma collectTargets_run (apiVersions : APIVersionsT) (targets : list Target) :
  forall (resources : list resourceMeta) (st : state),
  exists evs,
    collectTargets world apiVersions targets resources st
    = ({| trace := (trace st ++ evs)%list; clock := (clock st + length targets)%nat;
          client := client st |},
       Return (resources ++ targetQueries world apiVersions (clock st) targets)%list) /\
    batchCalls evs = [] /\ translated evs = [] /\
    Forall isInvalidMetric (sent evs) /\
    (length (targetQueries world apiVersions (clock st) targets) + length (sent evs)
     = length targets)%nat.
Proof.
  induction targets as [|target rest IH]; intros resources st.
  - exists []. cbn [collectTargets targetQueries length]. rewrite !app_nil_r, Nat.add_0_r.
    split; [by destruct st|]. repeat split. constructor.
  - cbn [collectTargets targetQueries]. rewrite (bind_Return _ _ _ _ _ (tick_run _)).
    destruct (lookupResourceByID world (clock st) _ _) as [err|r].
    + unfold log_, send.
      rewrite (bind_Return _ _ _ _ _ (emit_run _ _)), (bind_Return _ _ _ _ _ (emit_run _ _)).
      match goal with
      | |- context [collectTargets _ _ rest resources ?s] =>
          destruct (IH resources s) as (evs & Hrun & Hb & Ht & Hinv & Hlen)
      end.
      exists ([Logged "failed to get resource information for target";
               Sent (InvalidMetric azureErrorDesc err)] ++ evs)%list.
      rewrite Hrun. cbn [trace clock client addTrace length] in *.
      split; [|split; [|split; [|split]]].
      * f_equal. f_equal; [|lia]. rewrite <- !app_assoc. reflexivity.
      * exact Hb.
      * exact Ht.
      * rewrite sent_app. apply Forall_app. split; [|exact Hinv].
        apply Forall_cons. split; [by exists err|constructor].
      * rewrite sent_app, length_app. cbn. lia.
    + match goal with
      | |- context [collectTargets _ _ rest (resources ++ [?q])%list ?s] =>
          destruct (IH (resources ++ [q])%list s) as (evs & Hrun & Hb & Ht & Hinv & Hlen);
          exists evs
      end.
      rewrite Hrun. cbn [trace clock client length] in *.
      split; [|split; [|split; [|split]]]; try assumption.
      * f_equal; [|by rewrite <- app_assoc]. f_equal. lia.
      * lia.
Qed.

Lemma collectGroups_first_fails (rg : ResourceGroup) (rest : list ResourceGroup)
    (resources : list resourceMeta) (st : state) (err : string) :
  resourceGroupAnswer world (clock st) (rg_ResourceGroup rg) (rg_ResourceTypes rg) = inl err ->
  collectGroups world sc (rg :: rest) resources st
  = (addTrace (ticked st)
       [Logged "Failed to get resources for resource group";
        Sent (InvalidMetric azureErrorDesc err)], Return None).
Proof.
  intros Herr. cbn [collectGroups].
  unfold filteredListFromResourceGroup, listFromResourceGroup.
  rewrite !bind_unfold, tick_run, Herr. cbn. unfold log_, send.
  rewrite (bind_Return _ _ _ _ _ (emit_run _ _)), (bind_Return _ _ _ _ _ (emit_run _ _)).
  unfold addTrace, ticked. cbn. by rewrite <- app_assoc.
Qed.
End CycleMore.

(** X18. Resolving the explicit targets costs one lookup per target and
    always returns: each target whose lookup succeeds adds one query, after
    those already resolved, and each target whose lookup fails sends one
    invalid metric and is skipped, the others being unaffected; no batch
    call is made meanwhile. *)
Theorem collectTargets_one_outcome_each `{Helpers} (world : World)
    (apiVersions : APIVersionsT) (targets : list Target) (resources : list resourceMeta)
    (st : state) :
  exists invalids,
    snd (collectTargets world apiVersions targets resources st)
    = Return (resources ++ targetQueries world apiVersions (clock st) targets)%list /\
    sent (trace (fst (collectTargets world apiVersions targets resources st)))
    = (sent (trace st) ++ invalids)%list /\
    Forall isInvalidMetric invalids /\
    (length (targetQueries world apiVersions (clock st) targets) + length invalids
     = length targets)%nat /\
    clock (fst (collectTargets world apiVersions targets resources st))
    = (clock st + length targets)%nat /\
    batchCalls (trace (fst (collectTargets world apiVersions targets resources st)))
    = batchCalls (trace st).
Proof.
  destruct (collectTargets_run world apiVersions targets resources st)
    as (evs & Hrun & Hb & _ & Hinv & Hlen).
  exists (sent evs). rewrite Hrun. cbn [fst snd trace clock].
  split; [reflexivity|]. split; [apply sent_app|]. split; [assumption|].
  split; [assumption|]. split; [reflexivity|].
  rewrite batchCalls_app, Hb. apply app_nil_r.
Qed.

(** X19. When the token cannot be refreshed, [Collect] sends one invalid
    metric carrying that error and returns: no call is made to the
    management API and no batch is submitted. *)
Theorem Collect_stops_on_refresh_failure `{RegexpLib} `{UnicodeLib} `{Helpers}
    json_Unmarshal (world : World) (sc : Config) (st : state) (err : string) :
  snd (refresh json_Unmarshal world st) = Return (Some err) ->
  snd (Collect json_Unmarshal world sc st) = Return tt /\
  sent (trace (fst (Collect json_Unmarshal world sc st)))
  = (sent (trace st) ++ [InvalidMetric azureErrorDesc err])%list /\
  clock (fst (Collect json_Unmarshal world sc st)) = clock st /\
  batchCalls (trace (fst (Collect json_Unmarshal world sc st))) = batchCalls (trace st).
Proof.
  intros Hr. destruct (refresh_run json_Unmarshal world st) as [ac' Hst].
  destruct (refresh json_Unmarshal world st) as [st' r] eqn:E. simpl in Hr, Hst. subst r st'.
  unfold Collect. rewrite (bind_Return _ _ _ _ _ E).
  unfold log_, send. rewrite (bind_Return _ _ _ _ _ (emit_run _ _)), emit_run.
  cbn [trace clock fst snd addTrace]. repeat split.
  - rewrite !sent_app. cbn. by rewrite app_nil_r.
  - rewrite !batchCalls_app. cbn. by rewrite !app_nil_r.
Qed.

Lemma Collect_stops_on_refresh_failure_witness :
  sent (trace (fst (@Collect literalRegexp asciiUnicode sampleHelpers decodeEmptyObject
                      tokenDown targetAndGroup (initial NewAzureClient))))
  = [InvalidMetric azureErrorDesc
       "Error refreshing access token: Error authenticating against Azure API: down"] /\
  clock (fst (@Collect literalRegexp asciiUnicode sampleHelpers decodeEmptyObject
                tokenDown targetAndGroup (initial NewAzureClient))) = 0%nat.
Proof.
  destruct (@Collect_stops_on_refresh_failure literalRegexp asciiUnicode sampleHelpers
              decodeEmptyObject tokenDown targetAndGroup (initial NewAzureClient)
              "Error refreshing access token: Error authenticating against Azure API: down"
              eq_refl) as (_ & Hsent & Hclock & _).
  split; [exact Hsent|exact Hclock].
Defined.

(** X20. When the listing of the first configured resource group fails,
    [Collect] sends that error as an invalid metric, the last thing it
    sends, and returns without submitting any batch: the targets resolved
    before it are never queried, and the other groups and the tags are
    never listed. *)
Theorem Collect_aborts_on_group_failure `{RegexpLib} `{UnicodeLib} `{Helpers}
    json_Unmarshal (world : World) (sc : Config) (st : state)
    (apiVersions : APIVersionsT) (rg : ResourceGroup) (rest : list ResourceGroup)
    (err : string) :
  snd (refresh json_Unmarshal world st) = Return None ->
  populateAPIVersions world = inr apiVersions ->
  ResourceGroups sc = rg :: rest ->
  resourceGroupAnswer world (S (clock st) + length (Targets sc))%nat
    (rg_ResourceGroup rg) (rg_ResourceTypes rg) = inl err ->
  snd (Collect json_Unmarshal world sc st) = Return tt /\
  last (sent (trace (fst (Collect json_Unmarshal world sc st))))
  = Some (InvalidMetric azureErrorDesc err) /\
  batchCalls (trace (fst (Collect json_Unmarshal world sc st))) = batchCalls (trace st) /\
  translated (trace (fst (Collect json_Unmarshal world sc st))) = translated (trace st) /\
  clock (fst (Collect json_Unmarshal world sc st))
  = (S (S (clock st)) + length (Targets sc))%nat.
Proof.
  intros Hr Hp Hg Herr. destruct (refresh_run json_Unmarshal world st) as [ac' Hst].
  destruct (refresh json_Unmarshal world st) as [st' r] eqn:E. simpl in Hr, Hst. subst r st'.
  unfold Collect. rewrite (bind_Return _ _ _ _ _ E).
  rewrite (bind_Return _ _ _ _ _ (tick_run _)), Hp. cbv beta iota.
  cbn [trace clock client].
  destruct (collectTargets_run world apiVersions (Targets sc) []
              {| trace := trace st; clock := S (clock st); client := ac' |})
    as (evs & Hrun & Hb & Ht & Hinv & Hlen).
  cbn [trace clock client] in Hrun.
  rewrite (bind_Return _ _ _ _ _ Hrun), Hg.
  rewrite (bind_Return _ _ _ _ _
             (collectGroups_first_fails world sc rg rest _
                {| trace := (trace st ++ evs)%list;
                   clock := (S (clock st) + length (Targets sc))%nat; client := ac' |}
                err Herr)).
  unfold mret, M_ret.
  cbn [fst snd trace clock client addTrace ticked]. split; [reflexivity|].
  split; [|split; [|split]].
  - rewrite !sent_app.
    change (sent [Logged "Failed to get resources for resource group";
                  Sent (InvalidMetric azureErrorDesc err)])
      with [InvalidMetric azureErrorDesc err].
    apply last_snoc.
  - rewrite !batchCalls_app, Hb. cbn. by rewrite !app_nil_r.
  - rewrite !translated_app, Ht. cbn. by rewrite !app_nil_r.
  - lia.
Qed.

Lemma Collect_aborts_on_group_failure_witness :
  snd (@Collect literalRegexp asciiUnicode sampleHelpers decodeEmptyObject
         groupListingFails targetAndGroup (initial sampleClient)) = Return tt /\
  batchCalls (trace (fst (@Collect literalRegexp asciiUnicode sampleHelpers decodeEmptyObject
                            groupListingFails targetAndGroup (initial sampleClient)))) = [].
Proof.
  destruct (@Collect_aborts_on_group_failure literalRegexp asciiUnicode sampleHelpers
              decodeEmptyObject groupListingFails targetAndGroup (initial sampleClient)
              tt webGroup [] "Unable to query API with status code: 429"
              eq_refl eq_refl eq_refl eq_refl) as (Hret & _ & Hcalls & _).
  split; [exact Hret|exact Hcalls].
Defined.

(** ** Listing by tag *)




(** ** The name printed for a listed resource *)

Lemma splitSlash_length (s cur : list ascii) :
  length (splitSlash cur s) = S (length (filter (fun c => c = "/"%char) s)).
Proof.
  revert cur. induction s as [|c r IH]; intros cur; [reflexivity|]. simpl.
  destruct (Ascii.eqb_spec c "/"%char) as [->|Hne].
  - rewrite filter_cons_True by reflexivity. simpl. by rewrite IH.
  - rewrite filter_cons_False by assumption. apply IH.
Qed.

Lemma splitSlash_concat (s cur : list ascii) :
  String.concat "/" (splitSlash cur s) = of_bytes (rev cur ++ s).
Proof.
  revert cur. induction s as [|c r IH]; intros cur.
  - simpl. by rewrite app_nil_r.
  - simpl. destruct (Ascii.eqb_spec c "/"%char) as [->|Hne].
    + pose proof (splitSlash_length r []) as Hlen. specialize (IH []).
      destruct (splitSlash [] r) as [|x xs]; [discriminate|].
      change (String.concat "/" (of_bytes (rev cur) :: x :: xs))
        with (of_bytes (rev cur) ++ "/" ++ String.concat "/" (x :: xs)).
      rewrite IH. cbn [rev app]. by rewrite (of_bytes_app (rev cur)).
    + rewrite IH. simpl. by rewrite <- app_assoc.
Qed.

Lemma splitSlash_segments (s cur : list ascii) :
  ~ In "/"%char cur ->
  Forall (fun seg => ~ In "/"%char (bytes seg)) (splitSlash cur s).
Proof.
  revert cur. induction s as [|c r IH]; intros cur Hcur.
  - simpl. apply Forall_cons. split; [|constructor].
    rewrite bytes_of_bytes. by rewrite <- in_rev.
  - simpl. destruct (Ascii.eqb_spec c "/"%char) as [->|Hne].
    + apply Forall_cons. split.
      * rewrite bytes_of_bytes. by rewrite <- in_rev.
      * apply IH. intros [].
    + apply IH. intros [Hc|Hin]; [by subst|contradiction].
Qed.

(** X22. The name printed for a resource in the listing of metric definitions
    is the seventh text between slashes of its key: taking it is in bounds
    exactly when the key holds at least six slashes, and panics otherwise.
    The texts between slashes hold no slash, there is one more of them than
    there are slashes, and joined with slashes they give the key back. *)
Theorem listedResourceName_in_bounds (k : string) :
  (is_Some (listedResourceName k) <->
   (6 <= length (filter (fun c => c = "/"%char) (bytes k)))%nat) /\
  length (strings_Split_slash k) = S (length (filter (fun c => c = "/"%char) (bytes k))) /\
  Forall (fun seg => ~ In "/"%char (bytes seg)) (strings_Split_slash k) /\
  String.concat "/" (strings_Split_slash k) = k.
Proof.
  unfold listedResourceName, strings_Split_slash.
  pose proof (splitSlash_length (bytes k) []) as Hlen.
  split; [|split; [exact Hlen|split]].
  - rewrite lookup_lt_is_Some, Hlen. lia.
  - apply splitSlash_segments. intros [].
  - rewrite splitSlash_concat. apply of_bytes_bytes.
Qed.

Example listedResourceName_ex :
  listedResourceName sampleSiteID = Some "web-1" /\
  listedResourceName "/resourceGroups/rg" = None.
Proof. split; reflexivity. Qed.

(** ** Listing a resource group *)

(** X12. [filteredListFromResourceGroup] makes one call and strips the
    subscription prefix before it filters by name: when the listing holds
    an identifier too short to be stripped the expansion panics, whatever
    the name patterns would have kept; otherwise it returns the stripped
    resources that pass the name filter. *)
Theorem filteredListFromResourceGroup_strips_first `{RegexpLib} `{Helpers}
    (world : World) (sc : Config) (rg : ResourceGroup) (st : state)
    (data : AzureResourceListResponse) :
  resourceGroupAnswer world (clock st) (rg_ResourceGroup rg) (rg_ResourceTypes rg) = inr data ->
  (Exists (fun val => (len (ID val) < subscriptionPrefixLen (subscriptionID sc))%nat)
          (ListValue data) ->
   filteredListFromResourceGroup world sc rg st = (ticked st, Panicked)) /\
  (forall l, extendResources (subscriptionID sc) data = Return l ->
     filteredListFromResourceGroup world sc rg st
     = (ticked st, Return (inr (filterResources l rg)))).
Proof.
  intros Hdata. unfold filteredListFromResourceGroup, listFromResourceGroup.
  rewrite !bind_unfold, tick_run, Hdata. unfold liftOutcome, extendResources. split.
  - intros Hshort. apply extendResources_loop_None in Hshort. rewrite Hshort. reflexivity.
  - intros l Hl.
    destruct (extendResources_loop (subscriptionID sc) (ListValue data)) as [l'|];
      [|discriminate].
    inversion Hl; subst l'. reflexivity.
Qed.

Lemma filteredListFromResourceGroup_strips_first_witness :
  @filteredListFromResourceGroup literalRegexp sampleHelpers groupWorld
    {| ConfigCredentials := {| SubscriptionID := "a-much-longer-subscription-identifier-than-any-listed-one";
                               TenantID := ""; ClientID := ""; ClientSecret := "" |};
       Targets := []; ResourceGroups := [webGroup]; ResourceTags := [] |}
    webGroup (initial sampleClient)
  = (ticked (initial sampleClient), Panicked).
Proof.
  apply (@filteredListFromResourceGroup_strips_first literalRegexp sampleHelpers groupWorld
           _ webGroup (initial sampleClient) taggedListing eq_refl).
  apply Exists_cons_hd. vm_compute. lia.
Defined.

(** ** More on version selection *)

Lemma latest_skips_unparsable (l : list string) :
  forall st1 st2, latest st1 = latest st2 ->
    latest (fold_left latestVersionFrom_step
              (filter (fun api => is_Some (parsedDate api)) l) st1)
    = latest (fold_left latestVersionFrom_step l st2).
Proof.
  induction l as [|api l IH]; intros st1 st2 Heq; [exact Heq|].
  rewrite filter_cons. simpl.
  destruct (decide (is_Some (parsedDate api))) as [[d Hd]|Hno].
  - simpl. apply IH. unfold latestVersionFrom_step. fold (parsedDate api).
    rewrite Hd, Heq. by destruct (Before _ _).
  - apply IH. unfold latestVersionFrom_step. fold (parsedDate api).
    destruct (parsedDate api) as [d|] eqn:Ed; [exfalso; apply Hno; by eexists|].
    exact Heq.
Qed.

(** X2. The version selected is either the empty string or one of the
    candidates; candidates whose date does not parse have no influence on
    it (leaving them out gives the same result); and when no candidate
    carries a date that parses the result is the empty string. *)
Theorem latestVersionFrom_skips_unparsable (apiList : list string) :
  latestVersionFrom (filter (fun api => is_Some (parsedDate api)) apiList)
  = latestVersionFrom apiList /\
  (latestVersionFrom apiList = "" \/ latestVersionFrom apiList ∈ apiList) /\
  ((forall api, api ∈ apiList -> parsedDate api = None) -> latestVersionFrom apiList = "").
Proof.
  split; [|split].
  - unfold latestVersionFrom, latestVersionFrom_run. f_equal.
    by apply latest_skips_unparsable.
  - destruct (latestInv_run apiList) as [_ [(He & _)|[_ [i (Hi & _)]]]].
    + by left.
    + right. eapply list_elem_of_lookup_2. exact Hi.
  - intros Hnone. destruct (latestInv_run apiList) as [_ [(He & _)|[_ [i (Hi & Hd & _)]]]].
    + exact He.
    + apply list_elem_of_lookup_2 in Hi. apply Hnone in Hi.
      unfold latestVersionFrom in *. congruence.
Qed.

Example latestVersionFrom_all_unparsable :
  latestVersionFrom ["v1"; "beta"; "2019-02-30"] = "".
Proof. reflexivity. Qed.

(** ** A cycle over explicit targets only *)

(** X21. With a fresh token, a successful version listing and a configuration
    of explicit targets only, [Collect] looks every target up, then submits
    the queries of the targets found in consecutive batches of 20, and
    returns, provided every combined call is answered with no more
    sub-responses than queries and with sub-responses the translator
    returns on: the batch calls are exactly one per group of those
    queries. *)
Theorem Collect_targets_only `{RegexpLib} `{UnicodeLib} `{Helpers}
    json_Unmarshal (world : World) (sc : Config) (st : state)
    (apiVersions : APIVersionsT) :
  snd (refresh json_Unmarshal world st) = Return None ->
  populateAPIVersions world = inr apiVersions ->
  ResourceGroups sc = [] ->
  ResourceTags sc = [] ->
  (forall b g,
     chunks batchSize (targetQueries world apiVersions (S (clock st)) (Targets sc)) !! b
     = Some g ->
     exists d,
       batchAnswer world (S (clock st) + length (Targets sc) + b)%nat (map ResourceURL g)
       = inr d /\ digestible g d) ->
  snd (Collect json_Unmarshal world sc st) = Return tt /\
  batchCalls (trace (fst (Collect json_Unmarshal world sc st)))
  = (batchCalls (trace st)
     ++ map (map ResourceURL)
          (chunks batchSize (targetQueries world apiVersions (S (clock st)) (Targets sc))))%list /\
  (length (targetQueries world apiVersions (S (clock st)) (Targets sc))
   <= length (Targets sc))%nat.
Proof.
  intros Hr Hp Hg Ht Hanswers.
  destruct (refresh_run json_Unmarshal world st) as [ac' Hst].
  destruct (refresh json_Unmarshal world st) as [st' r] eqn:E. simpl in Hr, Hst. subst r st'.
  unfold Collect. rewrite (bind_Return _ _ _ _ _ E).
  rewrite (bind_Return _ _ _ _ _ (tick_run _)), Hp. cbv beta iota.
  cbn [trace clock client].
  destruct (collectTargets_run world apiVersions (Targets sc) []
              {| trace := trace st; clock := S (clock st); client := ac' |})
    as (evs & Hrun & Hb & Htr & Hinv & Hlen).
  cbn [trace clock client app] in Hrun, Hlen.
  rewrite (bind_Return _ _ _ _ _ Hrun), Hg, Ht.
  cbn [collectGroups collectTags]. unfold mret, M_ret. rewrite !bind_unfold. cbv beta iota.
  unfold batchCollectResources.
  rewrite (batchLoop_run world _ _ 0).
  - rewrite drop_0. cbn [fst snd trace clock]. split; [reflexivity|]. split; [|lia].
    rewrite !batchCalls_app, Hb, app_nil_r. f_equal.
    apply expectedTrace_batchCalls. intros b g Hbg.
    destruct (Hanswers b g Hbg) as (d & Hd & _). eauto.
  - lia.
  - rewrite drop_0. cbn [clock]. exact Hanswers.
Qed.

Lemma Collect_targets_only_witness :
  snd (@Collect literalRegexp asciiUnicode sampleHelpers decodeEmptyObject
         targetWorld targetsOnly (initial sampleClient)) = Return tt /\
  length (batchCalls (trace (fst (@Collect literalRegexp asciiUnicode sampleHelpers
                                    decodeEmptyObject targetWorld targetsOnly
                                    (initial sampleClient))))) = 1%nat.
Proof.
  destruct (@Collect_targets_only literalRegexp asciiUnicode sampleHelpers
              decodeEmptyObject targetWorld targetsOnly (initial sampleClient) tt
              eq_refl eq_refl eq_refl eq_refl) as (Hret & Hcalls & _).
  - intros b g Hbg. destruct b as [|b]; [|by destruct b].
    injection Hbg as <-. eexists. split; [reflexivity|]. split.
    + vm_compute. lia.
    + repeat constructor.
  - split; [exact Hret|]. rewrite Hcalls. reflexivity.
Defined.
